(** * Event-streaming BNPL demo: consumer, choreographer and projections

    A shallow embedding of the Go sources

    - [producer/events/events.go]   the four event structs and their JSON tags
    - [producer/commands/commands.go] the command structs
    - [producer/producer.go]        [EmitEvent]
    - [consumer/consumer.go]        [main], [processEvent] and the four
                                    database helpers, followed by the
                                    command-intake server ([POST /purchase]
                                    and friends)

    Go strings are byte strings (Rocq [string]); Go [int] is a 64-bit signed
    integer carried as a [Z] with its range written out; the database is a
    record of three tables, each a list of rows in insertion order; every
    effect of the program (log line, SQL statement, stream put, websocket
    write, stream API call) is appended to one ordered trace, so that
    "exactly once" and "before" are statements about that trace.

    The calls into [encoding/json] are modelled on JSON documents (trees):
    a record payload either is not JSON text or denotes a document.  What the
    library does between text and tree (quoting, escapes, white space) is not
    represented; what it does on trees (field matching, type checks, null,
    number ranges, the coercion of strings to valid UTF-8) is. *)

From Stdlib Require Import String Ascii ZArith NArith List Bool Lia Permutation.
From Stdlib Require Import DecimalString.
Import ListNotations.

Local Open Scope string_scope.
Local Open Scope Z_scope.

(* ================================================================== *)
(** * Go strings: bytes, UTF-8 validity and case folding *)
(* ================================================================== *)

Module Utf8.

Definition byte_of (c : ascii) : N := N_of_ascii c.

Definition between (lo hi : N) (c : ascii) : bool :=
  ((lo <=? byte_of c) && (byte_of c <=? hi))%N.

(** Continuation byte, [0x80..0xBF]. *)
Definition cont (c : ascii) : bool := between 128 191 c.

(** The Unicode replacement character U+FFFD in UTF-8: [EF BF BD]. *)
Definition replacement : string :=
  String (ascii_of_N 239) (String (ascii_of_N 191) (String (ascii_of_N 189) "")).

(** The entries of [utf8.first]: how a leading byte starts a rune, with the
    range accepted for the second byte. *)
Inductive lead :=
| Single                      (* 00..7F *)
| Bad                         (* 80..C1, F5..FF *)
| Two                         (* C2..DF *)
| Three (lo hi : N)           (* E0: A0..BF, ED: 80..9F, else 80..BF *)
| Four (lo hi : N).           (* F0: 90..BF, F4: 80..8F, else 80..BF *)

Definition first (c : ascii) : lead :=
  let b := byte_of c in
  if (b <? 128)%N then Single
  else if (b <? 194)%N then Bad
  else if (b <? 224)%N then Two
  else if (b =? 224)%N then Three 160 191
  else if (b =? 237)%N then Three 128 159
  else if (b <? 240)%N then Three 128 191
  else if (b =? 240)%N then Four 144 191
  else if (b <? 244)%N then Four 128 191
  else if (b =? 244)%N then Four 128 143
  else Bad.

(** [utf8.DecodeRuneInString] as far as its width goes: the number of
    bytes of the well-formed rune that starts [s], or [None] where Go
    returns [(RuneError, 1)]. *)
Definition rune_width (s : string) : option nat :=
  match s with
  | EmptyString => None
  | String c0 r0 =>
      match first c0 with
      | Single => Some 1%nat
      | Bad => None
      | Two =>
          match r0 with
          | String c1 _ => if cont c1 then Some 2%nat else None
          | _ => None
          end
      | Three lo hi =>
          match r0 with
          | String c1 (String c2 _) =>
              if between lo hi c1 && cont c2 then Some 3%nat else None
          | _ => None
          end
      | Four lo hi =>
          match r0 with
          | String c1 (String c2 (String c3 _)) =>
              if between lo hi c1 && cont c2 && cont c3 then Some 4%nat else None
          | _ => None
          end
      end
  end.

(** What [json.Marshal] writes for a Go string, read back as a Go string:
    every byte that does not start a well-formed rune becomes U+FFFD, all
    well-formed runes are kept.  The loop of [encoding/json.appendString]
    advances by the rune width, or by one byte at an error; here the bytes
    of a well-formed rune are copied one per step ([k] of them remain). *)
Fixpoint coerce_from (k : nat) (s : string) : string :=
  match s with
  | EmptyString => EmptyString
  | String c r =>
      match k with
      | S k' => String c (coerce_from k' r)
      | O =>
          match rune_width s with
          | Some w => String c (coerce_from (Nat.pred w) r)
          | None => replacement ++ coerce_from 0 r
          end
      end
  end.

Definition toValidUTF8 (s : string) : string := coerce_from 0 s.

(** [utf8.ValidString]. *)
Fixpoint valid_from (k : nat) (s : string) : bool :=
  match s with
  | EmptyString => true
  | String c r =>
      match k with
      | S k' => valid_from k' r
      | O =>
          match rune_width s with
          | Some w => valid_from (Nat.pred w) r
          | None => false
          end
      end
  end.

Definition validString (s : string) : bool := valid_from 0 s.

(** Case folding of a JSON object key, as [encoding/json] folds names
    before the case-insensitive field match: ASCII letters go to upper
    case, and the two non-ASCII runes whose fold set contains an ASCII
    letter go to it: U+017F (long s, [C5 BF]) to [S] and U+212A (Kelvin
    sign, [E2 84 AA]) to [K].  Every other rune folds to a non-ASCII rune;
    it is left as it is, which decides equality with the folded name of a
    struct field the same way, the field names being ASCII. *)
Definition upper (c : ascii) : ascii :=
  if between 97 122 c then ascii_of_N (byte_of c - 32) else c.

Fixpoint foldName (s : string) : string :=
  match s with
  | EmptyString => EmptyString
  | String c0 r0 =>
      match r0 with
      | String c1 r1 =>
          if ((byte_of c0 =? 197) && (byte_of c1 =? 191))%N
          then String "S"%char (foldName r1)
          else
            match r1 with
            | String c2 r2 =>
                if ((byte_of c0 =? 226) && (byte_of c1 =? 132) && (byte_of c2 =? 170))%N
                then String "K"%char (foldName r2)
                else String (upper c0) (foldName r0)
            | EmptyString => String (upper c0) (foldName r0)
            end
      | EmptyString => String (upper c0) EmptyString
      end
  end.

End Utf8.

(* ================================================================== *)
(** * JSON documents and [encoding/json] *)
(* ================================================================== *)

Module Json.

(** A number literal.  [Int z] is a literal without fraction and exponent
    (the only kind [strconv.ParseInt] reads); [Real m e] is a literal with
    a fraction or an exponent, of value [m * 10^e]. *)
Inductive number :=
| Int (z : Z)
| Real (m e : Z).

#[warnings="-register-all"]
Inductive value :=
| Null
| Bool (b : bool)
| Num (n : number)
| Str (s : string)
| Arr (l : list value)
| Obj (m : list (string * value)).

(** The bytes of a stream record ([record.Data]), or the body of a
    request, as the JSON scanner sees them:
    - [Malformed raw]: text that does not start with a complete JSON value
      (empty, blank, cut short, or with a syntax error inside its first
      value);
    - [Doc v]: the text of one document, with nothing but white space
      around it;
    - [Followed v rest]: the text of a document followed by further text
      that is not blank.
    [json.Unmarshal] wants the whole text to be one document and accepts
    the second form only; a [json.Decoder] reads the first value off the
    text and does not look at what follows it.  Strings inside a document
    are as the decoder hands them over (unquoted). *)
Inductive payload :=
| Malformed (raw : string)
| Doc (v : value)
| Followed (v : value) (rest : string).

(** ** The scanner's nesting limit *)

Fixpoint depth (v : value) : Z :=
  match v with
  | Arr l => 1 + fold_right (fun x d => Z.max (depth x) d) 0 l
  | Obj m => 1 + fold_right (fun kv d => Z.max (depth (snd kv)) d) 0 m
  | _ => 0
  end.

(** [maxNestingDepth] of [encoding/json/scanner.go]. *)
Definition maxNestingDepth : Z := 10000.

Definition checkValid (p : payload) : option value :=
  match p with
  | Malformed _ => None
  | Followed _ _ => None
  | Doc v => if depth v <=? maxNestingDepth then Some v else None
  end.

(** ** Numbers *)

(** The least magnitude that [strconv.ParseFloat(s, 64)] rounds to an
    infinity (and reports [ErrRange]): half an ulp above the largest
    finite float64. *)
Definition float64_limit : Z := 2 ^ 1024 - 2 ^ 970.

Definition float64_overflows (n : number) : bool :=
  match n with
  | Int z => float64_limit <=? Z.abs z
  | Real m e =>
      if 0 <=? e then float64_limit <=? Z.abs m * 10 ^ e
      else float64_limit * 10 ^ (- e) <=? Z.abs m
  end.

(** Go's [int] on a 64-bit platform. *)
Definition min_int : Z := - 2 ^ 63.
Definition max_int : Z := 2 ^ 63 - 1.
Definition is_int (z : Z) : bool := (min_int <=? z) && (z <=? max_int).

(** ** Decoding into [map[string]interface{}] *)

(** Whether every number of the document converts to a float64, which
    decoding into [interface{}] requires of each of them. *)
Fixpoint numbers_fit (v : value) : bool :=
  match v with
  | Num n => negb (float64_overflows n)
  | Arr l => forallb numbers_fit l
  | Obj m => forallb (fun kv => numbers_fit (snd kv)) m
  | _ => true
  end.

(** A Go map built from the members of an object in their order: a later
    member with the same key replaces an earlier one.  [None] is the nil
    interface a Go map yields for an absent key. *)
Definition gomap := list (string * value).

Fixpoint map_index (m : gomap) (k : string) : option value :=
  match m with
  | [] => None
  | (k', v) :: m' =>
      match map_index m' k with
      | Some v' => Some v'
      | None => if String.eqb k' k then Some v else None
      end
  end.

(** [json.Unmarshal(data, &m)] for [var m map[string]interface{}]:
    [None] is a non-nil error.  The document [null] leaves [m] nil (an
    empty map for every read); any other non-object is a type error. *)
Definition unmarshal_map (p : payload) : option gomap :=
  match checkValid p with
  | None => None
  | Some Null => Some []
  | Some (Obj m) => if numbers_fit (Obj m) then Some m else None
  | Some _ => None
  end.

(** ** Decoding into a struct *)

Inductive kind := KString | KInt.

Inductive fval :=
| VString (s : string)
| VInt (z : Z).

(** One exported field of a struct with its [json:"..."] tag. *)
Record field (T : Type) := Field {
  fname : string;
  fkind : kind;
  fget : T -> fval;
  fset : fval -> T -> T
}.
Arguments Field {T}.
Arguments fname {T}.
Arguments fkind {T}.
Arguments fget {T}.
Arguments fset {T}.

(** A struct type that [encoding/json] can read and write by reflection:
    its zero value and its fields in declaration order. *)
Class JsonStruct (T : Type) := {
  zero : T;
  fields : list (field T)
}.

(** What storing one JSON value into a field of a given kind does. *)
Inductive stored :=
| Keep                 (* [null]: the field is left as it is *)
| Put (x : fval)
| TypeError.           (* an [UnmarshalTypeError] is saved *)

Definition store (k : kind) (v : value) : stored :=
  match v, k with
  | Null, _ => Keep
  | Str s, KString => Put (VString s)
  | Num (Int z), KInt => if is_int z then Put (VInt z) else TypeError
  | _, _ => TypeError
  end.

(** The field a key selects: an exact match of the name first, a
    case-insensitive one otherwise. *)
Definition find_field {T} (fs : list (field T)) (key : string) : option (field T) :=
  match find (fun f => String.eqb (fname f) key) fs with
  | Some f => Some f
  | None =>
      find (fun f => String.eqb (Utf8.foldName (fname f)) (Utf8.foldName key)) fs
  end.

(** The members of an object are stored in their order; a key that selects
    no field is skipped; the first type error is remembered and decoding
    goes on.  The flag is [true] while no error was saved. *)
Fixpoint decode_members {T} (fs : list (field T)) (m : list (string * value))
         (acc : T * bool) : T * bool :=
  match m with
  | [] => acc
  | (k, v) :: m' =>
      let acc' :=
        match find_field fs k with
        | None => acc
        | Some f =>
            match store (fkind f) v with
            | Keep => acc
            | Put x => (fset f x (fst acc), snd acc)
            | TypeError => (fst acc, false)
            end
        end in
      decode_members fs m' acc'
  end.

(** [json.Unmarshal(data, &x)] for [var x T] (so [x] starts as the zero
    value): [None] is a non-nil error. *)
Definition unmarshal {T} `{JsonStruct T} (p : payload) : option T :=
  match checkValid p with
  | None => None
  | Some Null => Some zero
  | Some (Obj m) =>
      let '(x, ok) := decode_members fields m (zero, true) in
      if ok then Some x else None
  | Some _ => None
  end.

(** The text that the first [Decode] call of a [json.Decoder] takes off
    its reader: the first value, when there is one. *)
Definition first_value (p : payload) : payload :=
  match p with
  | Followed v _ => Doc v
  | _ => p
  end.

(** [json.NewDecoder(r).Decode(&x)] for [var x T]: the first value is
    checked by the scanner and stored as [json.Unmarshal] stores a
    document. *)
Definition decode {T} `{JsonStruct T} (p : payload) : option T :=
  unmarshal (first_value p).

(** ** Encoding a struct *)

Definition encode (x : fval) : value :=
  match x with
  | VString s => Str (Utf8.toValidUTF8 s)
  | VInt z => Num (Int z)
  end.

(** [json.Marshal(x)]: an object with one member per field, in
    declaration order.  For the structs of this program (strings and
    ints only) it returns no error. *)
Definition marshal {T} `{JsonStruct T} (x : T) : payload :=
  Doc (Obj (map (fun f => (fname f, encode (fget f x))) fields)).

End Json.

(* ================================================================== *)
(** * [producer/events/events.go] and [producer/commands/commands.go] *)
(* ================================================================== *)

Module events.
Import Json.

Definition string_field {T} (name : string) (get : T -> string)
           (set : string -> T -> T) : field T :=
  Field name KString (fun x => VString (get x))
        (fun v x => match v with VString s => set s x | VInt _ => x end).

Definition int_field {T} (name : string) (get : T -> Z)
           (set : Z -> T -> T) : field T :=
  Field name KInt (fun x => VInt (get x))
        (fun v x => match v with VInt z => set z x | VString _ => x end).

Module PurchaseCompletedEvent.
Record t := mk {
  EventType : string;   (* json:"event_type" *)
  OrderID : string;     (* json:"order_id" *)
  UserID : string;      (* json:"user_id" *)
  Amount : Z            (* json:"amount" *)
}.
#[global] Instance json : JsonStruct t := {|
  zero := mk "" "" "" 0;
  fields :=
    [ string_field "event_type" EventType (fun s x => mk s (OrderID x) (UserID x) (Amount x));
      string_field "order_id" OrderID (fun s x => mk (EventType x) s (UserID x) (Amount x));
      string_field "user_id" UserID (fun s x => mk (EventType x) (OrderID x) s (Amount x));
      int_field "amount" Amount (fun z x => mk (EventType x) (OrderID x) (UserID x) z) ]
|}.
End PurchaseCompletedEvent.

Module PaymentPromiseCreatedEvent.
Record t := mk {
  EventType : string;   (* json:"event_type" *)
  PromiseID : string;   (* json:"promise_id" *)
  OrderID : string;     (* json:"order_id" *)
  UserID : string;      (* json:"user_id" *)
  DueDate : string;     (* json:"due_date" *)
  PaymentMode : string  (* json:"payment_mode" *)
}.
#[global] Instance json : JsonStruct t := {|
  zero := mk "" "" "" "" "" "";
  fields :=
    [ string_field "event_type" EventType
        (fun s x => mk s (PromiseID x) (OrderID x) (UserID x) (DueDate x) (PaymentMode x));
      string_field "promise_id" PromiseID
        (fun s x => mk (EventType x) s (OrderID x) (UserID x) (DueDate x) (PaymentMode x));
      string_field "order_id" OrderID
        (fun s x => mk (EventType x) (PromiseID x) s (UserID x) (DueDate x) (PaymentMode x));
      string_field "user_id" UserID
        (fun s x => mk (EventType x) (PromiseID x) (OrderID x) s (DueDate x) (PaymentMode x));
      string_field "due_date" DueDate
        (fun s x => mk (EventType x) (PromiseID x) (OrderID x) (UserID x) s (PaymentMode x));
      string_field "payment_mode" PaymentMode
        (fun s x => mk (EventType x) (PromiseID x) (OrderID x) (UserID x) (DueDate x) s) ]
|}.
End PaymentPromiseCreatedEvent.

Module MemberBillCreatedEvent.
Record t := mk {
  EventType : string;   (* json:"event_type" *)
  BillID : string;      (* json:"bill_id" *)
  PromiseID : string;   (* json:"promise_id" *)
  UserID : string;      (* json:"user_id" *)
  Amount : Z;           (* json:"amount" *)
  IssuedDate : string   (* json:"issued_date" *)
}.
#[global] Instance json : JsonStruct t := {|
  zero := mk "" "" "" "" 0 "";
  fields :=
    [ string_field "event_type" EventType
        (fun s x => mk s (BillID x) (PromiseID x) (UserID x) (Amount x) (IssuedDate x));
      string_field "bill_id" BillID
        (fun s x => mk (EventType x) s (PromiseID x) (UserID x) (Amount x) (IssuedDate x));
      string_field "promise_id" PromiseID
        (fun s x => mk (EventType x) (BillID x) s (UserID x) (Amount x) (IssuedDate x));
      string_field "user_id" UserID
        (fun s x => mk (EventType x) (BillID x) (PromiseID x) s (Amount x) (IssuedDate x));
      int_field "amount" Amount
        (fun z x => mk (EventType x) (BillID x) (PromiseID x) (UserID x) z (IssuedDate x));
      string_field "issued_date" IssuedDate
        (fun s x => mk (EventType x) (BillID x) (PromiseID x) (UserID x) (Amount x) s) ]
|}.
End MemberBillCreatedEvent.

Module PaymentCompletedEvent.
Record t := mk {
  EventType : string;   (* json:"event_type" *)
  BillID : string;      (* json:"bill_id" *)
  UserID : string;      (* json:"user_id" *)
  Amount : Z;           (* json:"amount" *)
  PaidDate : string     (* json:"paid_date" *)
}.
#[global] Instance json : JsonStruct t := {|
  zero := mk "" "" "" 0 "";
  fields :=
    [ string_field "event_type" EventType
        (fun s x => mk s (BillID x) (UserID x) (Amount x) (PaidDate x));
      string_field "bill_id" BillID
        (fun s x => mk (EventType x) s (UserID x) (Amount x) (PaidDate x));
      string_field "user_id" UserID
        (fun s x => mk (EventType x) (BillID x) s (Amount x) (PaidDate x));
      int_field "amount" Amount
        (fun z x => mk (EventType x) (BillID x) (UserID x) z (PaidDate x));
      string_field "paid_date" PaidDate
        (fun s x => mk (EventType x) (BillID x) (UserID x) (Amount x) s) ]
|}.
End PaymentCompletedEvent.

End events.

Module commands.
Import Json.

Module PurchaseCommand.
Record t := mk {
  UserID : string;        (* json:"user_id" *)
  ProductID : string;     (* json:"product_id" *)
  ProductName : string;   (* json:"product_name" *)
  Amount : Z              (* json:"amount" *)
}.
#[global] Instance json : JsonStruct t := {|
  zero := mk "" "" "" 0;
  fields :=
    [ events.string_field "user_id" UserID
        (fun s x => mk s (ProductID x) (ProductName x) (Amount x));
      events.string_field "product_id" ProductID
        (fun s x => mk (UserID x) s (ProductName x) (Amount x));
      events.string_field "product_name" ProductName
        (fun s x => mk (UserID x) (ProductID x) s (Amount x));
      events.int_field "amount" Amount
        (fun z x => mk (UserID x) (ProductID x) (ProductName x) z) ]
|}.
End PurchaseCommand.

Module StartPaymentCommand.
Record t := mk {
  UserID : string;        (* json:"user_id" *)
  PromiseID : string      (* json:"promise_id" *)
}.
#[global] Instance json : JsonStruct t := {|
  zero := mk "" "";
  fields :=
    [ events.string_field "user_id" UserID (fun s x => mk s (PromiseID x));
      events.string_field "promise_id" PromiseID (fun s x => mk (UserID x) s) ]
|}.
End StartPaymentCommand.

Module CreateMemberBillCommand.
Record t := mk {
  PromiseID : string;     (* json:"promise_id" *)
  UserID : string;        (* json:"user_id" *)
  Amount : Z              (* json:"amount" *)
}.
#[global] Instance json : JsonStruct t := {|
  zero := mk "" "" 0;
  fields :=
    [ events.string_field "promise_id" PromiseID (fun s x => mk s (UserID x) (Amount x));
      events.string_field "user_id" UserID (fun s x => mk (PromiseID x) s (Amount x));
      events.int_field "amount" Amount (fun z x => mk (PromiseID x) (UserID x) z) ]
|}.
End CreateMemberBillCommand.

End commands.

(* ================================================================== *)
(** * [time]: the calendar date of an instant *)
(* ================================================================== *)

Module time.

(** Instants and durations are counted in seconds; the nanoseconds Go
    carries do not reach a date. *)
Definition Second : Z := 1.
Definition Hour : Z := 3600 * Second.

(** Days since 1970-01-01 to (year, month, day) of the proleptic
    Gregorian calendar, by 400-year eras that start on March 1st. *)
Definition civil_of_days (days : Z) : Z * Z * Z :=
  let z := days + 719468 in
  let era := z / 146097 in
  let doe := z - era * 146097 in
  let yoe := (doe - doe / 1460 + doe / 36524 - doe / 146096) / 365 in
  let doy := doe - (365 * yoe + yoe / 4 - yoe / 100) in
  let mp := (5 * doy + 2) / 153 in
  let d := doy - (153 * mp + 2) / 5 + 1 in
  let m := if mp <? 10 then mp + 3 else mp - 9 in
  let y := yoe + era * 400 + (if m <=? 2 then 1 else 0) in
  (y, m, d).

Definition digits (n : Z) : string :=
  NilZero.string_of_uint (N.to_uint (Z.to_N n)).

(** [appendInt(b, x, width)]: decimal, zero-padded to [width], with a
    leading minus sign for a negative [x]. *)
Fixpoint zeros (n : nat) : string :=
  match n with O => "" | S n' => String "0"%char (zeros n') end.

Definition appendInt (x : Z) (width : nat) : string :=
  let ds := digits (Z.abs x) in
  (if x <? 0 then "-" else "") ++ zeros (width - String.length ds) ++ ds.

(** [t.Format("2006-01-02")] for the instant [t] (Unix seconds) in a
    location whose offset from UTC at [t] is [offset] seconds. *)
Definition Format_date (offset : Z) (t : Z) : string :=
  let '(y, m, d) := civil_of_days ((t + offset) / 86400) in
  appendInt y 4 ++ "-" ++ appendInt m 2 ++ "-" ++ appendInt d 2.

(** [t.Add(d)]. *)
Definition Add (t d : Z) : Z := t + d.

(** ** The calendar, by the book

    The day number of a date counted the long way: whole years since 1970
    with their leap days, whole months of the year, days of the month.
    [civil_of_days] is checked against it below. *)

Definition is_leap (y : Z) : bool :=
  (y mod 4 =? 0) && (negb (y mod 100 =? 0) || (y mod 400 =? 0)).

Definition days_in_month (y m : Z) : Z :=
  if m =? 2 then (if is_leap y then 29 else 28)
  else if (m =? 4) || (m =? 6) || (m =? 9) || (m =? 11) then 30
  else if (1 <=? m) && (m <=? 12) then 31
  else 0.

(** Days of the months before month [m], counted down from [m - 1]. *)
Fixpoint days_of_months (y : Z) (count : nat) (m : Z) : Z :=
  match count with
  | O => 0
  | S count' => days_in_month y m + days_of_months y count' (m - 1)
  end.

Definition days_before_month (y m : Z) : Z :=
  days_of_months y (Z.to_nat (m - 1)) (m - 1).

(** Leap years among the years 1 .. [y - 1]. *)
Definition leap_years_before (y : Z) : Z :=
  (y - 1) / 4 - (y - 1) / 100 + (y - 1) / 400.

Definition days_before_year (y : Z) : Z :=
  365 * (y - 1970) + (leap_years_before y - leap_years_before 1970).

Definition days_of_civil (y m d : Z) : Z :=
  days_before_year y + days_before_month y m + (d - 1).

(** The date of a day within one 400-year era that starts on
    0000-03-01: [civil_of_days] with the era taken out. *)
Definition civil_of_era_day (doe : Z) : Z * Z * Z :=
  civil_of_days (doe - 719468).

(** A bounded universal check, run by evaluation. *)
Fixpoint all_from (f : Z -> bool) (count : nat) (start : Z) : bool :=
  match count with
  | O => true
  | S count' => f start && all_from f count' (start + 1)
  end.

End time.

(* ================================================================== *)
(** * The persisted state: three tables *)
(* ================================================================== *)

Module Db.

(** [events(id, event_type, event_data)] *)
Record EventRow := {
  ev_id : string;
  ev_event_type : string;
  ev_event_data : Json.payload
}.

(** [payment_promises(id, order_id, user_id, amount, due_date,
    payment_mode, created_at)]; [created_at] is filled in by the database
    and no statement of the program names it. *)
Record PromiseRow := {
  pp_id : string;
  pp_order_id : string;
  pp_user_id : string;
  pp_amount : Z;
  pp_due_date : string;
  pp_payment_mode : string
}.

(** [member_bills(id, promise_id, user_id, amount, status, issued_date,
    paid_date)]; [paid_date] is NULL ([None]) until it is set. *)
Record BillRow := {
  mb_id : string;
  mb_promise_id : string;
  mb_user_id : string;
  mb_amount : Z;
  mb_status : string;
  mb_issued_date : string;
  mb_paid_date : option string
}.

Record Database := {
  events : list EventRow;
  payment_promises : list PromiseRow;
  member_bills : list BillRow
}.

Definition empty : Database := {| events := []; payment_promises := []; member_bills := [] |}.

(** The four statements the consumer executes, with their arguments. *)
Inductive stmt :=
| InsertEvent (id event_type : string) (event_data : Json.payload)
    (* INSERT INTO events (id, event_type, event_data) VALUES (?, ?, ?) *)
| InsertPromise (id order_id user_id : string) (amount : Z) (due_date payment_mode : string)
    (* INSERT INTO payment_promises (id, order_id, user_id, amount, due_date, payment_mode)
       VALUES (?, ?, ?, ?, ?, ?) *)
| InsertBill (id promise_id user_id : string) (amount : Z) (status issued_date : string)
    (* INSERT INTO member_bills (id, promise_id, user_id, amount, status, issued_date)
       VALUES (?, ?, ?, ?, ?, ?) *)
| UpdateBill (status paid_date id : string).
    (* UPDATE member_bills SET status = ?, paid_date = ? WHERE id = ? *)

Definition set_paid (status paid_date id : string) (r : BillRow) : BillRow :=
  if String.eqb (mb_id r) id then
    {| mb_id := mb_id r; mb_promise_id := mb_promise_id r; mb_user_id := mb_user_id r;
       mb_amount := mb_amount r; mb_status := status; mb_issued_date := mb_issued_date r;
       mb_paid_date := Some paid_date |}
  else r.

(** The effect of a statement that the database accepts. *)
Definition apply (s : stmt) (d : Database) : Database :=
  match s with
  | InsertEvent id ty data =>
      {| events := events d ++ [ {| ev_id := id; ev_event_type := ty; ev_event_data := data |} ];
         payment_promises := payment_promises d;
         member_bills := member_bills d |}
  | InsertPromise id oid uid amount due mode =>
      {| events := events d;
         payment_promises := payment_promises d ++
           [ {| pp_id := id; pp_order_id := oid; pp_user_id := uid; pp_amount := amount;
                pp_due_date := due; pp_payment_mode := mode |} ];
         member_bills := member_bills d |}
  | InsertBill id pid uid amount status issued =>
      {| events := events d;
         payment_promises := payment_promises d;
         member_bills := member_bills d ++
           [ {| mb_id := id; mb_promise_id := pid; mb_user_id := uid; mb_amount := amount;
                mb_status := status; mb_issued_date := issued; mb_paid_date := None |} ] |}
  | UpdateBill status paid id =>
      {| events := events d;
         payment_promises := payment_promises d;
         member_bills := map (set_paid status paid id) (member_bills d) |}
  end.

End Db.

(* ================================================================== *)
(** * The world the program runs in *)
(* ================================================================== *)

(** A batch returned by [GetRecords]: the records and the next iterator
    ([None] is Go's nil). *)
Record RecordsOutput := {
  Records : list Json.payload;
  NextShardIterator : option string
}.

(** What the surroundings answer.  Each outside call is numbered per kind
    in the order the program makes it; the environment fixes the answer to
    the n-th call of each kind.  [None] is a non-nil [err]. *)
Record Env := {
  uuid_at : nat -> string;               (* the n-th [uuid.New().String()] *)
  exec_ok : nat -> bool;                 (* does the n-th [db.Exec] succeed *)
  put_ok : nat -> bool;                  (* does the n-th [PutRecord] succeed *)
  write_ok : nat -> bool;                (* does the n-th [ws.WriteMessage] succeed *)
  now_at : nat -> Z;                     (* the n-th [time.Now()], in Unix seconds *)
  zone_offset : Z -> Z;                  (* offset of the local zone at an instant *)
  load_config : bool;                    (* [config.LoadDefaultConfig] *)
  sql_open : bool;                       (* [sql.Open] *)
  ws_dial : bool;                        (* [websocket.DefaultDialer.Dial] *)
  describe_stream : option (list string);(* [DescribeStream]: the shard ids *)
  shard_iterator : option (option string); (* [GetShardIterator] *)
  get_records : nat -> option RecordsOutput (* the n-th [GetRecords] *)
}.

Inductive effect :=
| ELog (format : string)                       (* [log.Printf] / [log.Println] *)
| EFatal (format : string)                     (* [log.Fatalf]: log, then [os.Exit(1)] *)
| EExec (s : Db.stmt) (ok : bool)              (* [db.Exec] *)
| EPutRecord (data : Json.payload) (stream partition_key : string) (ok : bool)
| EWrite (msg : string) (ok : bool)            (* [ws.WriteMessage(TextMessage, msg)] *)
| EDescribeStream (stream : string)
| EGetShardIterator (shard iterator_type stream : string)
| EGetRecords (iterator : option string)
| ESleep (d : Z)
| ECloseDb
| ECloseWs.

Record World := {
  db : Db.Database;
  trace : list effect;     (* oldest first *)
  uuids : nat;             (* calls of [uuid.New] so far *)
  execs : nat;             (* calls of [db.Exec] so far *)
  puts : nat;              (* calls of [PutRecord] so far *)
  writes : nat;            (* calls of [ws.WriteMessage] so far *)
  polls : nat;             (* calls of [GetRecords] so far *)
  nows : nat               (* calls of [time.Now] so far *)
}.

Definition fresh_world (d : Db.Database) : World :=
  {| db := d; trace := []; uuids := 0; execs := 0; puts := 0; writes := 0;
     polls := 0; nows := 0 |}.

(** ** A state monad with panics *)

Inductive outcome (A : Type) :=
| Done (a : A) (w : World)
| Panic (msg : string) (w : World).
Arguments Done {A}.
Arguments Panic {A}.

Definition M (A : Type) := World -> outcome A.

Definition ret {A} (a : A) : M A := fun w => Done a w.

Definition bind {A B} (c : M A) (k : A -> M B) : M B :=
  fun w => match c w with
           | Done a w' => k a w'
           | Panic msg w' => Panic msg w'
           end.

Definition panic {A} (msg : string) : M A := fun w => Panic msg w.

Declare Scope go_scope.
Delimit Scope go_scope with go.
Notation "x <- c ;; k" := (bind c (fun x => k))
  (at level 61, c at next level, right associativity) : go_scope.
Notation "c ;; k" := (bind c (fun _ => k))
  (at level 61, right associativity) : go_scope.
Local Open Scope go_scope.

Definition emit (e : effect) (w : World) : World :=
  {| db := db w; trace := trace w ++ [e]; uuids := uuids w; execs := execs w;
     puts := puts w; writes := writes w; polls := polls w; nows := nows w |}.

Section Primitives.
Variable env : Env.

Definition log_Printf (format : string) : M unit :=
  fun w => Done tt (emit (ELog format) w).

Definition uuid_New : M string :=
  fun w => Done (uuid_at env (uuids w))
    {| db := db w; trace := trace w; uuids := S (uuids w); execs := execs w;
       puts := puts w; writes := writes w; polls := polls w; nows := nows w |}.

Definition time_Now : M Z :=
  fun w => Done (now_at env (nows w))
    {| db := db w; trace := trace w; uuids := uuids w; execs := execs w;
       puts := puts w; writes := writes w; polls := polls w; nows := S (nows w) |}.

(** [db.Exec]: the answer is [true] for a nil error. *)
Definition db_Exec (s : Db.stmt) : M bool :=
  fun w =>
    let ok := exec_ok env (execs w) in
    Done ok
      {| db := if ok then Db.apply s (db w) else db w;
         trace := trace w ++ [EExec s ok];
         uuids := uuids w; execs := S (execs w); puts := puts w;
         writes := writes w; polls := polls w; nows := nows w |}.

Definition kinesis_PutRecord (data : Json.payload) (stream key : string) : M bool :=
  fun w =>
    let ok := put_ok env (puts w) in
    Done ok
      {| db := db w; trace := trace w ++ [EPutRecord data stream key ok];
         uuids := uuids w; execs := execs w; puts := S (puts w);
         writes := writes w; polls := polls w; nows := nows w |}.

Definition ws_WriteMessage (msg : string) : M bool :=
  fun w =>
    let ok := write_ok env (writes w) in
    Done ok
      {| db := db w; trace := trace w ++ [EWrite msg ok];
         uuids := uuids w; execs := execs w; puts := puts w;
         writes := S (writes w); polls := polls w; nows := nows w |}.

End Primitives.

(* ================================================================== *)
(** * [producer/producer.go] *)
(* ================================================================== *)

Module producer.

Definition streamName : string := "atone-events-stream".

Section WithEnv.
Variable env : Env.

(** [EmitEvent]: the answer is [true] for a nil error.  [json.Marshal]
    returns no error on a struct of strings and ints. *)
Definition EmitEvent {T} `{Json.JsonStruct T} (event : T) : M bool :=
  let data := Json.marshal event in
  ok <- kinesis_PutRecord env data streamName "partition-key-1" ;;
  if ok then
    log_Printf "Event emitted to Kinesis: %s\n" ;;
    ret true
  else ret false.

End WithEnv.

End producer.

(* ================================================================== *)
(** * [consumer/consumer.go]: the event choreographer *)
(* ================================================================== *)

Module consumer.

(** Modelled from the spec: the package [atone-hands-on/consumer/events]
    that [processEvent] decodes into is not among the sources.  Its four
    structs are taken to be those of [producer/events] above: the consumer
    uses the same type and field names, they are the four variants and
    fields of the data model in the specification, and the records the
    consumer reads are the ones the producer wrote. *)
Import events.

Definition streamName : string := "atone-events-stream".

Section WithEnv.
Variable env : Env.

Definition saveEventToDB (data : Json.payload) (eventType : string) : M unit :=
  id <- uuid_New env ;;
  ok <- db_Exec env (Db.InsertEvent id eventType data) ;;
  if ok then ret tt else log_Printf "Failed to save event to DB: %v".

Definition savePromiseToDB (promise : PaymentPromiseCreatedEvent.t) : M unit :=
  ok <- db_Exec env
          (Db.InsertPromise (PaymentPromiseCreatedEvent.PromiseID promise)
                            (PaymentPromiseCreatedEvent.OrderID promise)
                            (PaymentPromiseCreatedEvent.UserID promise)
                            3500
                            (PaymentPromiseCreatedEvent.DueDate promise)
                            (PaymentPromiseCreatedEvent.PaymentMode promise)) ;;
  if ok then ret tt else log_Printf "Failed to save promise to DB: %v".

Definition saveMemberBillToDB (bill : MemberBillCreatedEvent.t) : M unit :=
  ok <- db_Exec env
          (Db.InsertBill (MemberBillCreatedEvent.BillID bill)
                         (MemberBillCreatedEvent.PromiseID bill)
                         (MemberBillCreatedEvent.UserID bill)
                         (MemberBillCreatedEvent.Amount bill)
                         "unpaid"
                         (MemberBillCreatedEvent.IssuedDate bill)) ;;
  if ok then ret tt else log_Printf "Failed to save member bill to DB: %v".

Definition updateMemberBillStatus (payment : PaymentCompletedEvent.t) : M unit :=
  ok <- db_Exec env
          (Db.UpdateBill "paid"
                         (PaymentCompletedEvent.PaidDate payment)
                         (PaymentCompletedEvent.BillID payment)) ;;
  if ok then ret tt else log_Printf "Failed to update member bill status: %v".

(** The body of the [case "PurchaseCompletedEvent"] branch. *)
Definition onPurchaseCompleted (data : Json.payload) : M unit :=
  match Json.unmarshal data : option PurchaseCompletedEvent.t with
  | None => log_Printf "Failed to unmarshal purchase event: %v"
  | Some purchaseEvent =>
      promiseID <- uuid_New env ;;
      now <- time_Now env ;;
      let promiseEvent :=
        {| PaymentPromiseCreatedEvent.EventType := "PaymentPromiseCreatedEvent";
           PaymentPromiseCreatedEvent.PromiseID := promiseID;
           PaymentPromiseCreatedEvent.OrderID := PurchaseCompletedEvent.OrderID purchaseEvent;
           PaymentPromiseCreatedEvent.UserID := PurchaseCompletedEvent.UserID purchaseEvent;
           PaymentPromiseCreatedEvent.DueDate :=
             time.Format_date (zone_offset env (time.Add now (30 * 24 * time.Hour)))
                              (time.Add now (30 * 24 * time.Hour));
           PaymentPromiseCreatedEvent.PaymentMode := "月まとめ払い" |} in
      ok <- producer.EmitEvent env promiseEvent ;;
      if ok then ret tt else log_Printf "Failed to emit payment promise event: %v"
  end.

(** The body of the [case "PaymentPromiseCreatedEvent"] branch. *)
Definition onPaymentPromiseCreated (data : Json.payload) : M unit :=
  match Json.unmarshal data : option PaymentPromiseCreatedEvent.t with
  | None => log_Printf "Failed to unmarshal promise event: %v"
  | Some promiseEvent =>
      savePromiseToDB promiseEvent ;;
      log_Printf "Payment promise projection created: %+v"
  end.

(** The body of the [case "MemberBillCreatedEvent"] branch. *)
Definition onMemberBillCreated (data : Json.payload) : M unit :=
  match Json.unmarshal data : option MemberBillCreatedEvent.t with
  | None => log_Printf "Failed to unmarshal bill event: %v"
  | Some billEvent =>
      saveMemberBillToDB billEvent ;;
      log_Printf "Member bill projection created: %+v"
  end.

(** The body of the [case "PaymentCompletedEvent"] branch. *)
Definition onPaymentCompleted (data : Json.payload) : M unit :=
  match Json.unmarshal data : option PaymentCompletedEvent.t with
  | None => log_Printf "Failed to unmarshal payment event: %v"
  | Some paymentEvent =>
      updateMemberBillStatus paymentEvent ;;
      log_Printf "Member bill status updated to paid: %+v" ;;
      ok <- ws_WriteMessage env "update" ;;
      if ok then ret tt else log_Printf "Failed to write to WebSocket: %v"
  end.

(** [processEvent].  The argument of [saveEventToDB] is the unchecked
    type assertion [genericEvent["event_type"].(string)]: it panics
    when the key is absent (a nil interface) or holds anything but a
    string, before [saveEventToDB] is entered (Go's message also names the
    dynamic type found).  The [switch] has no [default]: any other
    discriminator falls through. *)
Definition processEvent (record : Json.payload) : M unit :=
  log_Printf "Received event: %s\n" ;;
  match Json.unmarshal_map record with
  | None => log_Printf "Failed to unmarshal generic event: %v"
  | Some genericEvent =>
      match Json.map_index genericEvent "event_type" with
      | Some (Json.Str eventType) =>
          saveEventToDB record eventType ;;
          if String.eqb eventType "PurchaseCompletedEvent" then
            onPurchaseCompleted record
          else if String.eqb eventType "PaymentPromiseCreatedEvent" then
            onPaymentPromiseCreated record
          else if String.eqb eventType "MemberBillCreatedEvent" then
            onMemberBillCreated record
          else if String.eqb eventType "PaymentCompletedEvent" then
            onPaymentCompleted record
          else ret tt
      | _ => panic "interface conversion: interface {} is not string"
      end
  end.

(** [for _, record := range recordsOutput.Records { processEvent(...) }] *)
Fixpoint processRecords (records : list Json.payload) : M unit :=
  match records with
  | [] => ret tt
  | record :: rest => processEvent record ;; processRecords rest
  end.

End WithEnv.

End consumer.

(* ================================================================== *)
(** * [consumer/consumer.go]: [main], the stream reader *)
(* ================================================================== *)

Module reader.

(** How the process ends.  The polling loop has no bound; [Running] is a
    run cut off while still polling. *)
Inductive status :=
| Returned               (* [main] returns: exit status 0 *)
| Exit1                  (* [log.Fatal]: [os.Exit(1)], deferred calls skipped *)
| Crashed (msg : string) (* an unrecovered panic *)
| Running.

Section WithEnv.
Variable env : Env.

Definition fatal (format : string) (w : World) : status * World :=
  (Exit1, emit (EFatal format) w).

Definition count_poll (w : World) : World :=
  {| db := db w; trace := trace w; uuids := uuids w; execs := execs w;
     puts := puts w; writes := writes w; polls := S (polls w); nows := nows w |}.

(** The [for] loop of [main], unrolled at most [fuel] times. *)
Fixpoint loop (fuel : nat) (shardIterator : option string) (w : World)
  : status * World :=
  match fuel with
  | O => (Running, w)
  | S fuel' =>
      let w1 := count_poll (emit (EGetRecords shardIterator) w) in
      match get_records env (polls w) with
      | None => fatal "failed to get records: %v" w1
      | Some recordsOutput =>
          match consumer.processRecords env (Records recordsOutput) w1 with
          | Panic msg w2 => (Crashed msg, w2)
          | Done _ w2 =>
              match NextShardIterator recordsOutput with
              | None => (Returned, emit (ELog "Shard iterator is nil. Exiting.") w2)
              | Some next => loop fuel' (Some next) (emit (ESleep (1 * time.Second)) w2)
              end
          end
      end
  end.

(** The two deferred calls, in the order they run. *)
Definition deferred (w : World) : World := emit ECloseDb (emit ECloseWs w).

Definition main (fuel : nat) (w : World) : status * World :=
  if negb (load_config env) then fatal "unable to load SDK config, %v" w
  else if negb (sql_open env) then fatal "failed to connect to database: %v" w
  else if negb (ws_dial env) then fatal "failed to connect to WebSocket server: %v" w
  else
    let w := emit (EDescribeStream consumer.streamName) w in
    match describe_stream env with
    | None => fatal "failed to get shards: %v" w
    | Some [] => fatal "no shards found" w
    | Some (shardID :: _) =>
        let w := emit (EGetShardIterator shardID "LATEST" consumer.streamName) w in
        match shard_iterator env with
        | None => fatal "failed to get shard iterator: %v" w
        | Some shardIterator =>
            let w := emit (ELog "Listening for events...") w in
            match loop fuel shardIterator w with
            | (Returned, w') => (Returned, deferred w')
            | (Crashed msg, w') => (Crashed msg, deferred w')
            | r => r
            end
        end
    end.

End WithEnv.

End reader.

(* ================================================================== *)
(** * The command-intake server: [POST /purchase] *)
(* ================================================================== *)

Module server.
Import events commands.

Section WithEnv.
Variable env : Env.

(** The event the handler builds from an accepted command. *)
Definition purchaseEvent (cmd : PurchaseCommand.t) : PurchaseCompletedEvent.t :=
  {| PurchaseCompletedEvent.EventType := "PurchaseCompletedEvent";
     PurchaseCompletedEvent.OrderID := "order-" ++ PurchaseCommand.UserID cmd;
     PurchaseCompletedEvent.UserID := PurchaseCommand.UserID cmd;
     PurchaseCompletedEvent.Amount := PurchaseCommand.Amount cmd |}.

(** The handler of [POST /purchase]: the HTTP status it answers with.
    [c.ShouldBindJSON(&cmd)] runs [json.NewDecoder(body).Decode(&cmd)], so
    it binds the first JSON value of the body whatever follows it; the
    struct carries no [binding] tags, so nothing else is validated. *)
Definition postPurchase (body : Json.payload) : M Z :=
  match Json.decode body : option PurchaseCommand.t with
  | None => ret 400
  | Some cmd =>
      ok <- producer.EmitEvent env (purchaseEvent cmd) ;;
      if ok then ret 200 else ret 500
  end.

(** The handler of [POST /create-bill/immediate]: the bill id is drawn
    here, the issue date is the local date of [time.Now()]. *)
Definition postCreateBillImmediate (body : Json.payload) : M Z :=
  match Json.decode body : option CreateMemberBillCommand.t with
  | None => ret 400
  | Some cmd =>
      billID <- uuid_New env ;;
      now <- time_Now env ;;
      let billEvent :=
        {| MemberBillCreatedEvent.EventType := "MemberBillCreatedEvent";
           MemberBillCreatedEvent.BillID := billID;
           MemberBillCreatedEvent.PromiseID := CreateMemberBillCommand.PromiseID cmd;
           MemberBillCreatedEvent.UserID := CreateMemberBillCommand.UserID cmd;
           MemberBillCreatedEvent.Amount := CreateMemberBillCommand.Amount cmd;
           MemberBillCreatedEvent.IssuedDate := time.Format_date (zone_offset env now) now |} in
      ok <- producer.EmitEvent env billEvent ;;
      if ok then ret 200 else ret 500
  end.

End WithEnv.

(** The anonymous struct the payment webhook binds its body to. *)
Module webhookPayload.
Record t := mk {
  BillID : string;        (* json:"bill_id" *)
  UserID : string;        (* json:"user_id" *)
  Amount : Z              (* json:"amount" *)
}.
#[global] Instance json : Json.JsonStruct t := {|
  Json.zero := mk "" "" 0;
  Json.fields :=
    [ events.string_field "bill_id" BillID (fun s x => mk s (UserID x) (Amount x));
      events.string_field "user_id" UserID (fun s x => mk (BillID x) s (Amount x));
      events.int_field "amount" Amount (fun z x => mk (BillID x) (UserID x) z) ]
|}.
End webhookPayload.

Section Webhook.
Variable env : Env.

(** The handler of [POST /webhook/payment-completed]: the paid date is
    the local date of [time.Now()]. *)
Definition postPaymentCompleted (body : Json.payload) : M Z :=
  match Json.decode body : option webhookPayload.t with
  | None => ret 400
  | Some payload =>
      now <- time_Now env ;;
      let paymentEvent :=
        {| PaymentCompletedEvent.EventType := "PaymentCompletedEvent";
           PaymentCompletedEvent.BillID := webhookPayload.BillID payload;
           PaymentCompletedEvent.UserID := webhookPayload.UserID payload;
           PaymentCompletedEvent.Amount := webhookPayload.Amount payload;
           PaymentCompletedEvent.PaidDate := time.Format_date (zone_offset env now) now |} in
      ok <- producer.EmitEvent env paymentEvent ;;
      if ok then ret 200 else ret 500
  end.

End Webhook.

(** ** The status page: [GET /user/:userId/status]

    The read side goes through [db.Query] and [rows.Scan], whose answers
    depend on the driver and on the table definitions, which are not among
    the sources.  They are taken as given:
    - what a [db.Query] call answers: an error, or a row cursor.  Neither
      query has an [ORDER BY], so the rows selected come in an order of the
      database's choice: the answer names them by their positions in table
      order.  A cursor may stop before the last row ([rows.Next] returns
      false on an error, and neither function looks at [rows.Err]);
    - [column_time]: the [time.Time] (Unix seconds) that [Scan] stores for
      a date column holding a given value, [None] when [Scan] fails;
    - [created_at]: the same for the [created_at] column of a promise row,
      which the database fills in.
    The connection string gives no [loc], so the driver hands times over in
    UTC and they are formatted at offset 0.  [WHERE user_id = ?] is taken
    as equality of strings, like [WHERE id = ?]. *)

Inductive query_answer :=
| QueryError
| QueryRows (order : list nat) (stop_after : option nat).

(** One [gin.H] of [getPaymentPromises]. *)
Record PromiseView := {
  promise_orderId : string;
  promise_amount : Z;
  promise_dueDate : string;
  promise_paymentMode : string;
  promise_createdAt : Z
}.

(** One [gin.H] of [getMemberBills]; [bill_paidDate] is [None] for Go's
    [nil]. *)
Record BillView := {
  bill_billId : string;
  bill_amount : Z;
  bill_status : string;
  bill_issuedDate : string;
  bill_paidDate : option string
}.

(** The rows selected, in the order the database returns them: the row at
    each position named, a position outside the selection naming none. *)
Definition arranged {A} (order : list nat) (rows : list A) : list A :=
  flat_map (fun i => match nth_error rows i with
                     | Some r => [r]
                     | None => []
                     end) order.

(** The rows a cursor delivers out of the rows it was to return. *)
Definition delivered {A} (stop_after : option nat) (rows : list A) : list A :=
  match stop_after with
  | None => rows
  | Some n => firstn n rows
  end.

Section Status.
Variable column_time : string -> option Z.
Variable created_at : Db.PromiseRow -> option Z.

(** The body of the [for rows.Next()] loop of [getPaymentPromises]:
    [None] is the [return nil, err] of a failed [Scan]. *)
Fixpoint scanPromises (rows : list Db.PromiseRow) : option (list PromiseView) :=
  match rows with
  | [] => Some []
  | r :: rest =>
      match column_time (Db.pp_due_date r), created_at r with
      | Some dueDate, Some createdAt =>
          match scanPromises rest with
          | Some promises =>
              Some ({| promise_orderId := Db.pp_order_id r;
                       promise_amount := Db.pp_amount r;
                       promise_dueDate := time.Format_date 0 dueDate;
                       promise_paymentMode := Db.pp_payment_mode r;
                       promise_createdAt := createdAt |} :: promises)
          | None => None
          end
      | _, _ => None
      end
  end.

Definition getPaymentPromises (answer : query_answer) (d : Db.Database) (userId : string)
  : option (list PromiseView) :=
  match answer with
  | QueryError => None
  | QueryRows order stop_after =>
      scanPromises
        (delivered stop_after
           (arranged order
              (filter (fun r => String.eqb (Db.pp_user_id r) userId)
                      (Db.payment_promises d))))
  end.

(** [paid_date] is scanned into a [sql.NullTime]: NULL is not an error. *)
Definition scanPaidDate (paid_date : option string) : option (option string) :=
  match paid_date with
  | None => Some None
  | Some v =>
      match column_time v with
      | Some t => Some (Some (time.Format_date 0 t))
      | None => None
      end
  end.

Fixpoint scanBills (rows : list Db.BillRow) : option (list BillView) :=
  match rows with
  | [] => Some []
  | r :: rest =>
      match column_time (Db.mb_issued_date r), scanPaidDate (Db.mb_paid_date r) with
      | Some issuedDate, Some paidDate =>
          match scanBills rest with
          | Some bills =>
              Some ({| bill_billId := Db.mb_id r;
                       bill_amount := Db.mb_amount r;
                       bill_status := Db.mb_status r;
                       bill_issuedDate := time.Format_date 0 issuedDate;
                       bill_paidDate := paidDate |} :: bills)
          | None => None
          end
      | _, _ => None
      end
  end.

Definition getMemberBills (answer : query_answer) (d : Db.Database) (userId : string)
  : option (list BillView) :=
  match answer with
  | QueryError => None
  | QueryRows order stop_after =>
      scanBills
        (delivered stop_after
           (arranged order
              (filter (fun r => String.eqb (Db.mb_user_id r) userId)
                      (Db.member_bills d))))
  end.

(** The handler: the HTTP status and, for 200, what the template gets.
    The second query is made only when the first succeeded. *)
Definition getUserStatus (promises_answer bills_answer : query_answer)
           (d : Db.Database) (userId : string)
  : Z * option (string * list PromiseView * list BillView) :=
  match getPaymentPromises promises_answer d userId with
  | None => (500, None)
  | Some promises =>
      match getMemberBills bills_answer d userId with
      | None => (500, None)
      | Some bills => (200, Some (userId, promises, bills))
      end
  end.

End Status.

End server.

(* ================================================================== *)
(** * Observations on runs *)
(* ================================================================== *)

Definition world_of {A} (o : outcome A) : World :=
  match o with
  | Done _ w => w
  | Panic _ w => w
  end.

Definition returns {A} (o : outcome A) : bool :=
  match o with
  | Done _ _ => true
  | Panic _ _ => false
  end.

(** The SQL statements of a trace, the records handed to [PutRecord], and
    the messages written to the websocket, each in order, whether or not
    the call succeeded. *)
Definition statement (e : effect) : option Db.stmt :=
  match e with EExec s _ => Some s | _ => None end.

Definition emission (e : effect) : option Json.payload :=
  match e with EPutRecord data _ _ _ => Some data | _ => None end.

Definition signal (e : effect) : option string :=
  match e with EWrite msg _ => Some msg | _ => None end.

Fixpoint collect {A B} (f : A -> option B) (l : list A) : list B :=
  match l with
  | [] => []
  | x :: l' =>
      match f x with
      | Some y => y :: collect f l'
      | None => collect f l'
      end
  end.

Definition statements (t : list effect) : list Db.stmt := collect statement t.
Definition emissions (t : list effect) : list Json.payload := collect emission t.
Definition signals (t : list effect) : list string := collect signal t.

(** Statements against the two projection tables. *)
Definition is_projection_write (s : Db.stmt) : bool :=
  match s with
  | Db.InsertEvent _ _ _ => false
  | _ => true
  end.

Definition is_log_append (s : Db.stmt) : bool := negb (is_projection_write s).

(** A choreography effect: a projection write, an emission or a
    notification. *)
Definition is_choreography (e : effect) : bool :=
  match e with
  | EExec s _ => is_projection_write s
  | EPutRecord _ _ _ _ => true
  | EWrite _ _ => true
  | _ => false
  end.

(** The discriminator [processEvent] reads off a record: the string under
    ["event_type"] of the generically decoded map. *)
Definition discriminator (record : Json.payload) : option string :=
  match Json.unmarshal_map record with
  | Some m =>
      match Json.map_index m "event_type" with
      | Some (Json.Str s) => Some s
      | _ => None
      end
  | None => None
  end.

(** A record whose generic decode succeeds and that carries no string
    under ["event_type"]. *)
Definition lacks_discriminator (record : Json.payload) : bool :=
  match Json.unmarshal_map record with
  | Some m =>
      match Json.map_index m "event_type" with
      | Some (Json.Str _) => false
      | _ => true
      end
  | None => false
  end.

(** A batch none of whose records is of that kind. *)
Definition healthy (records : list Json.payload) : bool :=
  forallb (fun r => negb (lacks_discriminator r)) records.

(** The [k] polls from the [n]-th on each return a healthy batch and a
    next iterator. *)
Definition polls_ok (env : Env) (n k : nat) : Prop :=
  forall i, (i < k)%nat ->
    exists out next,
      get_records env (n + i)%nat = Some out /\
      NextShardIterator out = Some next /\
      healthy (Records out) = true.

(** The four discriminators of the [switch]. *)
Definition recognized (eventType : string) : bool :=
  String.eqb eventType "PurchaseCompletedEvent"
  || String.eqb eventType "PaymentPromiseCreatedEvent"
  || String.eqb eventType "MemberBillCreatedEvent"
  || String.eqb eventType "PaymentCompletedEvent".

(** Whether a record is taken up by a branch of the [switch]: its
    discriminator is one of the four and it decodes into the struct of
    that branch. *)
Definition is_some {A} (o : option A) : bool :=
  match o with Some _ => true | None => false end.

Definition decodes_in_branch (record : Json.payload) : bool :=
  match discriminator record with
  | Some eventType =>
      if String.eqb eventType "PurchaseCompletedEvent" then
        is_some (Json.unmarshal record : option events.PurchaseCompletedEvent.t)
      else if String.eqb eventType "PaymentPromiseCreatedEvent" then
        is_some (Json.unmarshal record : option events.PaymentPromiseCreatedEvent.t)
      else if String.eqb eventType "MemberBillCreatedEvent" then
        is_some (Json.unmarshal record : option events.MemberBillCreatedEvent.t)
      else if String.eqb eventType "PaymentCompletedEvent" then
        is_some (Json.unmarshal record : option events.PaymentCompletedEvent.t)
      else false
  | None => false
  end.




(** All string fields valid UTF-8 and the integer one a Go [int]: what a
    value of each event type is once it has been through a JSON decode. *)
Definition fval_ok (x : Json.fval) : bool :=
  match x with
  | Json.VString s => Utf8.validString s
  | Json.VInt z => Json.is_int z
  end.

Definition wire_safe {T} `{Json.JsonStruct T} (x : T) : bool :=
  forallb (fun f => fval_ok (Json.fget f x)) Json.fields.

(* ================================================================== *)
(** * Sample inputs *)
(* ================================================================== *)

Module Sample.
Import Json.

(** An environment in which every outside call succeeds, the clock reads
    2024-01-01T00:00:00Z and the local zone is UTC. *)
Definition env : Env := {|
  uuid_at := fun n => "id-" ++ time.digits (Z.of_nat n);
  exec_ok := fun _ => true;
  put_ok := fun _ => true;
  write_ok := fun _ => true;
  now_at := fun _ => 1704067200;
  zone_offset := fun _ => 0;
  load_config := true;
  sql_open := true;
  ws_dial := true;
  describe_stream := Some ["shardId-000000000000"];
  shard_iterator := Some (Some "it-0");
  get_records := fun _ => Some {| Records := []; NextShardIterator := None |}
|}.

Definition start : World := fresh_world Db.empty.

(** [{}] *)
Definition empty_object : payload := Doc (Obj []).

(** [{"event_type": 5}] *)
Definition numeric_discriminator : payload :=
  Doc (Obj [("event_type", Num (Int 5))]).

(** [{"event_type":"PurchaseCompletedEvent","order_id":"o1","user_id":"u1","amount":3500}] *)
Definition purchase : payload :=
  Doc (Obj [("event_type", Str "PurchaseCompletedEvent"); ("order_id", Str "o1");
            ("user_id", Str "u1"); ("amount", Num (Int 3500))]).

(** [{"event_type":"PaymentCompletedEvent","bill_id":"b1","user_id":"u1","amount":3500,"paid_date":"2024-02-01"}] *)
Definition payment : payload :=
  Doc (Obj [("event_type", Str "PaymentCompletedEvent"); ("bill_id", Str "b1");
            ("user_id", Str "u1"); ("amount", Num (Int 3500));
            ("paid_date", Str "2024-02-01")]).

(** [{"event_type":"PaymentPromiseCreatedEvent","promise_id":"p1","order_id":"o1",
      "user_id":"u1","due_date":"2024-01-31","payment_mode":"monthly"}] *)
Definition promise : payload :=
  Doc (Obj [("event_type", Str "PaymentPromiseCreatedEvent"); ("promise_id", Str "p1");
            ("order_id", Str "o1"); ("user_id", Str "u1");
            ("due_date", Str "2024-01-31"); ("payment_mode", Str "monthly")]).

(** [{"event_type":"MemberBillCreatedEvent","bill_id":"b1","promise_id":"p1",
      "user_id":"u1","amount":3500,"issued_date":"2024-01-15"}] *)
Definition bill : payload :=
  Doc (Obj [("event_type", Str "MemberBillCreatedEvent"); ("bill_id", Str "b1");
            ("promise_id", Str "p1"); ("user_id", Str "u1");
            ("amount", Num (Int 3500)); ("issued_date", Str "2024-01-15")]).

(** The body [{"user_id":"u1","product_id":"sku-1","product_name":"tea","amount":3500}] *)
Definition purchase_body : payload :=
  Doc (Obj [("user_id", Str "u1"); ("product_id", Str "sku-1");
            ("product_name", Str "tea"); ("amount", Num (Int 3500))]).

Definition purchase_cmd : commands.PurchaseCommand.t :=
  commands.PurchaseCommand.mk "u1" "sku-1" "tea" 3500.

Definition purchase_event : events.PurchaseCompletedEvent.t :=
  events.PurchaseCompletedEvent.mk "PurchaseCompletedEvent" "o1" "u1" 3500.

Definition promise_event : events.PaymentPromiseCreatedEvent.t :=
  events.PaymentPromiseCreatedEvent.mk
    "PaymentPromiseCreatedEvent" "p1" "o1" "u1" "2024-01-31" "monthly".

Definition bill_event : events.MemberBillCreatedEvent.t :=
  events.MemberBillCreatedEvent.mk
    "MemberBillCreatedEvent" "b1" "p1" "u1" 3500 "2024-01-15".

Definition payment_event : events.PaymentCompletedEvent.t :=
  events.PaymentCompletedEvent.mk "PaymentCompletedEvent" "b1" "u1" 3500 "2024-02-01".

(** A purchase event whose order id is the single byte [FF]. *)
Definition purchase_bad_utf8 : events.PurchaseCompletedEvent.t :=
  events.PurchaseCompletedEvent.mk
    "PurchaseCompletedEvent" (String (ascii_of_N 255) "") "u1" 3500.

(** A database that holds the unpaid bill [b1]. *)
Definition unpaid_bill : Db.BillRow :=
  {| Db.mb_id := "b1"; Db.mb_promise_id := "p1"; Db.mb_user_id := "u1";
     Db.mb_amount := 3500; Db.mb_status := "unpaid";
     Db.mb_issued_date := "2024-01-15"; Db.mb_paid_date := None |}.

Definition with_bill : World :=
  fresh_world {| Db.events := []; Db.payment_promises := [];
                 Db.member_bills := [unpaid_bill] |}.

(** The environment [env] in front of another stream. *)
Definition with_stream (shards : option (list string))
           (iterator : option (option string))
           (batches : nat -> option RecordsOutput) : Env := {|
  uuid_at := uuid_at env; exec_ok := exec_ok env; put_ok := put_ok env;
  write_ok := write_ok env; now_at := now_at env; zone_offset := zone_offset env;
  load_config := true; sql_open := true; ws_dial := true;
  describe_stream := shards;
  shard_iterator := iterator;
  get_records := batches
|}.

(** A stream whose first batch holds [{}] followed by a purchase. *)
Definition poisoned_env : Env :=
  with_stream (Some ["shardId-000000000000"]) (Some (Some "it-0"))
    (fun _ => Some {| Records := [empty_object; purchase];
                      NextShardIterator := Some "it-1" |}).

(** A stream that delivers one purchase, then one empty batch without a
    next iterator. *)
Definition closing_env : Env :=
  with_stream (Some ["shardId-000000000000"]) (Some (Some "it-0"))
    (fun n =>
       match n with
       | O => Some {| Records := [purchase]; NextShardIterator := Some "it-1" |}
       | _ => Some {| Records := []; NextShardIterator := None |}
       end).

(** A stream whose second poll fails. *)
Definition failing_env : Env :=
  with_stream (Some ["shardId-000000000000"]) (Some (Some "it-0"))
    (fun n =>
       match n with
       | O => Some {| Records := [purchase]; NextShardIterator := Some "it-1" |}
       | _ => None
       end).

(** Streams that cannot be opened: discovery fails, no shard, no
    iterator. *)
Definition undiscovered_env : Env := with_stream None None (fun _ => None).
Definition shardless_env : Env := with_stream (Some []) None (fun _ => None).
Definition iteratorless_env : Env :=
  with_stream (Some ["shardId-000000000000"]) None (fun _ => None).

End Sample.

(** A bill row once paid on a given date. *)
Definition paidRow (paid_date : string) (b : Db.BillRow) : Db.BillRow :=
  {| Db.mb_id := Db.mb_id b;
     Db.mb_promise_id := Db.mb_promise_id b;
     Db.mb_user_id := Db.mb_user_id b;
     Db.mb_amount := Db.mb_amount b;
     Db.mb_status := "paid";
     Db.mb_issued_date := Db.mb_issued_date b;
     Db.mb_paid_date := Some paid_date |}.

(* ================================================================== *)
(** * Further observations and inputs *)
(* ================================================================== *)

(** The iterators handed to [GetRecords] and the pauses taken, in order. *)
Definition polled (e : effect) : option (option string) :=
  match e with EGetRecords it => Some it | _ => None end.

Definition slept (e : effect) : option Z :=
  match e with ESleep d => Some d | _ => None end.

(** Where a record was put: stream and partition key. *)
Definition destination (e : effect) : option (string * string) :=
  match e with EPutRecord _ stream key _ => Some (stream, key) | _ => None end.

(** The iterator the [n]-th poll answers with. *)
Definition next_at (env : Env) (n : nat) : option string :=
  match get_records env n with
  | Some out => NextShardIterator out
  | None => None
  end.

(** The iterators of [k] polls in a row that start at poll [n] with [it]:
    each poll is made with what the one before returned. *)
Fixpoint cursors (env : Env) (n : nat) (it : option string) (k : nat)
  : list (option string) :=
  match k with
  | O => []
  | S k' => it :: cursors env (S n) (next_at env n) k'
  end.

(** What a batch leaves in the event log when every append succeeds: the
    discriminator and payload of each record that has one, in order, up to
    the first record on which [processEvent] panics. *)
Fixpoint logged (records : list Json.payload) : list (string * Json.payload) :=
  match records with
  | [] => []
  | r :: rest =>
      if lacks_discriminator r then []
      else match discriminator r with
           | Some eventType => (eventType, r) :: logged rest
           | None => logged rest
           end
  end.

Definition log_entry (row : Db.EventRow) : string * Json.payload :=
  (Db.ev_event_type row, Db.ev_event_data row).

(** A bill row and what it may have become: the identifying columns and
    the amount are the same, and either nothing changed or the row is now
    paid with a paid date. *)
Definition bill_kept (before after : Db.BillRow) : Prop :=
  Db.mb_id after = Db.mb_id before /\
  Db.mb_promise_id after = Db.mb_promise_id before /\
  Db.mb_user_id after = Db.mb_user_id before /\
  Db.mb_amount after = Db.mb_amount before /\
  Db.mb_issued_date after = Db.mb_issued_date before /\
  (after = before \/
   (Db.mb_status after = "paid" /\ exists d, Db.mb_paid_date after = Some d)).

(** One database state and a later one: event log and promises have only
    grown at their end; the bills that were there are still there, in
    place and kept, with new bills after them. *)
Definition db_grows (before after : Db.Database) : Prop :=
  (exists new_events, Db.events after = (Db.events before ++ new_events)%list) /\
  (exists new_promises,
      Db.payment_promises after = (Db.payment_promises before ++ new_promises)%list) /\
  (exists old_bills new_bills,
      Db.member_bills after = (old_bills ++ new_bills)%list /\
      Forall2 bill_kept (Db.member_bills before) old_bills).

(** The statements the consumer issues: an update always sets [paid]. *)
Definition sets_paid (s : Db.stmt) : Prop :=
  match s with
  | Db.UpdateBill status _ _ => status = "paid"
  | _ => True
  end.

(** The promise event the purchase branch builds from a decoded purchase,
    given which draw of the generator and which reading of the clock it
    gets. *)
Definition promised (env : Env) (draw reading : nat)
           (purchaseEvent : events.PurchaseCompletedEvent.t)
  : events.PaymentPromiseCreatedEvent.t :=
  let due := time.Add (now_at env reading) (30 * 24 * time.Hour) in
  {| events.PaymentPromiseCreatedEvent.EventType := "PaymentPromiseCreatedEvent";
     events.PaymentPromiseCreatedEvent.PromiseID := uuid_at env draw;
     events.PaymentPromiseCreatedEvent.OrderID :=
       events.PurchaseCompletedEvent.OrderID purchaseEvent;
     events.PaymentPromiseCreatedEvent.UserID :=
       events.PurchaseCompletedEvent.UserID purchaseEvent;
     events.PaymentPromiseCreatedEvent.DueDate := time.Format_date (zone_offset env due) due;
     events.PaymentPromiseCreatedEvent.PaymentMode := "月まとめ払い" |}.

(** The day (since 1970-01-01) that an instant falls on at a given offset
    from UTC. *)
Definition local_day (offset t : Z) : Z := (t + offset) / 86400.

(** Strings of 7-bit characters. *)
Fixpoint ascii_only (s : string) : bool :=
  match s with
  | EmptyString => true
  | String c r => (Utf8.byte_of c <? 128)%N && ascii_only r
  end.

(** A struct value after a trip over the wire: each string field coerced
    to valid UTF-8. *)
Definition sanitize_field (x : Json.fval) : Json.fval :=
  match x with
  | Json.VString s => Json.VString (Utf8.toValidUTF8 s)
  | Json.VInt z => Json.VInt z
  end.

Definition sanitize {T} `{Json.JsonStruct T} (x : T) : T :=
  fold_left (fun acc f => Json.fset f (sanitize_field (Json.fget f x)) acc) Json.fields x.

(** Every integer field in the range of Go's [int]. *)
Definition ints_ok {T} `{Json.JsonStruct T} (x : T) : bool :=
  forallb (fun f => match Json.fget f x with
                    | Json.VInt z => Json.is_int z
                    | Json.VString _ => true
                    end) Json.fields.

Module Scenario.
Import Json.

(** The body [{"promise_id":"p1","user_id":"u1","amount":3500}] *)
Definition bill_body : payload :=
  Doc (Obj [("promise_id", Str "p1"); ("user_id", Str "u1"); ("amount", Num (Int 3500))]).

Definition bill_cmd : commands.CreateMemberBillCommand.t :=
  commands.CreateMemberBillCommand.mk "p1" "u1" 3500.

(** The body [{"bill_id":"b1","user_id":"u1","amount":3500}] *)
Definition webhook_body : payload :=
  Doc (Obj [("bill_id", Str "b1"); ("user_id", Str "u1"); ("amount", Num (Int 3500))]).

Definition webhook_payload : server.webhookPayload.t :=
  server.webhookPayload.mk "b1" "u1" 3500.

(** Text that is not JSON. *)
Definition garbage : payload := Malformed "not json".

(** The body [{}xyz]: an empty object followed by text that is no JSON. *)
Definition trailing_body : payload := Followed (Obj []) "xyz".

(** [{"event_type":"SomethingElse"}] *)
Definition unknown_type : payload := Doc (Obj [("event_type", Str "SomethingElse")]).

(** A database in which user [u1] has the unpaid bill [b1] and user [u2]
    the paid bill [b2]. *)
Definition paid_bill : Db.BillRow :=
  {| Db.mb_id := "b2"; Db.mb_promise_id := "p2"; Db.mb_user_id := "u2";
     Db.mb_amount := 1200; Db.mb_status := "paid";
     Db.mb_issued_date := "2024-01-10"; Db.mb_paid_date := Some "2024-01-20" |}.

Definition two_users : Db.Database :=
  {| Db.events := []; Db.payment_promises := [];
     Db.member_bills := [Sample.unpaid_bill; paid_bill] |}.

(** A payment for bill [b1] on the same date as [Sample.payment], by
    another user and for another amount. *)
Definition payment_by_other : payload :=
  Doc (Obj [("event_type", Str "PaymentCompletedEvent"); ("bill_id", Str "b1");
            ("user_id", Str "someone-else"); ("amount", Num (Int 1));
            ("paid_date", Str "2024-02-01")]).

Definition payment_by_other_event : events.PaymentCompletedEvent.t :=
  events.PaymentCompletedEvent.mk "PaymentCompletedEvent" "b1" "someone-else" 1 "2024-02-01".

(** [{"event_type":"MemberBillCreatedEvent","bill_id":"b3","promise_id":"p3",
      "user_id":"u2","amount":800,"issued_date":"2024-01-15"}] *)
Definition second_bill : payload :=
  Doc (Obj [("event_type", Str "MemberBillCreatedEvent"); ("bill_id", Str "b3");
            ("promise_id", Str "p3"); ("user_id", Str "u2");
            ("amount", Num (Int 800)); ("issued_date", Str "2024-01-15")]).

Definition second_bill_event : events.MemberBillCreatedEvent.t :=
  events.MemberBillCreatedEvent.mk
    "MemberBillCreatedEvent" "b3" "p3" "u2" 800 "2024-01-15".

(** A stream whose only poll returns a purchase followed by [{}] and no
    next iterator. *)
Definition poisoned_last_env : Env :=
  Sample.with_stream (Some ["shardId-000000000000"]) (Some (Some "it-0"))
    (fun _ => Some {| Records := [Sample.purchase; Sample.empty_object];
                      NextShardIterator := None |}).

(** A driver that reads every stored date as the start of 2024-01-15. *)
Definition column_time (v : string) : option Z := Some 1705276800.

End Scenario.

(** What the status page shows of a bill row, given the instant the
    driver reads off its issue date. *)
Definition bill_shown (r : Db.BillRow) (v : server.BillView) : Prop :=
  server.bill_billId v = Db.mb_id r /\
  server.bill_amount v = Db.mb_amount r /\
  server.bill_status v = Db.mb_status r /\
  (server.bill_paidDate v = None <-> Db.mb_paid_date r = None).

Definition promise_shown (r : Db.PromiseRow) (v : server.PromiseView) : Prop :=
  server.promise_orderId v = Db.pp_order_id r /\
  server.promise_amount v = Db.pp_amount r /\
  server.promise_paymentMode v = Db.pp_payment_mode r.

(** The rows of one user, in table order. *)
Definition bills_of (userId : string) (d : Db.Database) : list Db.BillRow :=
  filter (fun r => String.eqb (Db.mb_user_id r) userId) (Db.member_bills d).

Definition promises_of (userId : string) (d : Db.Database) : list Db.PromiseRow :=
  filter (fun r => String.eqb (Db.pp_user_id r) userId) (Db.payment_promises d).

(** An order that returns each of [n] selected rows exactly once: it has
    [n] entries and names every position below [n]. *)
Definition returns_all (order : list nat) (n : nat) : bool :=
  Nat.eqb (length order) n &&
  forallb (fun i => existsb (Nat.eqb i) order) (seq 0 n).

(** A bill on the status page after a payment for bill [id] on [date]. *)
Definition pay_view (id date : string) (v : server.BillView) : server.BillView :=
  if String.eqb (server.bill_billId v) id then
    {| server.bill_billId := server.bill_billId v;
       server.bill_amount := server.bill_amount v;
       server.bill_status := "paid";
       server.bill_issuedDate := server.bill_issuedDate v;
       server.bill_paidDate := Some date |}
  else v.

(* ================================================================== *)
(** * The calendar *)
(* ================================================================== *)

Section Calendar.
Import time.

Ltac lia_div := Z.div_mod_to_equations; lia.

(** Decide the comparisons between numerals that stand in the goal. *)
Ltac decide_test t :=
  let v := eval vm_compute in t in
  match v with
  | true => change t with true
  | false => change t with false
  end; cbv iota.

Ltac decide_tests :=
  repeat match goal with
         | |- context [Z.ltb ?a ?b] => decide_test (Z.ltb a b)
         | |- context [Z.leb ?a ?b] => decide_test (Z.leb a b)
         | |- context [Z.eqb ?a ?b] => decide_test (Z.eqb a b)
         end.

Lemma year_of_era_day doe :
  0 <= doe < 146097 ->
  let yoe := (doe - doe / 1460 + doe / 36524 - doe / 146096) / 365 in
  0 <= yoe <= 399 /\
  365 * yoe + yoe / 4 - yoe / 100 <= doe /\
  doe < 365 * (yoe + 1) + (yoe + 1) / 4 - (yoe + 1) / 100 + (yoe + 1) / 400.
Proof. intros H yoe. subst yoe. lia_div. Qed.

(** A year is leap exactly when the count of leap years steps over it. *)
Lemma is_leap_step y :
  leap_years_before (y + 1) - leap_years_before y = if is_leap y then 1 else 0.
Proof.
  unfold leap_years_before, is_leap.
  replace (y + 1 - 1) with y by lia.
  destruct (y mod 4 =? 0) eqn:E4; destruct (y mod 100 =? 0) eqn:E100;
    destruct (y mod 400 =? 0) eqn:E400; cbn [andb orb negb];
    rewrite ?Z.eqb_eq, ?Z.eqb_neq in *; lia_div.
Qed.

Lemma days_before_month_cases y m :
  1 <= m <= 12 ->
  days_before_month y m =
    (if m =? 1 then 0 else if m =? 2 then 31 else
     (if is_leap y then 1 else 0) +
     (if m =? 3 then 59 else if m =? 4 then 90 else if m =? 5 then 120
      else if m =? 6 then 151 else if m =? 7 then 181 else if m =? 8 then 212
      else if m =? 9 then 243 else if m =? 10 then 273 else if m =? 11 then 304
      else 334)).
Proof.
  intros H.
  assert (m = 1 \/ m = 2 \/ m = 3 \/ m = 4 \/ m = 5 \/ m = 6 \/ m = 7 \/ m = 8 \/
          m = 9 \/ m = 10 \/ m = 11 \/ m = 12) as C by lia.
  unfold days_before_month.
  repeat destruct C as [C|C]; subst m; cbv -[is_leap]; destruct (is_leap y); reflexivity.
Qed.

Lemma civil_of_era_day_correct doe :
  0 <= doe < 146097 ->
  let '(y, m, d) := civil_of_era_day doe in
  1 <= m <= 12 /\ 1 <= d <= days_in_month y m /\ days_of_civil y m d = doe - 719468.
Proof.
  intros H. unfold civil_of_era_day, civil_of_days. cbv zeta.
  replace (doe - 719468 + 719468) with doe by lia.
  rewrite (Z.div_small doe 146097) by lia.
  replace (doe - 0 * 146097) with doe by lia.
  destruct (year_of_era_day doe H) as (Hy & Hlo & Hhi).
  set (yoe := (doe - doe / 1460 + doe / 36524 - doe / 146096) / 365) in *.
  set (doy := doe - (365 * yoe + yoe / 4 - yoe / 100)).
  assert (Hdoy : 0 <= doy <= 365) by (subst doy; lia_div).
  set (mp := (5 * doy + 2) / 153).
  assert (Hmp : 0 <= mp <= 11) by (subst mp; lia_div).
  assert (Hmpd : 153 * mp <= 5 * doy + 2 < 153 * (mp + 1)) by (subst mp; lia_div).
  clearbody mp.
  assert (Edoy : doe = doy + (365 * yoe + yoe / 4 - yoe / 100)) by (subst doy; lia).
  clearbody doy. clearbody yoe.
  replace (yoe + 0 * 400) with yoe by lia.
  pose proof (is_leap_step yoe) as Hl0.
  pose proof (is_leap_step (yoe + 1)) as Hl1.
  unfold leap_years_before in Hl0, Hl1.
  replace (yoe + 1 + 1 - 1) with (yoe + 1) in Hl1 by lia.
  replace (yoe + 1 - 1) with yoe in Hl0, Hl1 by lia.
  unfold days_of_civil, days_before_year, leap_years_before.
  change ((1970 - 1) / 4 - (1970 - 1) / 100 + (1970 - 1) / 400) with 477.
  assert (mp = 0 \/ mp = 1 \/ mp = 2 \/ mp = 3 \/ mp = 4 \/ mp = 5 \/ mp = 6 \/
          mp = 7 \/ mp = 8 \/ mp = 9 \/ mp = 10 \/ mp = 11) as C by lia.
  repeat destruct C as [C|C]; subst mp;
    decide_tests;
    rewrite ?Z.add_0_r.
  all: try rewrite days_before_month_cases by lia.
  all: unfold days_in_month; decide_tests; cbn [orb andb].
  all: replace (yoe + 1 - 1) with yoe by lia.
  all: destruct (is_leap yoe); destruct (is_leap (yoe + 1)).
  all: lia_div.
Qed.

Lemma is_leap_shift y e : is_leap (y + 400 * e) = is_leap y.
Proof.
  unfold is_leap.
  replace (y + 400 * e) with (y + (100 * e) * 4) at 1 by lia.
  replace (y + 400 * e) with (y + (4 * e) * 100) at 1 by lia.
  replace (y + 400 * e) with (y + e * 400) by lia.
  now rewrite !Z.mod_add by lia.
Qed.

Lemma days_in_month_shift y m e : days_in_month (y + 400 * e) m = days_in_month y m.
Proof. unfold days_in_month. now rewrite is_leap_shift. Qed.

Lemma days_of_months_shift y e count : forall m,
  days_of_months (y + 400 * e) count m = days_of_months y count m.
Proof.
  induction count as [|count IH]; intros m; [reflexivity|].
  cbn [days_of_months]. now rewrite days_in_month_shift, IH.
Qed.

Lemma leap_years_before_shift y e :
  leap_years_before (y + 400 * e) = leap_years_before y + 97 * e.
Proof.
  unfold leap_years_before.
  replace (y + 400 * e - 1) with (y - 1 + (100 * e) * 4) at 1 by lia.
  replace (y + 400 * e - 1) with (y - 1 + (4 * e) * 100) at 1 by lia.
  replace (y + 400 * e - 1) with (y - 1 + e * 400) by lia.
  rewrite !Z.div_add by lia. lia.
Qed.

Lemma days_of_civil_shift y m d e :
  days_of_civil (y + 400 * e) m d = days_of_civil y m d + 146097 * e.
Proof.
  unfold days_of_civil, days_before_year, days_before_month.
  rewrite leap_years_before_shift, days_of_months_shift. lia.
Qed.

Lemma civil_of_days_era n :
  civil_of_days n =
    let '(y0, m, d) := civil_of_era_day ((n + 719468) mod 146097) in
    (y0 + 400 * ((n + 719468) / 146097), m, d).
Proof.
  unfold civil_of_era_day, civil_of_days. cbv zeta.
  pose proof (Z.mod_pos_bound (n + 719468) 146097 ltac:(lia)) as Hb.
  replace (n + 719468 - (n + 719468) / 146097 * 146097) with ((n + 719468) mod 146097)
    by (rewrite Z.mod_eq by lia; lia).
  set (doe := (n + 719468) mod 146097) in *.
  replace (doe - 719468 + 719468) with doe by lia.
  rewrite (Z.div_small doe 146097) by lia.
  replace (doe - 0 * 146097) with doe by lia.
  set (yoe := (doe - doe / 1460 + doe / 36524 - doe / 146096) / 365).
  set (doy := doe - (365 * yoe + yoe / 4 - yoe / 100)).
  set (mp := (5 * doy + 2) / 153).
  f_equal. f_equal. lia.
Qed.

Lemma civil_of_days_correct n :
  let '(y, m, d) := civil_of_days n in
  1 <= m <= 12 /\ 1 <= d <= days_in_month y m /\ days_of_civil y m d = n.
Proof.
  rewrite civil_of_days_era.
  pose proof (Z.mod_pos_bound (n + 719468) 146097 ltac:(lia)) as Hb.
  pose proof (civil_of_era_day_correct ((n + 719468) mod 146097) Hb) as Hok.
  destruct (civil_of_era_day ((n + 719468) mod 146097)) as [[y0 m] d].
  destruct Hok as (Hm & Hd & Hn).
  rewrite days_in_month_shift, days_of_civil_shift.
  pose proof (Z.div_mod (n + 719468) 146097 ltac:(lia)).
  lia.
Qed.

(** ** The shape of a formatted date *)

Lemma all_from_spec f count : forall start,
  all_from f count start = true ->
  forall z, start <= z < start + Z.of_nat count -> f z = true.
Proof.
  induction count as [|count IH]; intros start H z Hz; [lia|].
  cbn [all_from] in H. apply andb_true_iff in H as [Hs Hr].
  destruct (Z.eq_dec z start) as [->|Hne]; [exact Hs|].
  apply (IH (start + 1) Hr). lia.
Qed.

Lemma length_app (a b : string) :
  String.length (a ++ b)%string = (String.length a + String.length b)%nat.
Proof. induction a as [|c a IH]; cbn; [reflexivity|now rewrite IH]. Qed.

Lemma appendInt_4 y : 0 <= y <= 9999 -> String.length (appendInt y 4) = 4%nat.
Proof.
  intros H.
  assert (C : all_from (fun y => Nat.eqb (String.length (appendInt y 4)) 4)
                       (Z.to_nat 10000) 0 = true) by (vm_compute; reflexivity).
  apply Nat.eqb_eq. apply (all_from_spec _ _ _ C). lia.
Qed.

Lemma appendInt_2 x : 0 <= x <= 99 -> String.length (appendInt x 2) = 2%nat.
Proof.
  intros H.
  assert (C : all_from (fun x => Nat.eqb (String.length (appendInt x 2)) 2)
                       (Z.to_nat 100) 0 = true) by (vm_compute; reflexivity).
  apply Nat.eqb_eq. apply (all_from_spec _ _ _ C). lia.
Qed.

Lemma days_in_month_le y m : days_in_month y m <= 31.
Proof.
  unfold days_in_month.
  repeat match goal with |- context [if ?b then _ else _] => destruct b end; lia.
Qed.

(** For an instant whose local date falls in the years 0 .. 9999, the
    formatted date is the date of the calendar above, ten characters long,
    with a dash after the year and after the month. *)
Lemma Format_date_iso offset t :
  let '(y, m, d) := civil_of_days ((t + offset) / 86400) in
  0 <= y <= 9999 ->
  Format_date offset t = (appendInt y 4 ++ "-" ++ appendInt m 2 ++ "-" ++ appendInt d 2)%string /\
  days_of_civil y m d = (t + offset) / 86400 /\
  String.length (appendInt y 4) = 4%nat /\
  String.length (appendInt m 2) = 2%nat /\
  String.length (appendInt d 2) = 2%nat /\
  String.length (Format_date offset t) = 10%nat.
Proof.
  unfold Format_date.
  pose proof (civil_of_days_correct ((t + offset) / 86400)) as Hc.
  destruct (civil_of_days ((t + offset) / 86400)) as [[y m] d].
  destruct Hc as (Hm & Hd & Hn). intros Hy.
  pose proof (days_in_month_le y m) as Hle.
  pose proof (appendInt_4 y Hy) as L4.
  pose proof (appendInt_2 m ltac:(lia)) as Lm.
  pose proof (appendInt_2 d ltac:(lia)) as Ld.
  repeat split; try assumption.
  rewrite !length_app, L4, Lm, Ld. reflexivity.
Qed.

End Calendar.

(* ================================================================== *)
(** * How [processEvent] unfolds *)
(* ================================================================== *)

Local Open Scope list_scope.

Lemma collect_app {A B} (f : A -> option B) (l1 l2 : list A) :
  collect f (l1 ++ l2) = collect f l1 ++ collect f l2.
Proof.
  induction l1 as [|x l1 IH]; simpl; [reflexivity|].
  destruct (f x); simpl; now rewrite IH.
Qed.

(** Unfold the helpers of the consumer down to the primitive calls. *)
Ltac go_unfold :=
  unfold consumer.onPurchaseCompleted, consumer.onPaymentPromiseCreated,
    consumer.onMemberBillCreated, consumer.onPaymentCompleted,
    consumer.saveEventToDB, consumer.savePromiseToDB, consumer.saveMemberBillToDB,
    consumer.updateMemberBillStatus, producer.EmitEvent,
    bind, uuid_New, db_Exec, time_Now, kinesis_PutRecord, ws_WriteMessage,
    log_Printf, ret, panic.

Ltac go_simpl :=
  cbn [db trace uuids execs puts writes polls nows emit world_of returns].

(** Run the unfolded program, splitting on each answer of the environment
    as it is asked for. *)
Ltac go_run :=
  go_unfold;
  repeat (go_simpl;
          match goal with
          | H : ?b = _ |- context [if ?b then _ else _] => rewrite H
          | |- context [if ?b then _ else _] => destruct b eqn:?
          end);
  go_simpl.

(** Bring the trace of the final world to the form [trace w ++ delta]. *)
Ltac go_trace := rewrite <- ?app_assoc; cbn [app]; reflexivity.

Section ProcessEvent.
Variable env : Env.
Local Open Scope go_scope.

Lemma discriminator_inv record eventType :
  discriminator record = Some eventType ->
  exists m, Json.unmarshal_map record = Some m /\
            Json.map_index m "event_type" = Some (Json.Str eventType).
Proof.
  unfold discriminator.
  destruct (Json.unmarshal_map record) as [m|]; [|discriminate].
  destruct (Json.map_index m "event_type") as [[| | |s| |]|] eqn:Hi; try discriminate.
  intros [= <-]. now exists m.
Qed.

Lemma discriminator_none record :
  discriminator record = None ->
  Json.unmarshal_map record = None \/ lacks_discriminator record = true.
Proof.
  unfold discriminator, lacks_discriminator.
  destruct (Json.unmarshal_map record) as [m|]; [|intros _; now left].
  destruct (Json.map_index m "event_type") as [[| | |s| |]|];
    intros H; (discriminate H || now right).
Qed.

(** A payload that the generic decode rejects: two log lines, nothing
    else. *)
Lemma processEvent_undecodable record w :
  Json.unmarshal_map record = None ->
  consumer.processEvent env record w =
    Done tt (emit (ELog "Failed to unmarshal generic event: %v")
                  (emit (ELog "Received event: %s\n") w)).
Proof.
  intros H. unfold consumer.processEvent, bind, log_Printf. now rewrite H.
Qed.

(** A decoded payload without a string discriminator: the type assertion
    panics right after the first log line. *)
Lemma processEvent_panics record w :
  lacks_discriminator record = true ->
  consumer.processEvent env record w =
    Panic "interface conversion: interface {} is not string"
          (emit (ELog "Received event: %s\n") w).
Proof.
  unfold lacks_discriminator, consumer.processEvent, bind, log_Printf, panic.
  destruct (Json.unmarshal_map record) as [m|]; [|discriminate].
  destruct (Json.map_index m "event_type") as [[| | |s| |]|];
    intros H; (discriminate H || reflexivity).
Qed.

(** A decoded payload with a string discriminator: the log append, then
    the [switch]. *)
Lemma processEvent_decoded record eventType w :
  discriminator record = Some eventType ->
  consumer.processEvent env record w =
    (consumer.saveEventToDB env record eventType ;;
     if String.eqb eventType "PurchaseCompletedEvent" then
       consumer.onPurchaseCompleted env record
     else if String.eqb eventType "PaymentPromiseCreatedEvent" then
       consumer.onPaymentPromiseCreated env record
     else if String.eqb eventType "MemberBillCreatedEvent" then
       consumer.onMemberBillCreated env record
     else if String.eqb eventType "PaymentCompletedEvent" then
       consumer.onPaymentCompleted env record
     else ret tt)
    (emit (ELog "Received event: %s\n") w).
Proof.
  intros H. destruct (discriminator_inv _ _ H) as (m & Hm & Hi).
  unfold consumer.processEvent. unfold bind at 1. unfold log_Printf at 1.
  now rewrite Hm, Hi.
Qed.

End ProcessEvent.

(* ================================================================== *)
(** * The choreography, branch by branch *)
(* ================================================================== *)

Import events.

(** C2.  A record that carries the discriminator [PurchaseCompletedEvent]
    and decodes into the struct makes [processEvent] hand exactly one
    event to [EmitEvent]: a [PaymentPromiseCreatedEvent] with the order
    and user of the purchase, a promise id drawn from the generator in
    this call (the draw after the one of the log append; two draws are
    consumed), the due date [Format("2006-01-02")] of [time.Now()] plus
    [30 * 24 * time.Hour], and the fixed payment mode.  No statement
    against a projection table is issued, both tables are unchanged, and
    nothing is written to the websocket. *)
Theorem purchase_emits_one_promise env record w (purchaseEvent : PurchaseCompletedEvent.t) :
  discriminator record = Some "PurchaseCompletedEvent" ->
  Json.unmarshal record = Some purchaseEvent ->
  exists w' delta,
    consumer.processEvent env record w = Done tt w' /\
    trace w' = trace w ++ delta /\
    emissions delta =
      [Json.marshal
         {| PaymentPromiseCreatedEvent.EventType := "PaymentPromiseCreatedEvent";
            PaymentPromiseCreatedEvent.PromiseID := uuid_at env (S (uuids w));
            PaymentPromiseCreatedEvent.OrderID := PurchaseCompletedEvent.OrderID purchaseEvent;
            PaymentPromiseCreatedEvent.UserID := PurchaseCompletedEvent.UserID purchaseEvent;
            PaymentPromiseCreatedEvent.DueDate :=
              time.Format_date
                (zone_offset env (now_at env (nows w) + 30 * 24 * 3600))
                (now_at env (nows w) + 30 * 24 * 3600);
            PaymentPromiseCreatedEvent.PaymentMode := "月まとめ払い" |}] /\
    uuids w' = (2 + uuids w)%nat /\
    filter is_projection_write (statements delta) = [] /\
    signals delta = [] /\
    Db.payment_promises (db w') = Db.payment_promises (db w) /\
    Db.member_bills (db w') = Db.member_bills (db w).
Proof.
  intros Hd Hu.
  rewrite (processEvent_decoded env _ _ w Hd).
  cbn [String.eqb Ascii.eqb Bool.eqb].
  unfold consumer.onPurchaseCompleted. rewrite Hu.
  go_run; (do 2 eexists; split; [reflexivity|]); go_simpl;
    (split; [go_trace|]); repeat split.
Qed.

Lemma purchase_emits_one_promise_witness :
  exists w' delta,
    consumer.processEvent Sample.env Sample.purchase Sample.start = Done tt w' /\
    trace w' = trace Sample.start ++ delta /\
    emissions delta =
      [Json.marshal
         (PaymentPromiseCreatedEvent.mk
            "PaymentPromiseCreatedEvent" "id-1" "o1" "u1" "2024-01-31" "月まとめ払い")].
Proof.
  destruct (purchase_emits_one_promise Sample.env Sample.purchase Sample.start
              Sample.purchase_event eq_refl eq_refl)
    as (w' & delta & Hrun & Htrace & Hemit & _).
  exists w', delta. repeat split; assumption.
Defined.


(** C5.  A record that carries the discriminator
    [PaymentPromiseCreatedEvent] and decodes into the struct makes
    [processEvent] issue exactly one statement against the projection
    tables: the insert of a promise row with the promise, order and user
    identifiers, due date and payment mode of the event and the literal
    amount 3500 (the struct has no amount field).  When the database
    accepts it, [payment_promises] grows by exactly that row.  Nothing is
    emitted and no bill is touched. *)
Theorem promise_projection_inserted env record w (promiseEvent : PaymentPromiseCreatedEvent.t) :
  discriminator record = Some "PaymentPromiseCreatedEvent" ->
  Json.unmarshal record = Some promiseEvent ->
  exec_ok env (S (execs w)) = true ->
  exists w' delta,
    consumer.processEvent env record w = Done tt w' /\
    trace w' = trace w ++ delta /\
    filter is_projection_write (statements delta) =
      [Db.InsertPromise (PaymentPromiseCreatedEvent.PromiseID promiseEvent)
                        (PaymentPromiseCreatedEvent.OrderID promiseEvent)
                        (PaymentPromiseCreatedEvent.UserID promiseEvent)
                        3500
                        (PaymentPromiseCreatedEvent.DueDate promiseEvent)
                        (PaymentPromiseCreatedEvent.PaymentMode promiseEvent)] /\
    Db.payment_promises (db w') =
      Db.payment_promises (db w) ++
      [ {| Db.pp_id := PaymentPromiseCreatedEvent.PromiseID promiseEvent;
           Db.pp_order_id := PaymentPromiseCreatedEvent.OrderID promiseEvent;
           Db.pp_user_id := PaymentPromiseCreatedEvent.UserID promiseEvent;
           Db.pp_amount := 3500;
           Db.pp_due_date := PaymentPromiseCreatedEvent.DueDate promiseEvent;
           Db.pp_payment_mode := PaymentPromiseCreatedEvent.PaymentMode promiseEvent |} ] /\
    Db.member_bills (db w') = Db.member_bills (db w) /\
    emissions delta = [] /\
    signals delta = [].
Proof.
  intros Hd Hu Hok.
  rewrite (processEvent_decoded env _ _ w Hd).
  cbn [String.eqb Ascii.eqb Bool.eqb].
  unfold consumer.onPaymentPromiseCreated. rewrite Hu.
  go_run; (do 2 eexists; split; [reflexivity|]); go_simpl;
    (split; [go_trace|]); repeat split.
Qed.

Lemma promise_projection_inserted_witness :
  exists w',
    consumer.processEvent Sample.env Sample.promise Sample.start = Done tt w' /\
    Db.payment_promises (db w') =
      [ {| Db.pp_id := "p1"; Db.pp_order_id := "o1"; Db.pp_user_id := "u1";
           Db.pp_amount := 3500; Db.pp_due_date := "2024-01-31";
           Db.pp_payment_mode := "monthly" |} ].
Proof.
  destruct (promise_projection_inserted Sample.env Sample.promise Sample.start
              Sample.promise_event eq_refl eq_refl eq_refl)
    as (w' & delta & Hrun & _ & _ & Hrows & _).
  exists w'. split; assumption.
Defined.

(** The scenario of the specification, end to end: a purchase by [u1]
    for order [o1] is processed on 2024-01-01; the one event it emits,
    read back from the stream, inserts the promise row with the generated
    id, that order and user, the due date 2024-01-31, the fixed mode and
    the placeholder amount. *)
Example saga_scenario :
  exists emitted,
    emissions (trace (world_of (consumer.processEvent Sample.env Sample.purchase Sample.start)))
      = [emitted] /\
    Db.payment_promises
      (db (world_of
             (consumer.processEvent Sample.env emitted
                (world_of (consumer.processEvent Sample.env Sample.purchase Sample.start)))))
      = [ {| Db.pp_id := "id-1"; Db.pp_order_id := "o1"; Db.pp_user_id := "u1";
             Db.pp_amount := 3500; Db.pp_due_date := "2024-01-31";
             Db.pp_payment_mode := "月まとめ払い" |} ].
Proof.
  exists (Json.marshal
            (PaymentPromiseCreatedEvent.mk
               "PaymentPromiseCreatedEvent" "id-1" "o1" "u1" "2024-01-31" "月まとめ払い")).
  split; vm_compute; reflexivity.
Qed.

(** C9.  A record that carries the discriminator [MemberBillCreatedEvent]
    and decodes into the struct makes [processEvent] issue exactly one
    statement against the projection tables: the insert of a bill row with
    the bill, promise and user identifiers, amount and issue date of the
    event and the status [unpaid].  The bill identifier is the event's: no
    draw of the generator reaches the row (the only draw is the id of the
    log entry).  When the database accepts the insert, [member_bills] grows
    by exactly that row, whose paid date is NULL. *)
Theorem bill_projection_inserted env record w (billEvent : MemberBillCreatedEvent.t) :
  discriminator record = Some "MemberBillCreatedEvent" ->
  Json.unmarshal record = Some billEvent ->
  exec_ok env (S (execs w)) = true ->
  exists w' delta,
    consumer.processEvent env record w = Done tt w' /\
    trace w' = trace w ++ delta /\
    filter is_projection_write (statements delta) =
      [Db.InsertBill (MemberBillCreatedEvent.BillID billEvent)
                     (MemberBillCreatedEvent.PromiseID billEvent)
                     (MemberBillCreatedEvent.UserID billEvent)
                     (MemberBillCreatedEvent.Amount billEvent)
                     "unpaid"
                     (MemberBillCreatedEvent.IssuedDate billEvent)] /\
    Db.member_bills (db w') =
      Db.member_bills (db w) ++
      [ {| Db.mb_id := MemberBillCreatedEvent.BillID billEvent;
           Db.mb_promise_id := MemberBillCreatedEvent.PromiseID billEvent;
           Db.mb_user_id := MemberBillCreatedEvent.UserID billEvent;
           Db.mb_amount := MemberBillCreatedEvent.Amount billEvent;
           Db.mb_status := "unpaid";
           Db.mb_issued_date := MemberBillCreatedEvent.IssuedDate billEvent;
           Db.mb_paid_date := None |} ] /\
    uuids w' = S (uuids w) /\
    Db.payment_promises (db w') = Db.payment_promises (db w) /\
    emissions delta = [] /\
    signals delta = [].
Proof.
  intros Hd Hu Hok.
  rewrite (processEvent_decoded env _ _ w Hd).
  cbn [String.eqb Ascii.eqb Bool.eqb].
  unfold consumer.onMemberBillCreated. rewrite Hu.
  go_run; (do 2 eexists; split; [reflexivity|]); go_simpl;
    (split; [go_trace|]); repeat split.
Qed.

Lemma bill_projection_inserted_witness :
  exists w',
    consumer.processEvent Sample.env Sample.bill Sample.start = Done tt w' /\
    Db.member_bills (db w') = [Sample.unpaid_bill].
Proof.
  destruct (bill_projection_inserted Sample.env Sample.bill Sample.start
              Sample.bill_event eq_refl eq_refl eq_refl)
    as (w' & delta & Hrun & _ & _ & Hrows & _).
  exists w'. split; assumption.
Defined.

(** A rejected projection insert is logged and skipped: the table stays as
    it was and the record is still processed to the end. *)
Lemma promise_projection_rejected env record w (promiseEvent : PaymentPromiseCreatedEvent.t) :
  discriminator record = Some "PaymentPromiseCreatedEvent" ->
  Json.unmarshal record = Some promiseEvent ->
  exec_ok env (S (execs w)) = false ->
  exists w' delta,
    consumer.processEvent env record w = Done tt w' /\
    trace w' = trace w ++ delta /\
    In (ELog "Failed to save promise to DB: %v") delta /\
    Db.payment_promises (db w') = Db.payment_promises (db w).
Proof.
  intros Hd Hu Hok.
  rewrite (processEvent_decoded env _ _ w Hd).
  cbn [String.eqb Ascii.eqb Bool.eqb].
  unfold consumer.onPaymentPromiseCreated. rewrite Hu.
  go_run; (do 2 eexists; split; [reflexivity|]); go_simpl;
    (split; [go_trace|]); (split; [|reflexivity]); simpl; tauto.
Qed.

(** ** The bill update *)

Lemma set_paid_idempotent status paid id (r : Db.BillRow) :
  Db.set_paid status paid id (Db.set_paid status paid id r) = Db.set_paid status paid id r.
Proof.
  unfold Db.set_paid at 2 3.
  destruct (String.eqb (Db.mb_id r) id) eqn:E.
  - unfold Db.set_paid. cbn [Db.mb_id]. now rewrite E.
  - unfold Db.set_paid. now rewrite E.
Qed.

Lemma set_paid_other status paid id (l : list Db.BillRow) :
  (forall b, In b l -> Db.mb_id b <> id) ->
  map (Db.set_paid status paid id) l = l.
Proof.
  induction l as [|b l IH]; intros H; [reflexivity|].
  cbn [map]. rewrite IH by (intros; apply H; now right).
  unfold Db.set_paid.
  destruct (String.eqb (Db.mb_id b) id) eqn:E; [|reflexivity].
  apply String.eqb_eq in E. exfalso. apply (H b); [now left|exact E].
Qed.

(** What [processEvent] does to the bill table on a decoded payment
    event: the [UPDATE], if the database accepts it. *)
Lemma payment_run env record w (paymentEvent : PaymentCompletedEvent.t) :
  discriminator record = Some "PaymentCompletedEvent" ->
  Json.unmarshal record = Some paymentEvent ->
  exists w',
    consumer.processEvent env record w = Done tt w' /\
    execs w' = S (S (execs w)) /\
    Db.member_bills (db w') =
      if exec_ok env (S (execs w))
      then map (Db.set_paid "paid" (PaymentCompletedEvent.PaidDate paymentEvent)
                            (PaymentCompletedEvent.BillID paymentEvent))
               (Db.member_bills (db w))
      else Db.member_bills (db w).
Proof.
  intros Hd Hu.
  rewrite (processEvent_decoded env _ _ w Hd).
  cbn [String.eqb Ascii.eqb Bool.eqb].
  unfold consumer.onPaymentCompleted. rewrite Hu.
  go_run; (eexists; split; [reflexivity|]); go_simpl; split; reflexivity.
Qed.

(** C3.  For a record that carries the discriminator
    [PaymentCompletedEvent] and decodes into the struct: [processEvent]
    returns, on the first delivery and on a second one.  When the database
    accepts the update of the first delivery, every bill row whose id is
    the event's bill id has afterwards the status [paid] and the event's
    paid date, its other columns as before, and every other row is as
    before; the second delivery (whatever the database answers to it)
    leaves the table exactly as the first left it.  When no row has that id
    the table is unchanged. *)
Theorem payment_marks_bill_paid env record w (paymentEvent : PaymentCompletedEvent.t) :
  discriminator record = Some "PaymentCompletedEvent" ->
  Json.unmarshal record = Some paymentEvent ->
  exists w1 w2,
    consumer.processEvent env record w = Done tt w1 /\
    consumer.processEvent env record w1 = Done tt w2 /\
    (exec_ok env (S (execs w)) = true ->
       Db.member_bills (db w1) =
         map (Db.set_paid "paid" (PaymentCompletedEvent.PaidDate paymentEvent)
                          (PaymentCompletedEvent.BillID paymentEvent))
             (Db.member_bills (db w)) /\
       (forall i b,
           nth_error (Db.member_bills (db w)) i = Some b ->
           Db.mb_id b = PaymentCompletedEvent.BillID paymentEvent ->
           nth_error (Db.member_bills (db w1)) i =
             Some (paidRow (PaymentCompletedEvent.PaidDate paymentEvent) b)) /\
       (forall i b,
           nth_error (Db.member_bills (db w)) i = Some b ->
           Db.mb_id b <> PaymentCompletedEvent.BillID paymentEvent ->
           nth_error (Db.member_bills (db w1)) i = Some b) /\
       Db.member_bills (db w2) = Db.member_bills (db w1)) /\
    ((forall b, In b (Db.member_bills (db w)) ->
                Db.mb_id b <> PaymentCompletedEvent.BillID paymentEvent) ->
     Db.member_bills (db w1) = Db.member_bills (db w)).
Proof.
  intros Hd Hu.
  destruct (payment_run env record w paymentEvent Hd Hu) as (w1 & Hrun1 & Hexecs & Hb1).
  destruct (payment_run env record w1 paymentEvent Hd Hu) as (w2 & Hrun2 & _ & Hb2).
  exists w1, w2. split; [exact Hrun1|]. split; [exact Hrun2|]. split.
  - intros Hok. rewrite Hok in Hb1. split; [exact Hb1|]. split; [|split].
    + intros i b Hi Hid. rewrite Hb1, nth_error_map, Hi. cbn [option_map].
      unfold Db.set_paid, paidRow. apply String.eqb_eq in Hid. now rewrite Hid.
    + intros i b Hi Hid. rewrite Hb1, nth_error_map, Hi. cbn [option_map].
      unfold Db.set_paid. apply String.eqb_neq in Hid. now rewrite Hid.
    + rewrite Hb2. destruct (exec_ok env (S (execs w1))); [|reflexivity].
      rewrite Hb1, map_map. apply map_ext. intros r. apply set_paid_idempotent.
  - intros Hno. rewrite Hb1. destruct (exec_ok env (S (execs w))); [|reflexivity].
    now apply set_paid_other.
Qed.

Lemma payment_marks_bill_paid_witness :
  exists w1 w2,
    consumer.processEvent Sample.env Sample.payment Sample.with_bill = Done tt w1 /\
    consumer.processEvent Sample.env Sample.payment w1 = Done tt w2 /\
    Db.member_bills (db w1) = [paidRow "2024-02-01" Sample.unpaid_bill] /\
    Db.member_bills (db w2) = Db.member_bills (db w1).
Proof.
  destruct (payment_marks_bill_paid Sample.env Sample.payment Sample.with_bill
              Sample.payment_event eq_refl eq_refl)
    as (w1 & w2 & Hrun1 & Hrun2 & Hpaid & _).
  destruct (Hpaid eq_refl) as (Hmap & _ & _ & Hsame).
  exists w1, w2. repeat split; assumption.
Defined.

(** ** The refresh signal *)





(** ** The command intake *)

(** C10.  For a request body that binds to a command, the handler hands
    exactly one event to [EmitEvent], the purchase event of the command,
    whose order id is ["order-"] followed by the command's user id, whose
    user id and amount are the command's; it answers 200, or 500 when the
    put fails.  Two commands of one user therefore get the same order id,
    whatever else they hold. *)
Theorem purchase_order_id_from_user env body w (cmd : commands.PurchaseCommand.t) :
  Json.decode body = Some cmd ->
  exists w',
    server.postPurchase env body w = Done (if put_ok env (puts w) then 200 else 500) w' /\
    emissions (trace w') = emissions (trace w) ++ [Json.marshal (server.purchaseEvent cmd)] /\
    PurchaseCompletedEvent.EventType (server.purchaseEvent cmd) = "PurchaseCompletedEvent"%string /\
    PurchaseCompletedEvent.OrderID (server.purchaseEvent cmd) =
      ("order-" ++ commands.PurchaseCommand.UserID cmd)%string /\
    (forall cmd' : commands.PurchaseCommand.t,
        commands.PurchaseCommand.UserID cmd' = commands.PurchaseCommand.UserID cmd ->
        PurchaseCompletedEvent.OrderID (server.purchaseEvent cmd') =
        PurchaseCompletedEvent.OrderID (server.purchaseEvent cmd)).
Proof.
  intros Hu. unfold server.postPurchase. rewrite Hu.
  go_run; (eexists; split; [reflexivity|]); go_simpl;
    (split; [unfold emissions; rewrite !collect_app; cbn [collect emission app];
             rewrite ?app_nil_r; reflexivity|]);
    (split; [reflexivity|]); (split; [reflexivity|]);
    intros cmd' Hsame; unfold server.purchaseEvent;
    cbn [PurchaseCompletedEvent.OrderID]; now rewrite Hsame.
Qed.

Lemma purchase_order_id_from_user_witness :
  (exists w',
      server.postPurchase Sample.env Sample.purchase_body Sample.start = Done 200 w' /\
      emissions (trace w') = [Json.marshal (server.purchaseEvent Sample.purchase_cmd)]) /\
  PurchaseCompletedEvent.OrderID (server.purchaseEvent Sample.purchase_cmd) = "order-u1"%string /\
  PurchaseCompletedEvent.OrderID
    (server.purchaseEvent (commands.PurchaseCommand.mk "u1" "sku-2" "cup" 120)) = "order-u1"%string.
Proof.
  destruct (purchase_order_id_from_user Sample.env Sample.purchase_body Sample.start
              Sample.purchase_cmd eq_refl)
    as (w' & Hrun & Hemit & _ & Hid & Hsame).
  split; [exists w'; split; assumption|].
  split; [exact Hid|].
  rewrite (Hsame (commands.PurchaseCommand.mk "u1" "sku-2" "cup" 120) eq_refl).
  exact Hid.
Defined.

(* ================================================================== *)
(** * The wire envelope: encode, then decode *)
(* ================================================================== *)

Lemma coerce_valid s : forall k, Utf8.valid_from k s = true -> Utf8.coerce_from k s = s.
Proof.
  induction s as [|c r IH]; intros k H; [reflexivity|].
  cbn [Utf8.coerce_from Utf8.valid_from] in *.
  destruct k as [|k'].
  - destruct (Utf8.rune_width (String c r)) as [n|]; [|discriminate].
    now rewrite IH.
  - now rewrite IH.
Qed.

Lemma toValidUTF8_valid s : Utf8.validString s = true -> Utf8.toValidUTF8 s = s.
Proof. apply coerce_valid. Qed.

(** Conversely, a string that the encoder leaves alone is valid: the
    coercion changes exactly the invalid strings. *)
Lemma coerce_fixed_valid s : forall k, Utf8.coerce_from k s = s -> Utf8.valid_from k s = true.
Proof.
  induction s as [|c r IH]; intros k H; [reflexivity|].
  cbn [Utf8.coerce_from Utf8.valid_from] in *.
  destruct k as [|k'].
  - destruct (Utf8.rune_width (String c r)) as [n|] eqn:E.
    + apply IH. now injection H.
    + exfalso. cbn [Utf8.replacement append] in H.
      injection H as Hc Hr. subst c. rewrite <- Hr in E.
      vm_compute in E. discriminate E.
  - apply IH. now injection H.
Qed.

Ltac roundtrip :=
  let e := fresh "e" in
  intros e; destruct e; unfold wire_safe; cbn;
  rewrite !andb_true_iff; intros;
  repeat match goal with H : _ /\ _ |- _ => destruct H end;
  rewrite !toValidUTF8_valid by assumption;
  repeat match goal with H : Json.is_int _ = true |- _ => rewrite H; clear H end;
  reflexivity.

(** C7, as the code has it.  For each of the four event structs, a value
    whose string fields are valid UTF-8 (and whose amount is a Go [int])
    comes back from [json.Unmarshal] after [json.Marshal] equal to itself
    in every field, the discriminator included. *)
Theorem roundtrip_wire_safe :
  (forall e : PurchaseCompletedEvent.t,
      wire_safe e = true -> Json.unmarshal (Json.marshal e) = Some e) /\
  (forall e : PaymentPromiseCreatedEvent.t,
      wire_safe e = true -> Json.unmarshal (Json.marshal e) = Some e) /\
  (forall e : MemberBillCreatedEvent.t,
      wire_safe e = true -> Json.unmarshal (Json.marshal e) = Some e) /\
  (forall e : PaymentCompletedEvent.t,
      wire_safe e = true -> Json.unmarshal (Json.marshal e) = Some e).
Proof. repeat split; roundtrip. Qed.

Lemma roundtrip_wire_safe_witness :
  Json.unmarshal (Json.marshal Sample.purchase_event) = Some Sample.purchase_event /\
  Json.unmarshal (Json.marshal Sample.promise_event) = Some Sample.promise_event /\
  Json.unmarshal (Json.marshal Sample.bill_event) = Some Sample.bill_event /\
  Json.unmarshal (Json.marshal Sample.payment_event) = Some Sample.payment_event.
Proof.
  destruct roundtrip_wire_safe as (H1 & H2 & H3 & H4).
  exact (conj (H1 Sample.purchase_event eq_refl)
           (conj (H2 Sample.promise_event eq_refl)
              (conj (H3 Sample.bill_event eq_refl)
                    (H4 Sample.payment_event eq_refl)))).
Defined.

(** C7, as stated, fails: a purchase event whose order id is the byte [FF]
    (not UTF-8) is written with U+FFFD in its place, and decodes to a
    different order id. *)
Lemma roundtrip_loses_invalid_utf8 :
  Json.unmarshal (Json.marshal Sample.purchase_bad_utf8) =
    Some (PurchaseCompletedEvent.mk "PurchaseCompletedEvent" Utf8.replacement "u1" 3500) /\
  Json.unmarshal (Json.marshal Sample.purchase_bad_utf8) <> Some Sample.purchase_bad_utf8.
Proof.
  split; [reflexivity|].
  intros H. vm_compute in H. discriminate H.
Qed.

(* ================================================================== *)
(** * Records that are dropped, and the record that is not *)
(* ================================================================== *)

(** Split a run of [processEvent] into its cases: one per branch of the
    [switch] with the typed decode succeeding or failing, the fall-through,
    the rejected payload and the panic.  Each case is run to its end. *)
Ltac on_branch E body T record :=
  apply String.eqb_eq in E; subst; cbn [String.eqb Ascii.eqb Bool.eqb andb orb];
  unfold body; destruct (Json.unmarshal record : option T); go_run.

Ltac split_switch env record w Hd eventType :=
  rewrite (processEvent_decoded env _ _ w Hd);
  let E1 := fresh "E" in
  let E2 := fresh "E" in
  let E3 := fresh "E" in
  let E4 := fresh "E" in
  destruct (String.eqb eventType "PurchaseCompletedEvent") eqn:E1;
  [ on_branch E1 consumer.onPurchaseCompleted PurchaseCompletedEvent.t record
  | destruct (String.eqb eventType "PaymentPromiseCreatedEvent") eqn:E2;
    [ on_branch E2 consumer.onPaymentPromiseCreated PaymentPromiseCreatedEvent.t record
    | destruct (String.eqb eventType "MemberBillCreatedEvent") eqn:E3;
      [ on_branch E3 consumer.onMemberBillCreated MemberBillCreatedEvent.t record
      | destruct (String.eqb eventType "PaymentCompletedEvent") eqn:E4;
        [ on_branch E4 consumer.onPaymentCompleted PaymentCompletedEvent.t record
        | go_run ] ] ] ].

Ltac processEvent_cases env record w :=
  let Hd := fresh "Hd" in
  destruct (discriminator record) eqn:Hd;
  [ match type of Hd with
    | _ = Some ?eventType => split_switch env record w Hd eventType
    end
  | let Hu := fresh "Hu" in
    let Hl := fresh "Hl" in
    destruct (discriminator_none _ Hd) as [Hu|Hl];
    [ rewrite (processEvent_undecodable env _ w Hu)
    | rewrite (processEvent_panics env _ w Hl) ];
    go_simpl ].

Lemma lacks_discriminator_some record eventType :
  discriminator record = Some eventType -> lacks_discriminator record = false.
Proof.
  intros H. destruct (discriminator_inv _ _ H) as (m & Hm & Hi).
  unfold lacks_discriminator. now rewrite Hm, Hi.
Qed.

Lemma lacks_discriminator_undecodable record :
  Json.unmarshal_map record = None -> lacks_discriminator record = false.
Proof. intros H. unfold lacks_discriminator. now rewrite H. Qed.

(** [processEvent] returns on every record but those whose decoded map has
    no string under ["event_type"]; and it never polls. *)
Lemma processEvent_outcome env record w :
  returns (consumer.processEvent env record w) = negb (lacks_discriminator record) /\
  polls (world_of (consumer.processEvent env record w)) = polls w.
Proof.
  processEvent_cases env record w;
    try rewrite (lacks_discriminator_some _ _ Hd);
    try rewrite (lacks_discriminator_undecodable _ Hu);
    try rewrite Hl;
    split; reflexivity.
Qed.

Lemma processEvent_returns env record w :
  lacks_discriminator record = false ->
  exists w', consumer.processEvent env record w = Done tt w' /\ polls w' = polls w.
Proof.
  intros H. destruct (processEvent_outcome env record w) as [Hr Hp].
  rewrite H in Hr.
  destruct (consumer.processEvent env record w) as [[] w'|msg w'] eqn:E.
  - exists w'. now split.
  - discriminate Hr.
Qed.

(** A record that is dropped does not stop the batch: the records after it
    are processed from the world it leaves. *)
Lemma processRecords_cons env record rest w w' :
  consumer.processEvent env record w = Done tt w' ->
  consumer.processRecords env (record :: rest) w = consumer.processRecords env rest w'.
Proof.
  intros H. cbn [consumer.processRecords]. unfold bind at 1. now rewrite H.
Qed.

(** A record with a discriminator outside the four of the [switch]: it is
    appended to the event log and nothing else happens. *)
Lemma unrecognized_dropped env record eventType w :
  discriminator record = Some eventType ->
  recognized eventType = false ->
  exists w',
    consumer.processEvent env record w = Done tt w' /\
    trace w' =
      trace w ++
      ELog "Received event: %s\n"
      :: EExec (Db.InsertEvent (uuid_at env (uuids w)) eventType record) (exec_ok env (execs w))
      :: (if exec_ok env (execs w) then [] else [ELog "Failed to save event to DB: %v"]) /\
    Db.payment_promises (db w') = Db.payment_promises (db w) /\
    Db.member_bills (db w') = Db.member_bills (db w).
Proof.
  intros Hd Hr. unfold recognized in Hr.
  apply orb_false_iff in Hr as [Hr E4]. apply orb_false_iff in Hr as [Hr E3].
  apply orb_false_iff in Hr as [E1 E2].
  rewrite (processEvent_decoded env _ _ w Hd), E1, E2, E3, E4.
  go_run; (eexists; split; [reflexivity|]); go_simpl;
    (split; [go_trace|]); split; reflexivity.
Qed.

(** X2.  Every record that no branch takes up, the one without a string
    discriminator apart, is dropped: [processEvent] returns, no projection
    is written, nothing is emitted and no signal is sent.  That covers text
    that is not JSON, JSON that is not an object, discriminators outside
    the [switch], and payloads that do not decode into the struct of their
    branch. *)
Lemma dropped_without_effect env record w :
  decodes_in_branch record = false ->
  lacks_discriminator record = false ->
  exists w' delta,
    consumer.processEvent env record w = Done tt w' /\
    trace w' = trace w ++ delta /\
    filter is_choreography delta = [] /\
    Db.payment_promises (db w') = Db.payment_promises (db w) /\
    Db.member_bills (db w') = Db.member_bills (db w).
Proof.
  unfold decodes_in_branch. intros Hb Hl. revert Hb.
  processEvent_cases env record w; cbn [is_some]; intros Hb;
    try discriminate Hb; try congruence;
    (do 2 eexists; split; [reflexivity|]); go_simpl;
    (split; [go_trace|]); repeat split.
Qed.

(** A batch without a record that lacks its discriminator is processed to
    the end. *)
Lemma processRecords_healthy env records : forall w,
  healthy records = true ->
  exists w', consumer.processRecords env records w = Done tt w' /\ polls w' = polls w.
Proof.
  induction records as [|r rest IH]; intros w H.
  - exists w. now split.
  - cbn [healthy forallb] in H. apply andb_true_iff in H as [Hr Hrest].
    apply negb_true_iff in Hr.
    destruct (processEvent_returns env r w Hr) as (w1 & Hrun & Hp).
    destruct (IH w1 Hrest) as (w2 & Hrun2 & Hp2).
    exists w2. rewrite (processRecords_cons _ _ _ _ _ Hrun). split; [exact Hrun2|congruence].
Qed.

(** C1, at the failing record.  The payload [{}] decodes generically (to
    an empty map); [processEvent] panics on it after its first log line,
    whatever the environment answers; the rest of its batch is not
    processed; and [main], fed a batch that holds [{}] and then a purchase,
    crashes without a single statement reaching the database. *)
Theorem missing_discriminator_crashes_consumer env w rest :
  Json.unmarshal_map Sample.empty_object = Some [] /\
  consumer.processEvent env Sample.empty_object w =
    Panic "interface conversion: interface {} is not string"
          (emit (ELog "Received event: %s\n") w) /\
  consumer.processRecords env (Sample.empty_object :: rest) w =
    Panic "interface conversion: interface {} is not string"
          (emit (ELog "Received event: %s\n") w) /\
  (forall fuel,
      fst (reader.main Sample.poisoned_env (S fuel) Sample.start) =
        reader.Crashed "interface conversion: interface {} is not string" /\
      statements (trace (snd (reader.main Sample.poisoned_env (S fuel) Sample.start))) = []).
Proof.
  split; [reflexivity|]. split; [reflexivity|]. split; [reflexivity|].
  intros fuel. split; reflexivity.
Qed.

(** C6, at the failing record.  The payload [{"event_type": 5}] decodes
    generically; [processEvent] panics on it before [saveEventToDB] is
    entered: no statement is issued and the event log is as before. *)
Theorem log_append_skipped_without_string_discriminator env w :
  Json.unmarshal_map Sample.numeric_discriminator =
    Some [("event_type"%string, Json.Num (Json.Int 5))] /\
  returns (consumer.processEvent env Sample.numeric_discriminator w) = false /\
  statements (trace (world_of (consumer.processEvent env Sample.numeric_discriminator w)))
    = statements (trace w) /\
  Db.events (db (world_of (consumer.processEvent env Sample.numeric_discriminator w)))
    = Db.events (db w).
Proof.
  split; [reflexivity|]. split; [reflexivity|]. split; [|reflexivity].
  cbn. unfold statements. rewrite collect_app. cbn. now rewrite app_nil_r.
Qed.

(** X3.  For a record that does carry a string discriminator, whatever its
    value: the log append happens, with a fresh draw as its id, the
    discriminator and the payload; no choreography effect comes before it;
    it is the only append of the run; a failed append is logged next; and
    the run returns whether or not the append succeeded. *)
Lemma log_append_once_and_first env record eventType w :
  discriminator record = Some eventType ->
  exists before rest,
    trace (world_of (consumer.processEvent env record w)) =
      trace w ++ before
      ++ EExec (Db.InsertEvent (uuid_at env (uuids w)) eventType record) (exec_ok env (execs w))
      :: (if exec_ok env (execs w) then [] else [ELog "Failed to save event to DB: %v"])
      ++ rest /\
    filter is_choreography before = [] /\
    filter is_log_append (statements before) = [] /\
    filter is_log_append (statements rest) = [] /\
    returns (consumer.processEvent env record w) = true.
Proof.
  intros H. exists [ELog "Received event: %s\n"].
  processEvent_cases env record w;
    try discriminate H; injection H as <-;
    (eexists; split; [go_trace|]); repeat split.
Qed.

(* ================================================================== *)
(** * The stream reader: how [main] ends *)
(* ================================================================== *)

Lemma loop_poll_error env fuel it w :
  get_records env (polls w) = None ->
  reader.loop env (S fuel) it w =
    (reader.Exit1,
     emit (EFatal "failed to get records: %v") (reader.count_poll (emit (EGetRecords it) w))).
Proof. intros H. cbn [reader.loop]. now rewrite H. Qed.

Lemma loop_nil_cursor env fuel it w out w2 :
  get_records env (polls w) = Some out ->
  NextShardIterator out = None ->
  consumer.processRecords env (Records out) (reader.count_poll (emit (EGetRecords it) w))
    = Done tt w2 ->
  reader.loop env (S fuel) it w =
    (reader.Returned, emit (ELog "Shard iterator is nil. Exiting.") w2).
Proof. intros H Hn Hr. cbn [reader.loop]. now rewrite H, Hr, Hn. Qed.

Lemma loop_next env fuel it w out next w2 :
  get_records env (polls w) = Some out ->
  NextShardIterator out = Some next ->
  consumer.processRecords env (Records out) (reader.count_poll (emit (EGetRecords it) w))
    = Done tt w2 ->
  reader.loop env (S fuel) it w =
    reader.loop env fuel (Some next) (emit (ESleep (1 * time.Second)) w2).
Proof. intros H Hn Hr. cbn [reader.loop]. now rewrite H, Hr, Hn. Qed.

(** After [k] good polls the loop stands at its [k]-th iteration. *)
Lemma loop_advance env k : forall fuel it w,
  polls_ok env (polls w) k ->
  exists it' w',
    reader.loop env (k + fuel) it w = reader.loop env fuel it' w' /\
    polls w' = (polls w + k)%nat.
Proof.
  induction k as [|k IH]; intros fuel it w H.
  - exists it, w. split; [reflexivity|lia].
  - destruct (H O ltac:(lia)) as (out & next & Hg & Hn & Hh).
    rewrite Nat.add_0_r in Hg.
    destruct (processRecords_healthy env (Records out)
                (reader.count_poll (emit (EGetRecords it) w)) Hh) as (w2 & Hrun & Hp).
    cbn [Nat.add]. rewrite (loop_next env _ it w out next w2 Hg Hn Hrun).
    destruct (IH fuel (Some next) (emit (ESleep (1 * time.Second)) w2)) as (it' & w' & Hl & Hp').
    + intros i Hi. destruct (H (S i) ltac:(lia)) as (o & n & Ho & Hno & Hho).
      exists o, n. repeat split; try assumption.
      cbn [polls emit]. rewrite Hp. cbn [polls reader.count_poll emit].
      rewrite <- Ho. f_equal. lia.
    + exists it', w'. split; [exact Hl|].
      rewrite Hp'. cbn [polls emit]. rewrite Hp. cbn [polls reader.count_poll emit]. lia.
Qed.

Lemma main_started env fuel w shard more it :
  load_config env = true -> sql_open env = true -> ws_dial env = true ->
  describe_stream env = Some (shard :: more) ->
  shard_iterator env = Some it ->
  reader.main env fuel w =
    match reader.loop env fuel it
            (emit (ELog "Listening for events...")
               (emit (EGetShardIterator shard "LATEST" consumer.streamName)
                  (emit (EDescribeStream consumer.streamName) w))) with
    | (reader.Returned, w') => (reader.Returned, reader.deferred w')
    | (reader.Crashed msg, w') => (reader.Crashed msg, reader.deferred w')
    | r => r
    end.
Proof.
  intros H1 H2 H3 Hd Hi. unfold reader.main. now rewrite H1, H2, H3, Hd, Hi.
Qed.

(** C8, where every batch is processed to its end.  With the SDK
    configuration, the database handle and the websocket in place:
    - a failing [DescribeStream], an empty shard list and a failing
      [GetShardIterator] each end [main] with [log.Fatal] as the very next
      effect, for any number of loop iterations allowed: [os.Exit(1)], no
      further call;
    - a [GetRecords] error at the [k]-th poll (after [k] polls that each
      returned a batch and a next iterator) ends [main] with [log.Fatal]
      right after that one call: [k + 1] polls in all, none repeated;
    - a nil next iterator at the [k]-th poll, its batch processed, makes
      [main] return: the last effects are the log line and the two
      deferred closes, after [k + 1] polls. *)
Theorem stream_reader_exits env w :
  load_config env = true -> sql_open env = true -> ws_dial env = true ->
  (describe_stream env = None ->
   forall fuel,
     reader.main env fuel w =
       (reader.Exit1,
        emit (EFatal "failed to get shards: %v")
             (emit (EDescribeStream consumer.streamName) w))) /\
  (describe_stream env = Some [] ->
   forall fuel,
     reader.main env fuel w =
       (reader.Exit1,
        emit (EFatal "no shards found") (emit (EDescribeStream consumer.streamName) w))) /\
  (forall shard more,
      describe_stream env = Some (shard :: more) ->
      shard_iterator env = None ->
      forall fuel,
        reader.main env fuel w =
          (reader.Exit1,
           emit (EFatal "failed to get shard iterator: %v")
                (emit (EGetShardIterator shard "LATEST" consumer.streamName)
                      (emit (EDescribeStream consumer.streamName) w)))) /\
  (forall shard more it k fuel,
      describe_stream env = Some (shard :: more) ->
      shard_iterator env = Some it ->
      polls_ok env (polls w) k ->
      (k < fuel)%nat ->
      (get_records env (polls w + k) = None ->
       exists w' t cursor,
         reader.main env fuel w = (reader.Exit1, w') /\
         polls w' = S (polls w + k) /\
         trace w' = t ++ [EGetRecords cursor; EFatal "failed to get records: %v"]) /\
      (forall out,
          get_records env (polls w + k) = Some out ->
          NextShardIterator out = None ->
          healthy (Records out) = true ->
          exists w' t,
            reader.main env fuel w = (reader.Returned, w') /\
            polls w' = S (polls w + k) /\
            trace w' = t ++ [ELog "Shard iterator is nil. Exiting."; ECloseWs; ECloseDb])).
Proof.
  intros H1 H2 H3.
  split; [|split; [|split]].
  - intros Hd fuel. unfold reader.main. now rewrite H1, H2, H3, Hd.
  - intros Hd fuel. unfold reader.main. now rewrite H1, H2, H3, Hd.
  - intros shard more Hd Hi fuel. unfold reader.main. now rewrite H1, H2, H3, Hd, Hi.
  - intros shard more it k fuel Hd Hi Hok Hfuel.
    rewrite (main_started env fuel w shard more it H1 H2 H3 Hd Hi).
    set (w3 := emit (ELog "Listening for events...") _).
    destruct (loop_advance env k (fuel - k) it w3 Hok) as (it' & w' & Hl & Hp).
    replace (k + (fuel - k))%nat with fuel in Hl by lia. rewrite Hl.
    destruct (fuel - k)%nat as [|f] eqn:Ef; [lia|].
    split.
    + intros Hg.
      rewrite loop_poll_error by (rewrite Hp; exact Hg).
      eexists. exists (trace w'), it'. split; [reflexivity|]. split.
      * cbn [polls emit reader.count_poll]. rewrite Hp. reflexivity.
      * cbn [trace emit reader.count_poll]. now rewrite <- app_assoc.
    + intros out Hg Hn Hh.
      destruct (processRecords_healthy env (Records out)
                  (reader.count_poll (emit (EGetRecords it') w')) Hh) as (w2 & Hrun & Hp2).
      rewrite (loop_nil_cursor env f it' w' out w2) by (try rewrite Hp; assumption).
      eexists. exists (trace w2). split; [reflexivity|]. split.
      * cbn [polls emit reader.deferred]. rewrite Hp2. cbn [polls emit reader.count_poll].
        rewrite Hp. reflexivity.
      * cbn [trace emit reader.deferred]. now rewrite <- !app_assoc.
Qed.

Lemma sample_polls_ok (env : Env) (out : RecordsOutput) (next : string) :
  get_records env 0 = Some out ->
  NextShardIterator out = Some next ->
  healthy (Records out) = true ->
  polls_ok env 0 1.
Proof.
  intros Hg Hn Hh i Hi. assert (i = O) as -> by lia.
  exists out, next. repeat split; assumption.
Qed.

Lemma stream_reader_exits_witness :
  fst (reader.main Sample.undiscovered_env 5 Sample.start) = reader.Exit1 /\
  fst (reader.main Sample.shardless_env 5 Sample.start) = reader.Exit1 /\
  fst (reader.main Sample.iteratorless_env 5 Sample.start) = reader.Exit1 /\
  (exists w', reader.main Sample.failing_env 5 Sample.start = (reader.Exit1, w') /\
              polls w' = 2%nat) /\
  (exists w', reader.main Sample.closing_env 5 Sample.start = (reader.Returned, w') /\
              polls w' = 2%nat).
Proof.
  split; [|split; [|split; [|split]]].
  - destruct (stream_reader_exits Sample.undiscovered_env Sample.start eq_refl eq_refl eq_refl)
      as (H & _).
    now rewrite (H eq_refl 5%nat).
  - destruct (stream_reader_exits Sample.shardless_env Sample.start eq_refl eq_refl eq_refl)
      as (_ & H & _).
    now rewrite (H eq_refl 5%nat).
  - destruct (stream_reader_exits Sample.iteratorless_env Sample.start eq_refl eq_refl eq_refl)
      as (_ & _ & H & _).
    now rewrite (H _ _ eq_refl eq_refl 5%nat).
  - destruct (stream_reader_exits Sample.failing_env Sample.start eq_refl eq_refl eq_refl)
      as (_ & _ & _ & H).
    destruct (H _ _ _ 1%nat 5%nat eq_refl eq_refl
                (sample_polls_ok Sample.failing_env _ _ eq_refl eq_refl eq_refl)
                ltac:(lia)) as (Herr & _).
    destruct (Herr eq_refl) as (w' & t & cursor & Hrun & Hp & _).
    exists w'. split; assumption.
  - destruct (stream_reader_exits Sample.closing_env Sample.start eq_refl eq_refl eq_refl)
      as (_ & _ & _ & H).
    destruct (H _ _ _ 1%nat 5%nat eq_refl eq_refl
                (sample_polls_ok Sample.closing_env _ _ eq_refl eq_refl eq_refl)
                ltac:(lia)) as (_ & Hnil).
    destruct (Hnil _ eq_refl eq_refl eq_refl) as (w' & t & Hrun & Hp & _).
    exists w'. split; assumption.
Defined.

(** A batch up to and with its first record without a string
    discriminator. *)
Lemma processRecords_panics_at env before bad after : forall w w1,
  consumer.processRecords env before w = Done tt w1 ->
  lacks_discriminator bad = true ->
  consumer.processRecords env (before ++ bad :: after) w =
    Panic "interface conversion: interface {} is not string"
          (emit (ELog "Received event: %s\n") w1).
Proof.
  induction before as [|r before IH]; intros w w1 Hrun Hbad.
  - cbn in Hrun. injection Hrun as <-.
    cbn [app consumer.processRecords]. unfold bind at 1.
    now rewrite (processEvent_panics env bad w Hbad).
  - cbn [app consumer.processRecords] in *. unfold bind at 1 in Hrun. unfold bind at 1.
    destruct (consumer.processEvent env r w) as [[] w0|msg w0]; [|discriminate Hrun].
    now apply IH.
Qed.

(** C8, at the failing input.  [main] processes the batch of a poll
    before it looks at the next iterator.  When the poll that returns a nil
    next iterator also returns a batch with a record that decodes
    generically but has no string under ["event_type"], the records before
    it are processed, [processEvent] panics on that record, and [main] does
    not reach the nil check: it ends with an unrecovered panic, not with a
    return.  The last effects are the first log line of that record and the
    two deferred closes; the line [Shard iterator is nil. Exiting.] is not
    among them. *)
Theorem nil_cursor_poll_crashes_on_bad_record env w shard more it out before bad after fuel :
  load_config env = true -> sql_open env = true -> ws_dial env = true ->
  describe_stream env = Some (shard :: more) ->
  shard_iterator env = Some it ->
  get_records env (polls w) = Some out ->
  NextShardIterator out = None ->
  Records out = before ++ bad :: after ->
  healthy before = true ->
  lacks_discriminator bad = true ->
  exists w' t,
    reader.main env (S fuel) w =
      (reader.Crashed "interface conversion: interface {} is not string", w') /\
    polls w' = S (polls w) /\
    trace w' = t ++ [ELog "Received event: %s\n"; ECloseWs; ECloseDb].
Proof.
  intros H1 H2 H3 Hd Hi Hg Hn Hrec Hh Hbad.
  rewrite (main_started env (S fuel) w shard more it H1 H2 H3 Hd Hi).
  cbn [reader.loop polls emit]. rewrite Hg, Hrec.
  match goal with
  | |- context [consumer.processRecords env _ ?w0] =>
      destruct (processRecords_healthy env before w0 Hh) as (w1 & Hrun & Hp);
      rewrite (processRecords_panics_at env before bad after w0 w1 Hrun Hbad)
  end.
  eexists. exists (trace w1). split; [reflexivity|].
  split; [exact Hp|].
  unfold reader.deferred. cbn [trace emit].
  rewrite <- !app_assoc. reflexivity.
Qed.

Lemma nil_cursor_poll_crashes_on_bad_record_witness :
  exists w' t,
    reader.main Scenario.poisoned_last_env 5 Sample.start =
      (reader.Crashed "interface conversion: interface {} is not string", w') /\
    polls w' = 1%nat /\
    trace w' = t ++ [ELog "Received event: %s\n"; ECloseWs; ECloseDb].
Proof.
  exact (nil_cursor_poll_crashes_on_bad_record Scenario.poisoned_last_env Sample.start
           "shardId-000000000000" [] (Some "it-0")
           {| Records := [Sample.purchase; Sample.empty_object]; NextShardIterator := None |}
           [Sample.purchase] Sample.empty_object [] 4
           eq_refl eq_refl eq_refl eq_refl eq_refl eq_refl eq_refl eq_refl eq_refl eq_refl).
Defined.

(* ================================================================== *)
(** * More on [processEvent]: what it does to any record *)
(* ================================================================== *)

(** X1.  [processEvent] panics on exactly the records whose payload
    decodes into the generic map without a string under ["event_type"];
    on every other record it returns, whatever the database, the stream
    and the websocket answer. *)
Theorem processEvent_panics_exactly env record w :
  returns (consumer.processEvent env record w) = negb (lacks_discriminator record).
Proof. apply processEvent_outcome. Qed.

Lemma dropped_without_effect_witness :
  exists w' delta,
    consumer.processEvent Sample.env Scenario.unknown_type Sample.start = Done tt w' /\
    trace w' = trace Sample.start ++ delta /\
    filter is_choreography delta = [].
Proof.
  destruct (dropped_without_effect Sample.env Scenario.unknown_type Sample.start
              eq_refl eq_refl) as (w' & delta & Hrun & Ht & Hc & _).
  exists w', delta. repeat split; assumption.
Defined.

Lemma log_append_once_and_first_witness :
  exists before rest,
    trace (world_of (consumer.processEvent Sample.env Sample.purchase Sample.start)) =
      trace Sample.start ++ before
      ++ EExec (Db.InsertEvent "id-0" "PurchaseCompletedEvent" Sample.purchase) true
      :: rest /\
    filter is_choreography before = [].
Proof.
  destruct (log_append_once_and_first Sample.env Sample.purchase
              "PurchaseCompletedEvent" Sample.start eq_refl)
    as (before & rest & Ht & Hc & _).
  exists before, rest. split; [exact Ht|exact Hc].
Defined.

(** X4.  Only the purchase branch publishes: a record whose discriminator
    is not [PurchaseCompletedEvent] (or that has none) never makes
    [processEvent] put anything on the stream. *)
Theorem emission_only_from_purchase env record w :
  discriminator record <> Some "PurchaseCompletedEvent" ->
  emissions (trace (world_of (consumer.processEvent env record w))) = emissions (trace w).
Proof.
  intros Hne. unfold emissions.
  processEvent_cases env record w;
    try (exfalso; apply Hne; reflexivity);
    rewrite ?collect_app; cbn [collect emission app]; rewrite ?app_nil_r; reflexivity.
Qed.

Lemma emission_only_from_purchase_witness :
  emissions (trace (world_of (consumer.processEvent Sample.env Sample.payment Sample.with_bill)))
  = [].
Proof.
  apply (emission_only_from_purchase Sample.env Sample.payment Sample.with_bill).
  discriminate.
Defined.

(** X5.  A record without a string discriminator in the middle of a batch:
    the records before it have been processed and their effects stay, the
    panic comes right after its own first log line, and the records after
    it are not looked at. *)
Theorem batch_stops_at_bad_record env before bad after w w1 :
  consumer.processRecords env before w = Done tt w1 ->
  lacks_discriminator bad = true ->
  consumer.processRecords env (before ++ bad :: after) w =
    Panic "interface conversion: interface {} is not string"
          (emit (ELog "Received event: %s\n") w1).
Proof.
  revert w. induction before as [|r before IH]; intros w Hrun Hbad.
  - cbn in Hrun. injection Hrun as <-.
    cbn [app consumer.processRecords]. unfold bind at 1.
    now rewrite (processEvent_panics env bad w Hbad).
  - cbn [app consumer.processRecords] in *. unfold bind at 1 in Hrun. unfold bind at 1.
    destruct (consumer.processEvent env r w) as [[] w0|msg w0]; [|discriminate Hrun].
    now apply IH.
Qed.

Lemma batch_stops_at_bad_record_witness :
  returns (consumer.processRecords Sample.env
             [Sample.purchase; Sample.empty_object; Sample.payment] Sample.start) = false.
Proof.
  destruct (consumer.processRecords Sample.env [Sample.purchase] Sample.start)
    as [[] w1|msg w1] eqn:Hrun; [|discriminate Hrun].
  change [Sample.purchase; Sample.empty_object; Sample.payment]
    with ([Sample.purchase] ++ Sample.empty_object :: [Sample.payment]).
  now rewrite (batch_stops_at_bad_record Sample.env [Sample.purchase] Sample.empty_object
                 [Sample.payment] Sample.start w1 Hrun eq_refl).
Defined.

(* ================================================================== *)
(** * What the consumer never does to the tables *)
(* ================================================================== *)

Lemma bill_kept_refl b : bill_kept b b.
Proof. unfold bill_kept. repeat split; try reflexivity. now left. Qed.

Lemma bill_kept_trans a b c : bill_kept a b -> bill_kept b c -> bill_kept a c.
Proof.
  unfold bill_kept.
  intros (A1 & A2 & A3 & A4 & A5 & A6) (B1 & B2 & B3 & B4 & B5 & B6).
  repeat split; try congruence.
  destruct B6 as [->|B6]; [exact A6|now right].
Qed.

Lemma bills_kept_refl l : Forall2 bill_kept l l.
Proof. induction l; constructor; [apply bill_kept_refl|assumption]. Qed.

Lemma bills_kept_trans l1 : forall l2 l3,
  Forall2 bill_kept l1 l2 -> Forall2 bill_kept l2 l3 -> Forall2 bill_kept l1 l3.
Proof.
  induction l1 as [|a l1 IH]; intros l2 l3 H12 H23.
  - inversion H12; subst. inversion H23; subst. constructor.
  - inversion H12; subst. inversion H23; subst. constructor.
    + eapply bill_kept_trans; eassumption.
    + eapply IH; eassumption.
Qed.

Lemma db_grows_refl d : db_grows d d.
Proof.
  unfold db_grows. repeat split.
  - exists []. now rewrite app_nil_r.
  - exists []. now rewrite app_nil_r.
  - exists (Db.member_bills d), []. split; [now rewrite app_nil_r|apply bills_kept_refl].
Qed.

Lemma db_grows_trans a b c : db_grows a b -> db_grows b c -> db_grows a c.
Proof.
  unfold db_grows.
  intros ((e1 & E1) & (p1 & P1) & (o1 & n1 & B1 & K1))
         ((e2 & E2) & (p2 & P2) & (o2 & n2 & B2 & K2)).
  repeat split.
  - exists (e1 ++ e2). now rewrite E2, E1, app_assoc.
  - exists (p1 ++ p2). now rewrite P2, P1, app_assoc.
  - rewrite B1 in K2. apply Forall2_app_inv_l in K2 as (o2a & o2b & Ka & Kb & ->).
    exists o2a, (o2b ++ n2). split; [now rewrite B2, app_assoc|].
    eapply bills_kept_trans; eassumption.
Qed.

Lemma set_paid_kept paid id b : bill_kept b (Db.set_paid "paid" paid id b).
Proof.
  unfold Db.set_paid. destruct (String.eqb (Db.mb_id b) id); [|apply bill_kept_refl].
  unfold bill_kept. cbn. repeat split. right. split; [reflexivity|now exists paid].
Qed.

Lemma apply_grows s d : sets_paid s -> db_grows d (Db.apply s d).
Proof.
  destruct s; cbn [sets_paid]; intros H; unfold db_grows; cbn [Db.apply Db.events
    Db.payment_promises Db.member_bills].
  - repeat split; [eexists; reflexivity|exists []; now rewrite app_nil_r|].
    exists (Db.member_bills d), []. split; [now rewrite app_nil_r|apply bills_kept_refl].
  - repeat split; [exists []; now rewrite app_nil_r|eexists; reflexivity|].
    exists (Db.member_bills d), []. split; [now rewrite app_nil_r|apply bills_kept_refl].
  - repeat split; [exists []; now rewrite app_nil_r|exists []; now rewrite app_nil_r|].
    eexists _, _. split; [reflexivity|apply bills_kept_refl].
  - subst status.
    repeat split; [exists []; now rewrite app_nil_r|exists []; now rewrite app_nil_r|].
    eexists _, []. split; [now rewrite app_nil_r|].
    induction (Db.member_bills d); constructor; [apply set_paid_kept|assumption].
Qed.

Ltac grows :=
  repeat first
    [ apply db_grows_refl
    | eapply db_grows_trans; [|apply apply_grows; exact I]
    | eapply db_grows_trans; [|apply apply_grows; reflexivity] ].

Lemma processEvent_grows env record w :
  db_grows (db w) (db (world_of (consumer.processEvent env record w))).
Proof. processEvent_cases env record w; grows. Qed.

Lemma processRecords_grows env records : forall w,
  db_grows (db w) (db (world_of (consumer.processRecords env records w))).
Proof.
  induction records as [|r rest IH]; intros w; [apply db_grows_refl|].
  cbn [consumer.processRecords]. unfold bind at 1.
  pose proof (processEvent_grows env r w) as Hr.
  destruct (consumer.processEvent env r w) as [[] w1|msg w1]; cbn [world_of] in *.
  - eapply db_grows_trans; [exact Hr|apply IH].
  - exact Hr.
Qed.

Lemma loop_grows env fuel : forall it w,
  db_grows (db w) (db (snd (reader.loop env fuel it w))).
Proof.
  induction fuel as [|fuel IH]; intros it w; [apply db_grows_refl|].
  cbn [reader.loop].
  destruct (get_records env (polls w)) as [out|]; [|apply db_grows_refl].
  pose proof (processRecords_grows env (Records out)
                (reader.count_poll (emit (EGetRecords it) w))) as Hr.
  destruct (consumer.processRecords env (Records out) _) as [[] w2|msg w2];
    cbn [world_of snd] in *; [|exact Hr].
  destruct (NextShardIterator out) as [next|]; cbn [snd]; [|exact Hr].
  eapply db_grows_trans; [exact Hr|]. apply (IH (Some next) (emit _ w2)).
Qed.

(** X6.  Over a whole run of the consumer, whatever the stream delivers
    and whatever the environment answers, and however the run ends: the
    event log and the promise table only grow at their end (no row is
    changed or removed), and every bill that was there is still there, at
    its place, with the same id, promise, user, amount and issue date,
    either untouched or paid; new bills come after. *)
Theorem consumer_only_adds_and_pays env fuel w :
  db_grows (db w) (db (snd (reader.main env fuel w))).
Proof.
  unfold reader.main, reader.fatal.
  repeat match goal with
         | |- context [if ?b then _ else _] => destruct b
         | |- context [match ?x with None => _ | Some _ => _ end] => destruct x
         | |- context [match ?x with [] => _ | _ :: _ => _ end] => destruct x
         end; cbn [snd db emit]; try apply db_grows_refl.
  match goal with
  | |- context [reader.loop env fuel ?it ?w0] =>
      pose proof (loop_grows env fuel it w0) as Hl;
      destruct (reader.loop env fuel it w0) as [[] w1]
  end; cbn [snd db emit reader.deferred] in *; exact Hl.
Qed.

(** X7.  A paid bill stays paid: after any batch, the row at its place
    still has its id, user and amount and the status [paid]. *)
Theorem paid_bill_stays_paid env records w i b :
  nth_error (Db.member_bills (db w)) i = Some b ->
  Db.mb_status b = "paid"%string ->
  exists b',
    nth_error (Db.member_bills (db (world_of (consumer.processRecords env records w)))) i
      = Some b' /\
    Db.mb_id b' = Db.mb_id b /\
    Db.mb_user_id b' = Db.mb_user_id b /\
    Db.mb_amount b' = Db.mb_amount b /\
    Db.mb_status b' = "paid"%string.
Proof.
  intros Hi Hpaid.
  destruct (processRecords_grows env records w) as (_ & _ & (old & new & Hb & Hk)).
  rewrite Hb. clear Hb.
  revert i Hi. induction Hk as [|x y l l' Hxy Hk IH]; intros i Hi.
  - destruct i; discriminate Hi.
  - destruct i as [|i]; cbn [nth_error app] in *.
    + injection Hi as ->. exists y. split; [reflexivity|].
      destruct Hxy as (H1 & _ & H3 & H4 & _ & H6).
      repeat split; try assumption.
      destruct H6 as [->|[H6 _]]; assumption.
    + apply (IH i Hi).
Qed.

Lemma paid_bill_stays_paid_witness :
  exists b',
    nth_error
      (Db.member_bills
         (db (world_of (consumer.processRecords Sample.env [Sample.bill; Sample.payment]
                          (fresh_world Scenario.two_users))))) 1 = Some b' /\
    Db.mb_id b' = "b2"%string /\
    Db.mb_status b' = "paid"%string.
Proof.
  destruct (paid_bill_stays_paid Sample.env [Sample.bill; Sample.payment]
              (fresh_world Scenario.two_users) 1 Scenario.paid_bill eq_refl eq_refl)
    as (b' & Hn & Hid & _ & _ & Hs).
  exists b'. repeat split; assumption.
Defined.

(* ================================================================== *)
(** * The event log of a batch, and deliveries that repeat or differ *)
(* ================================================================== *)

Lemma processEvent_logs env record w :
  (forall n, exec_ok env n = true) ->
  exists rows,
    Db.events (db (world_of (consumer.processEvent env record w))) = Db.events (db w) ++ rows /\
    map log_entry rows =
      match discriminator record with
      | Some eventType => [(eventType, record)]
      | None => []
      end.
Proof.
  intros Hok.
  processEvent_cases env record w;
    try match goal with
        | E : exec_ok env _ = false |- _ => rewrite Hok in E; discriminate E
        end;
    cbn [Db.apply Db.events];
    first [ exists []; split; [now rewrite app_nil_r|reflexivity]
          | eexists [_]; split; reflexivity ].
Qed.

(** X8.  With a database that accepts every statement, a batch leaves in
    the event log, after what was there, one row per record that carries a
    string discriminator, in arrival order, each with that discriminator
    and the payload as received, up to the first record on which
    [processEvent] panics; records that fail the generic decode leave no
    row. *)
Theorem event_log_in_arrival_order env records : forall w,
  (forall n, exec_ok env n = true) ->
  exists rows,
    Db.events (db (world_of (consumer.processRecords env records w)))
      = Db.events (db w) ++ rows /\
    map log_entry rows = logged records.
Proof.
  induction records as [|r rest IH]; intros w Hok.
  - exists []. split; [now rewrite app_nil_r|reflexivity].
  - cbn [consumer.processRecords logged]. unfold bind at 1.
    destruct (processEvent_logs env r w Hok) as (rows & He & Hm).
    destruct (processEvent_outcome env r w) as [Hret _].
    destruct (consumer.processEvent env r w) as [[] w1|msg w1]; cbn [world_of returns] in *.
    + apply (f_equal negb) in Hret. rewrite negb_involutive in Hret. cbn in Hret.
      rewrite <- Hret.
      destruct (IH w1 Hok) as (rows' & He' & Hm').
      exists (rows ++ rows'). split; [now rewrite He', He, app_assoc|].
      rewrite map_app, Hm, Hm'. now destruct (discriminator r).
    + apply (f_equal negb) in Hret. rewrite negb_involutive in Hret. cbn in Hret.
      rewrite <- Hret. exists rows. split; [exact He|].
      rewrite Hm. destruct (discriminator r) eqn:Hd; [|reflexivity].
      rewrite (lacks_discriminator_some _ _ Hd) in Hret. discriminate Hret.
Qed.

Lemma event_log_in_arrival_order_witness :
  exists rows,
    Db.events (db (world_of (consumer.processRecords Sample.env
                               [Scenario.garbage; Sample.bill; Scenario.unknown_type;
                                Sample.payment] Sample.start))) = rows /\
    map log_entry rows =
      [("MemberBillCreatedEvent"%string, Sample.bill);
       ("SomethingElse"%string, Scenario.unknown_type);
       ("PaymentCompletedEvent"%string, Sample.payment)].
Proof.
  destruct (event_log_in_arrival_order Sample.env
              [Scenario.garbage; Sample.bill; Scenario.unknown_type; Sample.payment]
              Sample.start (fun _ => eq_refl)) as (rows & He & Hm).
  exists rows. split; [exact He|exact Hm].
Defined.

(** X9.  The bill update looks at the bill id and the paid date of
    the payment event and at nothing else: two payment events for the same
    bill and date leave the same bill table, whatever user id and amount
    each carries (and whoever owns the bill). *)
Theorem payment_ignores_user_and_amount env r1 r2 w
        (p1 p2 : PaymentCompletedEvent.t) :
  discriminator r1 = Some "PaymentCompletedEvent" ->
  discriminator r2 = Some "PaymentCompletedEvent" ->
  Json.unmarshal r1 = Some p1 ->
  Json.unmarshal r2 = Some p2 ->
  PaymentCompletedEvent.BillID p1 = PaymentCompletedEvent.BillID p2 ->
  PaymentCompletedEvent.PaidDate p1 = PaymentCompletedEvent.PaidDate p2 ->
  Db.member_bills (db (world_of (consumer.processEvent env r1 w))) =
  Db.member_bills (db (world_of (consumer.processEvent env r2 w))).
Proof.
  intros Hd1 Hd2 Hu1 Hu2 Hid Hdate.
  destruct (payment_run env r1 w p1 Hd1 Hu1) as (w1 & Hr1 & _ & Hb1).
  destruct (payment_run env r2 w p2 Hd2 Hu2) as (w2 & Hr2 & _ & Hb2).
  rewrite Hr1, Hr2. cbn [world_of]. now rewrite Hb1, Hb2, Hid, Hdate.
Qed.

Lemma payment_ignores_user_and_amount_witness :
  Db.member_bills
    (db (world_of (consumer.processEvent Sample.env Sample.payment Sample.with_bill))) =
  Db.member_bills
    (db (world_of (consumer.processEvent Sample.env Scenario.payment_by_other
                     Sample.with_bill))).
Proof.
  apply (payment_ignores_user_and_amount Sample.env Sample.payment
           Scenario.payment_by_other Sample.with_bill Sample.payment_event
           Scenario.payment_by_other_event); reflexivity.
Defined.

(* ================================================================== *)
(** * The wire, seen from both ends *)
(* ================================================================== *)

Lemma rune_width_copied c r w :
  Utf8.rune_width (String c r) = Some w ->
  Utf8.rune_width (String c (Utf8.coerce_from (Nat.pred w) r)) = Some w.
Proof.
  unfold Utf8.rune_width.
  destruct (Utf8.first c) as [| | |lo hi|lo hi].
  - intros [= <-]. reflexivity.
  - discriminate.
  - destruct r as [|c1 r]; [discriminate|].
    destruct (Utf8.cont c1) eqn:E1; [|discriminate].
    intros [= <-]. cbn [Nat.pred Utf8.coerce_from]. now rewrite E1.
  - destruct r as [|c1 [|c2 r]]; try discriminate.
    destruct (Utf8.between lo hi c1 && Utf8.cont c2) eqn:E; [|discriminate].
    intros [= <-]. cbn [Nat.pred Utf8.coerce_from]. now rewrite E.
  - destruct r as [|c1 [|c2 [|c3 r]]]; try discriminate.
    destruct (Utf8.between lo hi c1 && Utf8.cont c2 && Utf8.cont c3) eqn:E; [|discriminate].
    intros [= <-]. cbn [Nat.pred Utf8.coerce_from]. now rewrite E.
Qed.

Lemma coerce_is_valid s : forall k, Utf8.valid_from k (Utf8.coerce_from k s) = true.
Proof.
  induction s as [|c r IH]; intros k; [reflexivity|].
  destruct k as [|k]; cbn [Utf8.coerce_from].
  - destruct (Utf8.rune_width (String c r)) as [w|] eqn:E.
    + cbn [Utf8.valid_from]. rewrite (rune_width_copied c r w E). apply IH.
    + change (Utf8.valid_from 0 (Utf8.coerce_from 0 r) = true). apply IH.
  - cbn [Utf8.valid_from]. apply IH.
Qed.

Lemma toValidUTF8_is_valid s : Utf8.validString (Utf8.toValidUTF8 s) = true.
Proof. apply coerce_is_valid. Qed.

Lemma toValidUTF8_idempotent s :
  Utf8.toValidUTF8 (Utf8.toValidUTF8 s) = Utf8.toValidUTF8 s.
Proof. apply toValidUTF8_valid, toValidUTF8_is_valid. Qed.

Lemma int_fits_float64 z : Json.is_int z = true -> Json.float64_overflows (Json.Int z) = false.
Proof.
  unfold Json.is_int, Json.float64_overflows, Json.min_int, Json.max_int.
  rewrite andb_true_iff, !Z.leb_le. intros [Hlo Hhi].
  apply Z.leb_gt.
  assert (Z.abs z <= 2 ^ 63) by lia.
  assert (2 ^ 63 < Json.float64_limit) by (vm_compute; reflexivity).
  lia.
Qed.

#[local] Opaque Json.float64_overflows Json.is_int Utf8.toValidUTF8.

Ltac wire :=
  let e := fresh "e" in
  intros e; destruct e; unfold ints_ok; cbn;
  intros;
  repeat match goal with
         | H : (_ && _)%bool = true |- _ => apply andb_true_iff in H; destruct H
         end;
  repeat match goal with
         | H : Json.is_int ?z = true |- _ =>
             pose proof (int_fits_float64 z H); revert H
         end;
  intros;
  unfold discriminator, Json.unmarshal_map, Json.unmarshal, Json.marshal, sanitize;
  cbn;
  repeat match goal with
         | H : Json.float64_overflows _ = false |- _ => rewrite H; clear H
         | H : Json.is_int _ = true |- _ => rewrite H; clear H
         end;
  cbn;
  rewrite ?toValidUTF8_idempotent;
  repeat split.

Lemma emitted_purchase_read (e : PurchaseCompletedEvent.t) :
  ints_ok e = true ->
  discriminator (Json.marshal e) =
    Some (Utf8.toValidUTF8 (PurchaseCompletedEvent.EventType e)) /\
  Json.unmarshal (Json.marshal e) = Some (sanitize e).
Proof. revert e. wire. Qed.

Lemma emitted_promise_read (e : PaymentPromiseCreatedEvent.t) :
  ints_ok e = true ->
  discriminator (Json.marshal e) =
    Some (Utf8.toValidUTF8 (PaymentPromiseCreatedEvent.EventType e)) /\
  Json.unmarshal (Json.marshal e) = Some (sanitize e).
Proof. revert e. wire. Qed.

Lemma emitted_bill_read (e : MemberBillCreatedEvent.t) :
  ints_ok e = true ->
  discriminator (Json.marshal e) =
    Some (Utf8.toValidUTF8 (MemberBillCreatedEvent.EventType e)) /\
  Json.unmarshal (Json.marshal e) = Some (sanitize e).
Proof. revert e. wire. Qed.

Lemma emitted_payment_read (e : PaymentCompletedEvent.t) :
  ints_ok e = true ->
  discriminator (Json.marshal e) =
    Some (Utf8.toValidUTF8 (PaymentCompletedEvent.EventType e)) /\
  Json.unmarshal (Json.marshal e) = Some (sanitize e).
Proof. revert e. wire. Qed.

(** X10.  What the consumer reads off a record that [EmitEvent] wrote, for
    each of the four event structs: the generic decode succeeds and finds
    the struct's [EventType] (coerced to valid UTF-8) as discriminator, and
    the typed decode returns the value that was written with every string
    field coerced to valid UTF-8 and every other field as it was. *)
Theorem consumer_reads_what_was_emitted :
  (forall e : PurchaseCompletedEvent.t, ints_ok e = true ->
      discriminator (Json.marshal e) =
        Some (Utf8.toValidUTF8 (PurchaseCompletedEvent.EventType e)) /\
      Json.unmarshal (Json.marshal e) = Some (sanitize e)) /\
  (forall e : PaymentPromiseCreatedEvent.t, ints_ok e = true ->
      discriminator (Json.marshal e) =
        Some (Utf8.toValidUTF8 (PaymentPromiseCreatedEvent.EventType e)) /\
      Json.unmarshal (Json.marshal e) = Some (sanitize e)) /\
  (forall e : MemberBillCreatedEvent.t, ints_ok e = true ->
      discriminator (Json.marshal e) =
        Some (Utf8.toValidUTF8 (MemberBillCreatedEvent.EventType e)) /\
      Json.unmarshal (Json.marshal e) = Some (sanitize e)) /\
  (forall e : PaymentCompletedEvent.t, ints_ok e = true ->
      discriminator (Json.marshal e) =
        Some (Utf8.toValidUTF8 (PaymentCompletedEvent.EventType e)) /\
      Json.unmarshal (Json.marshal e) = Some (sanitize e)).
Proof.
  exact (conj emitted_purchase_read
           (conj emitted_promise_read (conj emitted_bill_read emitted_payment_read))).
Qed.

(** X11.  Decoding a record that [EmitEvent] wrote and encoding the result
    again gives the same record: for each of the four event structs the
    decoded value re-encodes to the payload it came from. *)
Theorem decode_then_encode_is_lossless :
  (forall e e' : PurchaseCompletedEvent.t,
      Json.unmarshal (Json.marshal e) = Some e' -> Json.marshal e' = Json.marshal e) /\
  (forall e e' : PaymentPromiseCreatedEvent.t,
      Json.unmarshal (Json.marshal e) = Some e' -> Json.marshal e' = Json.marshal e) /\
  (forall e e' : MemberBillCreatedEvent.t,
      Json.unmarshal (Json.marshal e) = Some e' -> Json.marshal e' = Json.marshal e) /\
  (forall e e' : PaymentCompletedEvent.t,
      Json.unmarshal (Json.marshal e) = Some e' -> Json.marshal e' = Json.marshal e).
Proof.
  split; [|split; [|split]];
    intros e e'; destruct e;
    unfold Json.unmarshal, Json.marshal;
    cbn;
    repeat match goal with
           | |- context [if Json.is_int ?z then _ else _] => destruct (Json.is_int z)
           end;
    cbn; intros H; try discriminate H;
    injection H as <-; cbn;
    now rewrite ?toValidUTF8_idempotent.
Qed.

#[local] Transparent Json.float64_overflows Json.is_int Utf8.toValidUTF8.

Lemma consumer_reads_what_was_emitted_witness :
  discriminator (Json.marshal Sample.purchase_bad_utf8) = Some "PurchaseCompletedEvent"%string /\
  Json.unmarshal (Json.marshal Sample.purchase_bad_utf8) =
    Some (PurchaseCompletedEvent.mk "PurchaseCompletedEvent" Utf8.replacement "u1" 3500) /\
  discriminator (Json.marshal Sample.promise_event) = Some "PaymentPromiseCreatedEvent"%string /\
  discriminator (Json.marshal Sample.bill_event) = Some "MemberBillCreatedEvent"%string /\
  discriminator (Json.marshal Sample.payment_event) = Some "PaymentCompletedEvent"%string.
Proof.
  destruct consumer_reads_what_was_emitted as (H1 & H2 & H3 & H4).
  destruct (H1 Sample.purchase_bad_utf8 eq_refl) as [Hd1 Hu1].
  destruct (H2 Sample.promise_event eq_refl) as [Hd2 _].
  destruct (H3 Sample.bill_event eq_refl) as [Hd3 _].
  destruct (H4 Sample.payment_event eq_refl) as [Hd4 _].
  exact (conj Hd1 (conj Hu1 (conj Hd2 (conj Hd3 Hd4)))).
Defined.

Lemma decode_then_encode_is_lossless_witness :
  Json.marshal (PurchaseCompletedEvent.mk "PurchaseCompletedEvent" Utf8.replacement "u1" 3500)
  = Json.marshal Sample.purchase_bad_utf8.
Proof.
  destruct decode_then_encode_is_lossless as (H1 & _).
  exact (H1 Sample.purchase_bad_utf8 _ eq_refl).
Defined.

(* ================================================================== *)
(** * The purchase branch and what follows from its event *)
(* ================================================================== *)

Lemma ascii_only_app (a b : string) :
  ascii_only (a ++ b)%string = ascii_only a && ascii_only b.
Proof. induction a as [|c a IH]; cbn; [reflexivity|]. now rewrite IH, andb_assoc. Qed.

Lemma ascii_only_valid s : ascii_only s = true -> Utf8.validString s = true.
Proof.
  unfold Utf8.validString.
  induction s as [|c r IH]; [reflexivity|].
  cbn [ascii_only]. rewrite andb_true_iff. intros [Hc Hr].
  cbn [Utf8.valid_from]. unfold Utf8.rune_width, Utf8.first.
  rewrite Hc. cbn [Nat.pred]. now apply IH.
Qed.

Lemma ascii_only_uint d : ascii_only (NilEmpty.string_of_uint d) = true.
Proof. induction d; cbn; assumption || reflexivity. Qed.

Lemma ascii_only_digits n : ascii_only (time.digits n) = true.
Proof.
  unfold time.digits, NilZero.string_of_uint.
  destruct (N.to_uint (Z.to_N n)); try apply ascii_only_uint. reflexivity.
Qed.

Lemma ascii_only_zeros n : ascii_only (time.zeros n) = true.
Proof. induction n; cbn; assumption || reflexivity. Qed.

Lemma ascii_only_appendInt x width : ascii_only (time.appendInt x width) = true.
Proof.
  unfold time.appendInt.
  rewrite !ascii_only_app, ascii_only_zeros, ascii_only_digits.
  now destruct (x <? 0).
Qed.

(** Whatever the instant and the offset, a formatted date is made of 7-bit
    characters, so the encoder leaves it as it is. *)
Lemma Format_date_ascii offset t : ascii_only (time.Format_date offset t) = true.
Proof.
  unfold time.Format_date.
  destruct (time.civil_of_days ((t + offset) / 86400)) as [[y m] d].
  rewrite !ascii_only_app, !ascii_only_appendInt. reflexivity.
Qed.

Lemma Format_date_on_wire offset t :
  Utf8.toValidUTF8 (time.Format_date offset t) = time.Format_date offset t.
Proof. apply toValidUTF8_valid, ascii_only_valid, Format_date_ascii. Qed.

(** The run of [processEvent] on a record that decodes as a purchase. *)
Lemma purchase_run env record w (purchaseEvent : PurchaseCompletedEvent.t) :
  discriminator record = Some "PurchaseCompletedEvent" ->
  Json.unmarshal record = Some purchaseEvent ->
  exists w',
    consumer.processEvent env record w = Done tt w' /\
    emissions (trace w') =
      emissions (trace w) ++ [Json.marshal (promised env (S (uuids w)) (nows w) purchaseEvent)] /\
    uuids w' = S (S (uuids w)) /\
    nows w' = S (nows w) /\
    Db.payment_promises (db w') = Db.payment_promises (db w).
Proof.
  intros Hd Hu.
  rewrite (processEvent_decoded env _ _ w Hd).
  cbn [String.eqb Ascii.eqb Bool.eqb].
  unfold consumer.onPurchaseCompleted. rewrite Hu.
  go_run; (eexists; split; [reflexivity|]); go_simpl;
    (split; [unfold emissions; rewrite !collect_app; cbn [collect emission app];
             rewrite ?app_nil_r; reflexivity|]);
    repeat split.
Qed.

(** X12.  Nothing recognises a purchase that was seen before: the same
    purchase record delivered twice makes [processEvent] publish two
    promise events for the one order, the same in everything but the
    promise id (two separate draws of the generator) and, if the clock
    moved, the due date. *)
Theorem duplicate_purchase_mints_second_promise env record w
        (purchaseEvent : PurchaseCompletedEvent.t) :
  discriminator record = Some "PurchaseCompletedEvent" ->
  Json.unmarshal record = Some purchaseEvent ->
  exists w1 w2,
    consumer.processEvent env record w = Done tt w1 /\
    consumer.processEvent env record w1 = Done tt w2 /\
    emissions (trace w2) =
      emissions (trace w) ++
      [Json.marshal (promised env (1 + uuids w) (nows w) purchaseEvent);
       Json.marshal (promised env (3 + uuids w) (1 + nows w) purchaseEvent)].
Proof.
  intros Hd Hu.
  destruct (purchase_run env record w purchaseEvent Hd Hu) as (w1 & Hr1 & He1 & Hu1 & Hn1 & _).
  destruct (purchase_run env record w1 purchaseEvent Hd Hu) as (w2 & Hr2 & He2 & _).
  exists w1, w2. split; [exact Hr1|]. split; [exact Hr2|].
  rewrite He2, He1, Hu1, Hn1, <- app_assoc. reflexivity.
Qed.

Lemma duplicate_purchase_mints_second_promise_witness :
  exists w1 w2,
    consumer.processEvent Sample.env Sample.purchase Sample.start = Done tt w1 /\
    consumer.processEvent Sample.env Sample.purchase w1 = Done tt w2 /\
    emissions (trace w2) =
      [Json.marshal (PaymentPromiseCreatedEvent.mk
                       "PaymentPromiseCreatedEvent" "id-1" "o1" "u1" "2024-01-31" "月まとめ払い");
       Json.marshal (PaymentPromiseCreatedEvent.mk
                       "PaymentPromiseCreatedEvent" "id-3" "o1" "u1" "2024-01-31" "月まとめ払い")].
Proof.
  destruct (duplicate_purchase_mints_second_promise Sample.env Sample.purchase Sample.start
              Sample.purchase_event eq_refl eq_refl) as (w1 & w2 & H1 & H2 & He).
  exists w1, w2. repeat split; assumption.
Defined.

(** The run of [processEvent] on the record of a promise event. *)
Lemma promise_record_run env (e : PaymentPromiseCreatedEvent.t) w :
  PaymentPromiseCreatedEvent.EventType e = "PaymentPromiseCreatedEvent"%string ->
  exists w',
    consumer.processEvent env (Json.marshal e) w = Done tt w' /\
    emissions (trace w') = emissions (trace w) /\
    Db.payment_promises (db w') =
      Db.payment_promises (db w) ++
      (if exec_ok env (S (execs w)) then
         [ {| Db.pp_id := Utf8.toValidUTF8 (PaymentPromiseCreatedEvent.PromiseID e);
              Db.pp_order_id := Utf8.toValidUTF8 (PaymentPromiseCreatedEvent.OrderID e);
              Db.pp_user_id := Utf8.toValidUTF8 (PaymentPromiseCreatedEvent.UserID e);
              Db.pp_amount := 3500;
              Db.pp_due_date := Utf8.toValidUTF8 (PaymentPromiseCreatedEvent.DueDate e);
              Db.pp_payment_mode :=
                Utf8.toValidUTF8 (PaymentPromiseCreatedEvent.PaymentMode e) |} ]
       else []).
Proof.
  intros Ht.
  destruct (emitted_promise_read e eq_refl) as [Hd Hu]. rewrite Ht in Hd.
  change (Utf8.toValidUTF8 "PaymentPromiseCreatedEvent") with "PaymentPromiseCreatedEvent"%string in Hd.
  rewrite (processEvent_decoded env _ _ w Hd).
  cbn [String.eqb Ascii.eqb Bool.eqb].
  unfold consumer.onPaymentPromiseCreated. rewrite Hu.
  destruct e. unfold sanitize. cbn [fold_left Json.fields PaymentPromiseCreatedEvent.json
    Json.fset Json.fget string_field sanitize_field
    PaymentPromiseCreatedEvent.EventType PaymentPromiseCreatedEvent.PromiseID
    PaymentPromiseCreatedEvent.OrderID PaymentPromiseCreatedEvent.UserID
    PaymentPromiseCreatedEvent.DueDate PaymentPromiseCreatedEvent.PaymentMode].
  go_run; (eexists; split; [reflexivity|]); go_simpl;
    (split; [unfold emissions; rewrite !collect_app; cbn [collect emission app];
             rewrite ?app_nil_r; reflexivity|]);
    cbn [Db.apply Db.payment_promises]; rewrite ?app_nil_r; reflexivity.
Qed.

(** X13.  One step of the saga, across the stream: the record a decoded
    purchase makes [processEvent] publish, once a consumer reads it, falls
    into the promise branch, publishes nothing further, and, when the
    insert is accepted, adds exactly one promise row: the generated promise
    id, the order and user of the purchase (each as coerced on the wire),
    the due date, the fixed payment mode, and the amount 3500, whatever
    the amount of the purchase was. *)
Theorem purchase_becomes_promise_row env record w (purchaseEvent : PurchaseCompletedEvent.t)
        reader_env reader_w :
  discriminator record = Some "PurchaseCompletedEvent" ->
  Json.unmarshal record = Some purchaseEvent ->
  exec_ok reader_env (S (execs reader_w)) = true ->
  exists emitted,
    emissions (trace (world_of (consumer.processEvent env record w)))
      = emissions (trace w) ++ [emitted] /\
    emissions (trace (world_of (consumer.processEvent reader_env emitted reader_w)))
      = emissions (trace reader_w) /\
    Db.payment_promises (db (world_of (consumer.processEvent reader_env emitted reader_w)))
      = Db.payment_promises (db reader_w) ++
        [ {| Db.pp_id := Utf8.toValidUTF8 (uuid_at env (S (uuids w)));
             Db.pp_order_id :=
               Utf8.toValidUTF8 (PurchaseCompletedEvent.OrderID purchaseEvent);
             Db.pp_user_id :=
               Utf8.toValidUTF8 (PurchaseCompletedEvent.UserID purchaseEvent);
             Db.pp_amount := 3500;
             Db.pp_due_date :=
               time.Format_date
                 (zone_offset env (now_at env (nows w) + 30 * 24 * 3600))
                 (now_at env (nows w) + 30 * 24 * 3600);
             Db.pp_payment_mode := "月まとめ払い" |} ].
Proof.
  intros Hd Hu Hok.
  destruct (purchase_run env record w purchaseEvent Hd Hu) as (w1 & Hr1 & He1 & _).
  exists (Json.marshal (promised env (S (uuids w)) (nows w) purchaseEvent)).
  rewrite Hr1. cbn [world_of]. split; [exact He1|].
  destruct (promise_record_run reader_env
              (promised env (S (uuids w)) (nows w) purchaseEvent) reader_w eq_refl)
    as (w2 & Hr2 & He2 & Hp2).
  rewrite Hr2. cbn [world_of]. split; [exact He2|].
  rewrite Hp2, Hok. unfold promised.
  cbn [PaymentPromiseCreatedEvent.PromiseID PaymentPromiseCreatedEvent.OrderID
       PaymentPromiseCreatedEvent.UserID PaymentPromiseCreatedEvent.DueDate
       PaymentPromiseCreatedEvent.PaymentMode].
  rewrite Format_date_on_wire. reflexivity.
Qed.

Lemma purchase_becomes_promise_row_witness :
  exists emitted,
    emissions (trace (world_of (consumer.processEvent Sample.env Sample.purchase Sample.start)))
      = [emitted] /\
    Db.payment_promises
      (db (world_of (consumer.processEvent Sample.env emitted Sample.with_bill)))
      = [ {| Db.pp_id := "id-1"; Db.pp_order_id := "o1"; Db.pp_user_id := "u1";
             Db.pp_amount := 3500; Db.pp_due_date := "2024-01-31";
             Db.pp_payment_mode := "月まとめ払い" |} ].
Proof.
  destruct (purchase_becomes_promise_row Sample.env Sample.purchase Sample.start
              Sample.purchase_event Sample.env Sample.with_bill eq_refl eq_refl eq_refl)
    as (emitted & He & _ & Hp).
  exists emitted. split; [exact He|exact Hp].
Defined.

(** X14.  The due date, as a calendar fact.  When the local zone has the
    same offset at processing time and 720 hours later, the due date
    stamped on the promise is the calendar date exactly 30 days after the
    local date of processing: its day number is that of the processing
    date plus 30, its month and day are in range, and it is written as
    year, month and day joined by dashes. *)
Theorem due_date_is_thirty_days_on env record w (purchaseEvent : PurchaseCompletedEvent.t) :
  discriminator record = Some "PurchaseCompletedEvent" ->
  Json.unmarshal record = Some purchaseEvent ->
  zone_offset env (now_at env (nows w) + 30 * 24 * 3600) = zone_offset env (now_at env (nows w)) ->
  exists y m d,
    emissions (trace (world_of (consumer.processEvent env record w))) =
      emissions (trace w) ++
      [Json.marshal
         {| PaymentPromiseCreatedEvent.EventType := "PaymentPromiseCreatedEvent";
            PaymentPromiseCreatedEvent.PromiseID := uuid_at env (S (uuids w));
            PaymentPromiseCreatedEvent.OrderID := PurchaseCompletedEvent.OrderID purchaseEvent;
            PaymentPromiseCreatedEvent.UserID := PurchaseCompletedEvent.UserID purchaseEvent;
            PaymentPromiseCreatedEvent.DueDate :=
              (time.appendInt y 4 ++ "-" ++ time.appendInt m 2 ++ "-" ++ time.appendInt d 2)%string;
            PaymentPromiseCreatedEvent.PaymentMode := "月まとめ払い" |}] /\
    time.days_of_civil y m d =
      local_day (zone_offset env (now_at env (nows w))) (now_at env (nows w)) + 30 /\
    1 <= m <= 12 /\
    1 <= d <= time.days_in_month y m.
Proof.
  intros Hd Hu Hz.
  destruct (purchase_run env record w purchaseEvent Hd Hu) as (w1 & Hr1 & He1 & _).
  rewrite Hr1. cbn [world_of]. rewrite He1. unfold promised, time.Add, time.Hour, time.Second.
  replace (30 * 24 * (3600 * 1)) with (30 * 24 * 3600) by reflexivity.
  rewrite Hz. unfold time.Format_date, local_day.
  set (t := now_at env (nows w)). set (off := zone_offset env t).
  replace ((t + 30 * 24 * 3600 + off) / 86400) with ((t + off) / 86400 + 30)
    by (replace (t + 30 * 24 * 3600 + off) with (t + off + 30 * 86400) by lia;
        now rewrite Z.div_add by lia).
  pose proof (civil_of_days_correct ((t + off) / 86400 + 30)) as Hc.
  destruct (time.civil_of_days ((t + off) / 86400 + 30)) as [[y m] d].
  destruct Hc as (Hm & Hdd & Hn).
  exists y, m, d. repeat split; try assumption; lia.
Qed.

Lemma due_date_is_thirty_days_on_witness :
  exists y m d,
    emissions (trace (world_of (consumer.processEvent Sample.env Sample.purchase Sample.start))) =
      [Json.marshal
         (PaymentPromiseCreatedEvent.mk "PaymentPromiseCreatedEvent" "id-1" "o1" "u1"
            (time.appendInt y 4 ++ "-" ++ time.appendInt m 2 ++ "-" ++ time.appendInt d 2)%string
            "月まとめ払い")] /\
    time.days_of_civil y m d = 19723 + 30.
Proof.
  destruct (due_date_is_thirty_days_on Sample.env Sample.purchase Sample.start
              Sample.purchase_event eq_refl eq_refl eq_refl) as (y & m & d & He & Hn & _).
  exists y, m, d. split; [exact He|exact Hn].
Defined.

(* ================================================================== *)
(** * More on the stream reader *)
(* ================================================================== *)

(** X15.  If any step before the polling loop fails (SDK configuration,
    database handle, websocket dial, shard discovery, an empty shard list,
    the shard iterator), [main] ends with exit status 1 whatever the
    number of iterations allowed, without a single poll, SQL statement,
    put or websocket write, with the database as it was, and without
    running the deferred closes. *)
Theorem failed_startup_does_nothing env fuel w :
  load_config env = false \/ sql_open env = false \/ ws_dial env = false \/
  describe_stream env = None \/ describe_stream env = Some [] \/
  shard_iterator env = None ->
  fst (reader.main env fuel w) = reader.Exit1 /\
  db (snd (reader.main env fuel w)) = db w /\
  polls (snd (reader.main env fuel w)) = polls w /\
  exists delta,
    trace (snd (reader.main env fuel w)) = trace w ++ delta /\
    collect polled delta = [] /\
    statements delta = [] /\ emissions delta = [] /\ signals delta = [] /\
    ~ In ECloseDb delta /\ ~ In ECloseWs delta.
Proof.
  unfold reader.main, reader.fatal.
  destruct (load_config env), (sql_open env), (ws_dial env); cbn [negb];
    try (intros _; repeat split; eexists; (split; [reflexivity|]);
         repeat split; cbn; intuition discriminate).
  destruct (describe_stream env) as [[|shard more]|];
    try (intros _; repeat split; eexists;
         (split; [cbn [trace emit snd]; rewrite <- ?app_assoc; reflexivity|]);
         repeat split; cbn; intuition discriminate).
  destruct (shard_iterator env) as [it|].
  - intros H. exfalso. repeat (destruct H as [H|H]; [discriminate H|]). discriminate H.
  - intros _. repeat split; eexists;
      (split; [cbn [trace emit snd]; rewrite <- ?app_assoc; reflexivity|]);
      repeat split; cbn; intuition discriminate.
Qed.

Lemma failed_startup_does_nothing_witness :
  fst (reader.main Sample.iteratorless_env 7 Sample.with_bill) = reader.Exit1 /\
  db (snd (reader.main Sample.iteratorless_env 7 Sample.with_bill)) = db Sample.with_bill.
Proof.
  destruct (failed_startup_does_nothing Sample.iteratorless_env 7 Sample.with_bill)
    as (H1 & H2 & _).
  - right. right. right. right. right. reflexivity.
  - split; assumption.
Defined.

Lemma processEvent_quiet env record w :
  exists delta,
    trace (world_of (consumer.processEvent env record w)) = trace w ++ delta /\
    collect polled delta = [] /\ collect slept delta = [].
Proof.
  processEvent_cases env record w;
    (eexists; split; [go_trace|split; reflexivity]).
Qed.

Lemma processRecords_quiet env records : forall w,
  exists delta,
    trace (world_of (consumer.processRecords env records w)) = trace w ++ delta /\
    collect polled delta = [] /\ collect slept delta = [].
Proof.
  induction records as [|r rest IH]; intros w.
  - exists []. cbn. now rewrite app_nil_r.
  - cbn [consumer.processRecords]. unfold bind at 1.
    destruct (processEvent_quiet env r w) as (d1 & Ht1 & Hp1 & Hs1).
    destruct (consumer.processEvent env r w) as [[] w1|msg w1]; cbn [world_of] in *.
    + destruct (IH w1) as (d2 & Ht2 & Hp2 & Hs2).
      exists (d1 ++ d2). rewrite Ht2, Ht1, app_assoc, !collect_app, Hp1, Hp2, Hs1, Hs2.
      repeat split.
    + exists d1. repeat split; assumption.
Qed.

(** X16.  While polls succeed, the loop hands each [GetRecords] call the
    iterator the poll before returned (the first call gets the one from
    [GetShardIterator]), makes exactly one call per iteration, and sleeps
    one second after each batch: after [k] polls that each return a batch
    and a next iterator, the iterators asked for are those [k], in order,
    and [k] pauses of one second were taken. *)
Theorem loop_follows_the_cursor env k : forall it w,
  polls_ok env (polls w) k ->
  fst (reader.loop env k it w) = reader.Running /\
  polls (snd (reader.loop env k it w)) = (polls w + k)%nat /\
  collect polled (trace (snd (reader.loop env k it w))) =
    collect polled (trace w) ++ cursors env (polls w) it k /\
  collect slept (trace (snd (reader.loop env k it w))) =
    collect slept (trace w) ++ repeat (1 * time.Second) k.
Proof.
  induction k as [|k IH]; intros it w Hok.
  - cbn. rewrite !app_nil_r. repeat split. lia.
  - destruct (Hok O ltac:(lia)) as (out & next & Hg & Hn & Hh).
    rewrite Nat.add_0_r in Hg.
    destruct (processRecords_healthy env (Records out)
                (reader.count_poll (emit (EGetRecords it) w)) Hh) as (w2 & Hrun & Hp).
    destruct (processRecords_quiet env (Records out)
                (reader.count_poll (emit (EGetRecords it) w))) as (d & Ht & Hpd & Hsd).
    rewrite Hrun in Ht. cbn [world_of] in Ht.
    rewrite (loop_next env k it w out next w2 Hg Hn Hrun).
    cbn [polls reader.count_poll emit] in Hp.
    destruct (IH (Some next) (emit (ESleep (1 * time.Second)) w2)) as (Hf & Hpl & Hc & Hs).
    + intros i Hi. destruct (Hok (S i) ltac:(lia)) as (o & n & Ho & Hno & Hho).
      exists o, n. repeat split; try assumption.
      cbn [polls emit]. rewrite Hp, <- Ho. f_equal. lia.
    + split; [exact Hf|]. cbn [polls emit] in Hpl, Hc. split; [rewrite Hpl, Hp; lia|].
      rewrite Hc, Hs. cbn [trace emit reader.count_poll] in *. rewrite Ht.
      rewrite !collect_app, Hpd, Hsd. cbn [collect polled slept app cursors repeat].
      rewrite !app_nil_r, Hp. unfold next_at. rewrite Hg, Hn.
      rewrite <- !app_assoc. cbn [app]. split; reflexivity.
Qed.

Lemma loop_follows_the_cursor_witness :
  collect polled (trace (snd (reader.loop Sample.closing_env 1 (Some "it-0"%string) Sample.start)))
  = [Some "it-0"%string] /\
  collect slept (trace (snd (reader.loop Sample.closing_env 1 (Some "it-0"%string) Sample.start)))
  = [1].
Proof.
  destruct (loop_follows_the_cursor Sample.closing_env 1 (Some "it-0"%string) Sample.start
              (sample_polls_ok Sample.closing_env _ _ eq_refl eq_refl eq_refl))
    as (_ & _ & Hc & Hs).
  split; [exact Hc|exact Hs].
Defined.

(* ================================================================== *)
(** * The command intake: the three [POST] handlers *)
(* ================================================================== *)

Ltac handler_run :=
  go_run; (eexists; split; [reflexivity|]); go_simpl;
  repeat split;
  try (unfold emissions; rewrite !collect_app; cbn [collect emission app];
       rewrite ?app_nil_r; reflexivity).

(** X17.  How each of the three command handlers answers, for any body.
    A body whose first JSON value does not bind (or that has none) is
    answered 400 and leaves the world exactly as it was (no draw, no clock
    reading, no put, no log line).  A body whose first value binds leads
    to exactly one put; the answer is 200 when the put succeeds and 500
    when it fails.  No handler touches the database.  Text after the first
    value plays no part: the body is answered as the first value alone
    would be. *)
Theorem intake_answers env body w :
  (exists w',
      server.postPurchase env body w =
        Done (match Json.decode body : option commands.PurchaseCommand.t with
              | None => 400
              | Some _ => if put_ok env (puts w) then 200 else 500
              end) w' /\
      db w' = db w /\
      puts w' = (if is_some (Json.decode body : option commands.PurchaseCommand.t)
                 then S (puts w) else puts w) /\
      (Json.decode body = (None : option commands.PurchaseCommand.t) -> w' = w)) /\
  (exists w',
      server.postCreateBillImmediate env body w =
        Done (match Json.decode body : option commands.CreateMemberBillCommand.t with
              | None => 400
              | Some _ => if put_ok env (puts w) then 200 else 500
              end) w' /\
      db w' = db w /\
      puts w' = (if is_some (Json.decode body : option commands.CreateMemberBillCommand.t)
                 then S (puts w) else puts w) /\
      (Json.decode body = (None : option commands.CreateMemberBillCommand.t) -> w' = w)) /\
  (exists w',
      server.postPaymentCompleted env body w =
        Done (match Json.decode body : option server.webhookPayload.t with
              | None => 400
              | Some _ => if put_ok env (puts w) then 200 else 500
              end) w' /\
      db w' = db w /\
      puts w' = (if is_some (Json.decode body : option server.webhookPayload.t)
                 then S (puts w) else puts w) /\
      (Json.decode body = (None : option server.webhookPayload.t) -> w' = w)) /\
  (forall v rest,
      server.postPurchase env (Json.Followed v rest) w =
        server.postPurchase env (Json.Doc v) w /\
      server.postCreateBillImmediate env (Json.Followed v rest) w =
        server.postCreateBillImmediate env (Json.Doc v) w /\
      server.postPaymentCompleted env (Json.Followed v rest) w =
        server.postPaymentCompleted env (Json.Doc v) w).
Proof.
  split; [|split; [|split]]; [| | |intros v rest; repeat split; reflexivity].
  - unfold server.postPurchase.
    destruct (Json.decode body : option commands.PurchaseCommand.t);
      go_run; (eexists; split; [reflexivity|]); go_simpl; cbn [is_some];
      repeat split; discriminate.
  - unfold server.postCreateBillImmediate.
    destruct (Json.decode body : option commands.CreateMemberBillCommand.t);
      go_run; (eexists; split; [reflexivity|]); go_simpl; cbn [is_some];
      repeat split; discriminate.
  - unfold server.postPaymentCompleted.
    destruct (Json.decode body : option server.webhookPayload.t);
      go_run; (eexists; split; [reflexivity|]); go_simpl; cbn [is_some];
      repeat split; discriminate.
Qed.

Lemma intake_answers_witness :
  server.postPurchase Sample.env Scenario.garbage Sample.start = Done 400 Sample.start /\
  (exists w',
      server.postPaymentCompleted Sample.env Scenario.webhook_body Sample.start = Done 200 w' /\
      puts w' = 1%nat) /\
  (exists w',
      server.postPurchase Sample.env Scenario.trailing_body Sample.start = Done 200 w' /\
      puts w' = 1%nat).
Proof.
  destruct (intake_answers Sample.env Scenario.garbage Sample.start)
    as ((w1 & Hr1 & _ & _ & Hsame) & _ & _ & _).
  destruct (intake_answers Sample.env Scenario.webhook_body Sample.start)
    as (_ & _ & (w3 & Hr3 & _ & Hp & _) & _).
  destruct (intake_answers Sample.env Scenario.trailing_body Sample.start)
    as ((w4 & Hr4 & _ & Hp4 & _) & _ & _ & _).
  split; [|split].
  - rewrite (Hsame eq_refl) in Hr1. exact Hr1.
  - exists w3. split; [exact Hr3|exact Hp].
  - exists w4. split; [exact Hr4|exact Hp4].
Defined.

(** The run of the bill handler on a body that binds. *)
Lemma bill_command_run env body w (cmd : commands.CreateMemberBillCommand.t) :
  Json.decode body = Some cmd ->
  exists w',
    server.postCreateBillImmediate env body w =
      Done (if put_ok env (puts w) then 200 else 500) w' /\
    emissions (trace w') =
      emissions (trace w) ++
      [Json.marshal
         {| MemberBillCreatedEvent.EventType := "MemberBillCreatedEvent";
            MemberBillCreatedEvent.BillID := uuid_at env (uuids w);
            MemberBillCreatedEvent.PromiseID := commands.CreateMemberBillCommand.PromiseID cmd;
            MemberBillCreatedEvent.UserID := commands.CreateMemberBillCommand.UserID cmd;
            MemberBillCreatedEvent.Amount := commands.CreateMemberBillCommand.Amount cmd;
            MemberBillCreatedEvent.IssuedDate :=
              time.Format_date (zone_offset env (now_at env (nows w))) (now_at env (nows w)) |}] /\
    uuids w' = S (uuids w).
Proof.
  intros Hu. unfold server.postCreateBillImmediate. rewrite Hu. handler_run.
Qed.

(** The run of the webhook on a body that binds. *)
Lemma webhook_run env body w (payload : server.webhookPayload.t) :
  Json.decode body = Some payload ->
  exists w',
    server.postPaymentCompleted env body w =
      Done (if put_ok env (puts w) then 200 else 500) w' /\
    emissions (trace w') =
      emissions (trace w) ++
      [Json.marshal
         {| PaymentCompletedEvent.EventType := "PaymentCompletedEvent";
            PaymentCompletedEvent.BillID := server.webhookPayload.BillID payload;
            PaymentCompletedEvent.UserID := server.webhookPayload.UserID payload;
            PaymentCompletedEvent.Amount := server.webhookPayload.Amount payload;
            PaymentCompletedEvent.PaidDate :=
              time.Format_date (zone_offset env (now_at env (nows w))) (now_at env (nows w)) |}] /\
    uuids w' = uuids w.
Proof.
  intros Hu. unfold server.postPaymentCompleted. rewrite Hu. handler_run.
Qed.

(* ================================================================== *)
(** * From a command to a row: the saga across the stream *)
(* ================================================================== *)

(** A struct that came out of a JSON decode has its integers in range. *)
Ltac decoded_ints_step :=
  let m := fresh "m" in
  let IH := fresh "IH" in
  let k := fresh "k" in
  let v := fresh "v" in
  let x := fresh "x" in
  let ok := fresh "ok" in
  let Hx := fresh "Hx" in
  intros m; induction m as [|[k v] m IH]; intros [x ok] Hx; [exact Hx|];
  cbn [Json.decode_members]; apply IH; clear IH;
  cbn [fst] in Hx;
  unfold Json.find_field; cbn [find Json.fields Json.fname string_field int_field
    commands.CreateMemberBillCommand.json commands.PurchaseCommand.json
    server.webhookPayload.json];
  repeat match goal with
         | |- context [if String.eqb ?a ?b then _ else _] => destruct (String.eqb a b)
         end;
  cbn [Json.fkind Json.fset fst snd]; try exact Hx;
  destruct v as [| |[z|mm ee]| | |]; cbn [Json.store fst snd]; try exact Hx;
  try (destruct (Json.is_int z) eqn:?; cbn [fst snd]; try exact Hx);
  destruct x; unfold ints_ok in *; cbn in *;
  repeat match goal with
         | H : Json.is_int _ = true |- _ => rewrite H; clear H
         end;
  try assumption; reflexivity.

Lemma bill_command_decode_ints : forall m acc,
  ints_ok (fst acc) = true ->
  ints_ok (fst (Json.decode_members
                  (Json.fields (T := commands.CreateMemberBillCommand.t)) m acc)) = true.
Proof. decoded_ints_step. Qed.

Lemma webhook_decode_ints : forall m acc,
  ints_ok (fst acc) = true ->
  ints_ok (fst (Json.decode_members
                  (Json.fields (T := server.webhookPayload.t)) m acc)) = true.
Proof. decoded_ints_step. Qed.

Lemma purchase_command_decode_ints : forall m acc,
  ints_ok (fst acc) = true ->
  ints_ok (fst (Json.decode_members
                  (Json.fields (T := commands.PurchaseCommand.t)) m acc)) = true.
Proof. decoded_ints_step. Qed.

Ltac bound_ints lemma :=
  unfold Json.decode, Json.unmarshal;
  destruct (Json.checkValid _) as [[| | | | |m]|]; try discriminate;
  [ intros [= <-]; reflexivity
  | pose proof (lemma m (Json.zero, true) eq_refl) as H;
    destruct (Json.decode_members Json.fields m (Json.zero, true)) as [x ok];
    destruct ok; [intros [= <-]; exact H|discriminate] ].

Lemma bound_bill_command_ints body (cmd : commands.CreateMemberBillCommand.t) :
  Json.decode body = Some cmd -> ints_ok cmd = true.
Proof. bound_ints bill_command_decode_ints. Qed.

Lemma bound_webhook_ints body (payload : server.webhookPayload.t) :
  Json.decode body = Some payload -> ints_ok payload = true.
Proof. bound_ints webhook_decode_ints. Qed.

Lemma bound_purchase_command_ints body (cmd : commands.PurchaseCommand.t) :
  Json.decode body = Some cmd -> ints_ok cmd = true.
Proof. bound_ints purchase_command_decode_ints. Qed.

(** The run of the purchase handler on a body that binds. *)
Lemma purchase_command_run env body w (cmd : commands.PurchaseCommand.t) :
  Json.decode body = Some cmd ->
  exists w',
    server.postPurchase env body w =
      Done (if put_ok env (puts w) then 200 else 500) w' /\
    emissions (trace w') =
      emissions (trace w) ++ [Json.marshal (server.purchaseEvent cmd)] /\
    uuids w' = uuids w.
Proof.
  intros Hu. unfold server.postPurchase. rewrite Hu. handler_run.
Qed.

(** The run of [processEvent] on the record of a bill event. *)
Lemma bill_record_run env (e : MemberBillCreatedEvent.t) w :
  MemberBillCreatedEvent.EventType e = "MemberBillCreatedEvent"%string ->
  ints_ok e = true ->
  exists w',
    consumer.processEvent env (Json.marshal e) w = Done tt w' /\
    emissions (trace w') = emissions (trace w) /\
    Db.member_bills (db w') =
      Db.member_bills (db w) ++
      (if exec_ok env (S (execs w)) then
         [ {| Db.mb_id := Utf8.toValidUTF8 (MemberBillCreatedEvent.BillID e);
              Db.mb_promise_id := Utf8.toValidUTF8 (MemberBillCreatedEvent.PromiseID e);
              Db.mb_user_id := Utf8.toValidUTF8 (MemberBillCreatedEvent.UserID e);
              Db.mb_amount := MemberBillCreatedEvent.Amount e;
              Db.mb_status := "unpaid";
              Db.mb_issued_date := Utf8.toValidUTF8 (MemberBillCreatedEvent.IssuedDate e);
              Db.mb_paid_date := None |} ]
       else []).
Proof.
  intros Ht Hi.
  destruct (emitted_bill_read e Hi) as [Hd Hu]. rewrite Ht in Hd.
  change (Utf8.toValidUTF8 "MemberBillCreatedEvent") with "MemberBillCreatedEvent"%string in Hd.
  rewrite (processEvent_decoded env _ _ w Hd).
  cbn [String.eqb Ascii.eqb Bool.eqb].
  unfold consumer.onMemberBillCreated. rewrite Hu.
  destruct e. unfold sanitize. cbn [fold_left Json.fields MemberBillCreatedEvent.json
    Json.fset Json.fget string_field int_field sanitize_field
    MemberBillCreatedEvent.EventType MemberBillCreatedEvent.BillID
    MemberBillCreatedEvent.PromiseID MemberBillCreatedEvent.UserID
    MemberBillCreatedEvent.Amount MemberBillCreatedEvent.IssuedDate].
  go_run; (eexists; split; [reflexivity|]); go_simpl;
    (split; [unfold emissions; rewrite !collect_app; cbn [collect emission app];
             rewrite ?app_nil_r; reflexivity|]);
    cbn [Db.apply Db.member_bills]; rewrite ?app_nil_r; reflexivity.
Qed.

(** The run of [processEvent] on the record of a payment event. *)
Lemma payment_record_run env (e : PaymentCompletedEvent.t) w :
  PaymentCompletedEvent.EventType e = "PaymentCompletedEvent"%string ->
  ints_ok e = true ->
  exists w',
    consumer.processEvent env (Json.marshal e) w = Done tt w' /\
    Db.member_bills (db w') =
      if exec_ok env (S (execs w))
      then map (Db.set_paid "paid" (Utf8.toValidUTF8 (PaymentCompletedEvent.PaidDate e))
                            (Utf8.toValidUTF8 (PaymentCompletedEvent.BillID e)))
               (Db.member_bills (db w))
      else Db.member_bills (db w).
Proof.
  intros Ht Hi.
  destruct (emitted_payment_read e Hi) as [Hd Hu]. rewrite Ht in Hd.
  change (Utf8.toValidUTF8 "PaymentCompletedEvent") with "PaymentCompletedEvent"%string in Hd.
  destruct (payment_run env _ w _ Hd Hu) as (w' & Hr & _ & Hb).
  exists w'. split; [exact Hr|]. rewrite Hb.
  destruct e. reflexivity.
Qed.

Lemma bill_event_ints (cmd : commands.CreateMemberBillCommand.t) ty id date :
  ints_ok cmd = true ->
  ints_ok (MemberBillCreatedEvent.mk ty id
             (commands.CreateMemberBillCommand.PromiseID cmd)
             (commands.CreateMemberBillCommand.UserID cmd)
             (commands.CreateMemberBillCommand.Amount cmd) date) = true.
Proof. destruct cmd. unfold ints_ok. cbn. now rewrite !andb_true_r. Qed.

Lemma payment_event_ints (payload : server.webhookPayload.t) ty date :
  ints_ok payload = true ->
  ints_ok (PaymentCompletedEvent.mk ty
             (server.webhookPayload.BillID payload)
             (server.webhookPayload.UserID payload)
             (server.webhookPayload.Amount payload) date) = true.
Proof. destruct payload. unfold ints_ok. cbn. now rewrite !andb_true_r. Qed.

Lemma purchase_event_ints (cmd : commands.PurchaseCommand.t) :
  ints_ok cmd = true -> ints_ok (server.purchaseEvent cmd) = true.
Proof. destruct cmd. unfold ints_ok. cbn. now rewrite !andb_true_r. Qed.

(** X18.  From the bill command to the bill row.  The record that
    [POST /create-bill/immediate] writes for a body that binds, once a
    consumer reads it, falls into the bill branch and, when the insert is
    accepted, adds exactly one row to [member_bills]: unpaid, without paid
    date, with the id the handler drew, the promise, user and amount of
    the command (strings as coerced on the wire) and the handler's local
    date as issue date. *)
Theorem bill_command_becomes_unpaid_row env body w (cmd : commands.CreateMemberBillCommand.t)
        reader_env reader_w :
  Json.decode body = Some cmd ->
  exec_ok reader_env (S (execs reader_w)) = true ->
  exists emitted,
    emissions (trace (world_of (server.postCreateBillImmediate env body w)))
      = emissions (trace w) ++ [emitted] /\
    Db.member_bills (db (world_of (consumer.processEvent reader_env emitted reader_w)))
      = Db.member_bills (db reader_w) ++
        [ {| Db.mb_id := Utf8.toValidUTF8 (uuid_at env (uuids w));
             Db.mb_promise_id :=
               Utf8.toValidUTF8 (commands.CreateMemberBillCommand.PromiseID cmd);
             Db.mb_user_id :=
               Utf8.toValidUTF8 (commands.CreateMemberBillCommand.UserID cmd);
             Db.mb_amount := commands.CreateMemberBillCommand.Amount cmd;
             Db.mb_status := "unpaid";
             Db.mb_issued_date :=
               time.Format_date (zone_offset env (now_at env (nows w))) (now_at env (nows w));
             Db.mb_paid_date := None |} ].
Proof.
  intros Hu Hok.
  destruct (bill_command_run env body w cmd Hu) as (w1 & Hr1 & He1 & _).
  eexists. rewrite Hr1. cbn [world_of]. split; [exact He1|].
  pose proof (bill_event_ints cmd "MemberBillCreatedEvent" (uuid_at env (uuids w))
                (time.Format_date (zone_offset env (now_at env (nows w))) (now_at env (nows w)))
                (bound_bill_command_ints body cmd Hu)) as Hi.
  match type of Hi with
  | ints_ok ?e = true =>
      destruct (bill_record_run reader_env e reader_w eq_refl Hi) as (w2 & Hr2 & _ & Hb2)
  end.
  rewrite Hr2. cbn [world_of]. rewrite Hb2, Hok.
  cbn [MemberBillCreatedEvent.BillID MemberBillCreatedEvent.PromiseID
       MemberBillCreatedEvent.UserID MemberBillCreatedEvent.Amount
       MemberBillCreatedEvent.IssuedDate].
  rewrite Format_date_on_wire. reflexivity.
Qed.

Lemma bill_command_becomes_unpaid_row_witness :
  exists emitted,
    emissions (trace (world_of
      (server.postCreateBillImmediate Sample.env Scenario.bill_body Sample.start))) = [emitted] /\
    Db.member_bills (db (world_of (consumer.processEvent Sample.env emitted Sample.start)))
      = [ {| Db.mb_id := "id-0"; Db.mb_promise_id := "p1"; Db.mb_user_id := "u1";
             Db.mb_amount := 3500; Db.mb_status := "unpaid";
             Db.mb_issued_date := "2024-01-01"; Db.mb_paid_date := None |} ].
Proof.
  destruct (bill_command_becomes_unpaid_row Sample.env Scenario.bill_body Sample.start
              Scenario.bill_cmd Sample.env Sample.start eq_refl eq_refl)
    as (emitted & He & Hb).
  exists emitted. split; [exact He|exact Hb].
Defined.

(** X19.  From the payment webhook to the paid bill.  The record that
    [POST /webhook/payment-completed] writes for a body that binds, once a
    consumer reads it and its update is accepted, turns every bill whose id
    is the body's bill id (as coerced on the wire) into a paid one, with
    the local date of the webhook call as paid date, and leaves all other
    bills as they were; the user id and the amount of the body play no
    part. *)
Theorem webhook_marks_bill_paid env body w (payload : server.webhookPayload.t)
        reader_env reader_w :
  Json.decode body = Some payload ->
  exec_ok reader_env (S (execs reader_w)) = true ->
  exists emitted,
    emissions (trace (world_of (server.postPaymentCompleted env body w)))
      = emissions (trace w) ++ [emitted] /\
    Db.member_bills (db (world_of (consumer.processEvent reader_env emitted reader_w)))
      = map (fun b =>
               if String.eqb (Db.mb_id b)
                             (Utf8.toValidUTF8 (server.webhookPayload.BillID payload))
               then paidRow (time.Format_date (zone_offset env (now_at env (nows w)))
                                              (now_at env (nows w))) b
               else b)
            (Db.member_bills (db reader_w)).
Proof.
  intros Hu Hok.
  destruct (webhook_run env body w payload Hu) as (w1 & Hr1 & He1 & _).
  eexists. rewrite Hr1. cbn [world_of]. split; [exact He1|].
  pose proof (payment_event_ints payload "PaymentCompletedEvent"
                (time.Format_date (zone_offset env (now_at env (nows w))) (now_at env (nows w)))
                (bound_webhook_ints body payload Hu)) as Hi.
  match type of Hi with
  | ints_ok ?e = true =>
      destruct (payment_record_run reader_env e reader_w eq_refl Hi) as (w2 & Hr2 & Hb2)
  end.
  rewrite Hr2. cbn [world_of]. rewrite Hb2, Hok.
  cbn [PaymentCompletedEvent.BillID PaymentCompletedEvent.PaidDate].
  rewrite Format_date_on_wire. reflexivity.
Qed.

Lemma webhook_marks_bill_paid_witness :
  exists emitted,
    emissions (trace (world_of
      (server.postPaymentCompleted Sample.env Scenario.webhook_body Sample.start))) = [emitted] /\
    Db.member_bills (db (world_of (consumer.processEvent Sample.env emitted
                                     (fresh_world Scenario.two_users))))
      = [ paidRow "2024-01-01" Sample.unpaid_bill; Scenario.paid_bill ].
Proof.
  destruct (webhook_marks_bill_paid Sample.env Scenario.webhook_body Sample.start
              Scenario.webhook_payload Sample.env (fresh_world Scenario.two_users)
              eq_refl eq_refl)
    as (emitted & He & Hb).
  exists emitted. split; [exact He|exact Hb].
Defined.

(** X20.  From the purchase command to the promise row, across two hops
    of the stream.  The record [POST /purchase] writes makes a consumer
    publish one promise record; a consumer that reads that one inserts,
    when the insert is accepted, exactly one promise row: the order id is
    ["order-"] followed by the command's user id, the user is the
    command's, the promise id is the one the first consumer drew, the due
    date is thirty days after the first consumer's clock, and the amount is
    3500 whatever amount the command named. *)
Theorem purchase_command_becomes_promise_row env body w (cmd : commands.PurchaseCommand.t)
        first_env first_w second_env second_w :
  Json.decode body = Some cmd ->
  exec_ok second_env (S (execs second_w)) = true ->
  exists purchase_record promise_record,
    emissions (trace (world_of (server.postPurchase env body w)))
      = emissions (trace w) ++ [purchase_record] /\
    emissions (trace (world_of (consumer.processEvent first_env purchase_record first_w)))
      = emissions (trace first_w) ++ [promise_record] /\
    Db.payment_promises
      (db (world_of (consumer.processEvent second_env promise_record second_w)))
      = Db.payment_promises (db second_w) ++
        [ {| Db.pp_id := Utf8.toValidUTF8 (uuid_at first_env (S (uuids first_w)));
             Db.pp_order_id :=
               Utf8.toValidUTF8 ("order-" ++ commands.PurchaseCommand.UserID cmd);
             Db.pp_user_id := Utf8.toValidUTF8 (commands.PurchaseCommand.UserID cmd);
             Db.pp_amount := 3500;
             Db.pp_due_date :=
               time.Format_date
                 (zone_offset first_env (now_at first_env (nows first_w) + 30 * 24 * 3600))
                 (now_at first_env (nows first_w) + 30 * 24 * 3600);
             Db.pp_payment_mode := "月まとめ払い" |} ].
Proof.
  intros Hu Hok.
  destruct (purchase_command_run env body w cmd Hu) as (w1 & Hr1 & He1 & _).
  destruct (emitted_purchase_read (server.purchaseEvent cmd)
              (purchase_event_ints cmd (bound_purchase_command_ints body cmd Hu)))
    as [Hd Hread].
  change (Utf8.toValidUTF8 (PurchaseCompletedEvent.EventType (server.purchaseEvent cmd)))
    with "PurchaseCompletedEvent"%string in Hd.
  destruct (purchase_run first_env _ first_w _ Hd Hread) as (w2 & Hr2 & He2 & _).
  destruct (promise_record_run second_env
              (promised first_env (S (uuids first_w)) (nows first_w)
                        (sanitize (server.purchaseEvent cmd))) second_w eq_refl)
    as (w3 & Hr3 & _ & Hp3).
  do 2 eexists. rewrite Hr1. cbn [world_of]. split; [exact He1|].
  rewrite Hr2. cbn [world_of]. split; [exact He2|].
  rewrite Hr3. cbn [world_of]. rewrite Hp3, Hok.
  unfold promised, server.purchaseEvent, sanitize.
  cbn [fold_left Json.fields PurchaseCompletedEvent.json
       Json.fset Json.fget string_field int_field sanitize_field
       PurchaseCompletedEvent.EventType PurchaseCompletedEvent.OrderID
       PurchaseCompletedEvent.UserID PurchaseCompletedEvent.Amount
       PaymentPromiseCreatedEvent.PromiseID PaymentPromiseCreatedEvent.OrderID
       PaymentPromiseCreatedEvent.UserID PaymentPromiseCreatedEvent.DueDate
       PaymentPromiseCreatedEvent.PaymentMode].
  rewrite Format_date_on_wire, !toValidUTF8_idempotent. reflexivity.
Qed.

Lemma purchase_command_becomes_promise_row_witness :
  exists purchase_record promise_record,
    emissions (trace (world_of
      (server.postPurchase Sample.env Sample.purchase_body Sample.start))) = [purchase_record] /\
    emissions (trace (world_of
      (consumer.processEvent Sample.env purchase_record Sample.start))) = [promise_record] /\
    Db.payment_promises
      (db (world_of (consumer.processEvent Sample.env promise_record Sample.start)))
      = [ {| Db.pp_id := "id-1"; Db.pp_order_id := "order-u1"; Db.pp_user_id := "u1";
             Db.pp_amount := 3500; Db.pp_due_date := "2024-01-31";
             Db.pp_payment_mode := "月まとめ払い" |} ].
Proof.
  destruct (purchase_command_becomes_promise_row Sample.env Sample.purchase_body Sample.start
              Sample.purchase_cmd Sample.env Sample.start Sample.env Sample.start
              eq_refl eq_refl)
    as (r1 & r2 & H1 & H2 & H3).
  exists r1, r2. split; [exact H1|]. split; [exact H2|exact H3].
Defined.

(* ================================================================== *)
(** * The status page *)
(* ================================================================== *)

Section StatusPage.
Variable column_time : string -> option Z.
Variable created_at : Db.PromiseRow -> option Z.

Lemma scanBills_shown rows : forall bills,
  server.scanBills column_time rows = Some bills -> Forall2 bill_shown rows bills.
Proof.
  induction rows as [|r rows IH]; cbn [server.scanBills]; intros bills H.
  - injection H as <-. constructor.
  - destruct (column_time (Db.mb_issued_date r)); [|discriminate].
    unfold server.scanPaidDate in H.
    destruct (Db.mb_paid_date r) as [paid|] eqn:Hp.
    + destruct (column_time paid); [|discriminate].
      destruct (server.scanBills column_time rows); [|discriminate].
      injection H as <-. constructor; [|now apply IH].
      unfold bill_shown; cbn. rewrite Hp. repeat split; discriminate.
    + destruct (server.scanBills column_time rows); [|discriminate].
      injection H as <-. constructor; [|now apply IH].
      unfold bill_shown; cbn. rewrite Hp. repeat split; reflexivity.
Qed.

Lemma scanPromises_shown rows : forall promises,
  server.scanPromises column_time created_at rows = Some promises ->
  Forall2 promise_shown rows promises.
Proof.
  induction rows as [|r rows IH]; cbn [server.scanPromises]; intros promises H.
  - injection H as <-. constructor.
  - destruct (column_time (Db.pp_due_date r)); [|discriminate].
    destruct (created_at r); [|discriminate].
    destruct (server.scanPromises column_time created_at rows); [|discriminate].
    injection H as <-. constructor; [|now apply IH].
    unfold promise_shown; cbn. repeat split.
Qed.

Lemma scanBills_firstn n : forall rows bills,
  server.scanBills column_time rows = Some bills ->
  server.scanBills column_time (firstn n rows) = Some (firstn n bills).
Proof.
  induction n as [|n IH]; intros rows bills H; [reflexivity|].
  destruct rows as [|r rows]; cbn [server.scanBills firstn] in *.
  - injection H as <-. reflexivity.
  - destruct (column_time (Db.mb_issued_date r)); [|discriminate].
    destruct (server.scanPaidDate column_time (Db.mb_paid_date r)); [|discriminate].
    destruct (server.scanBills column_time rows) as [rest|] eqn:Hr; [|discriminate].
    injection H as <-. now rewrite (IH rows rest Hr).
Qed.

Lemma scanPromises_firstn n : forall rows promises,
  server.scanPromises column_time created_at rows = Some promises ->
  server.scanPromises column_time created_at (firstn n rows) = Some (firstn n promises).
Proof.
  induction n as [|n IH]; intros rows promises H; [reflexivity|].
  destruct rows as [|r rows]; cbn [server.scanPromises firstn] in *.
  - injection H as <-. reflexivity.
  - destruct (column_time (Db.pp_due_date r)); [|discriminate].
    destruct (created_at r); [|discriminate].
    destruct (server.scanPromises column_time created_at rows) as [rest|] eqn:Hr;
      [|discriminate].
    injection H as <-. now rewrite (IH rows rest Hr).
Qed.

Lemma scanBills_app a : forall b bills_a bills_b,
  server.scanBills column_time a = Some bills_a ->
  server.scanBills column_time b = Some bills_b ->
  server.scanBills column_time (a ++ b) = Some (bills_a ++ bills_b).
Proof.
  induction a as [|r a IH]; cbn [server.scanBills app]; intros b bills_a bills_b Ha Hb.
  - injection Ha as <-. exact Hb.
  - destruct (column_time (Db.mb_issued_date r)); [|discriminate].
    destruct (server.scanPaidDate column_time (Db.mb_paid_date r)); [|discriminate].
    destruct (server.scanBills column_time a) as [rest|] eqn:Hr; [|discriminate].
    injection Ha as <-. now rewrite (IH b rest bills_b eq_refl Hb).
Qed.

(** Scanning the same rows in another order gives the same entries in
    that other order. *)
Lemma scanBills_perm rows rows' :
  Permutation rows rows' ->
  forall bills,
    server.scanBills column_time rows = Some bills ->
    exists bills',
      server.scanBills column_time rows' = Some bills' /\ Permutation bills bills'.
Proof.
  induction 1 as [|r rows rows' Hp IH|r1 r2 rows|rows1 rows2 rows3 H12 IH12 H23 IH23];
    intros bills H.
  - exists bills. now split.
  - cbn [server.scanBills] in *.
    destruct (column_time (Db.mb_issued_date r)); [|discriminate].
    destruct (server.scanPaidDate column_time (Db.mb_paid_date r)); [|discriminate].
    destruct (server.scanBills column_time rows) as [rest|]; [|discriminate].
    injection H as <-.
    destruct (IH rest eq_refl) as (rest' & -> & Hrest).
    eexists. split; [reflexivity|]. now constructor.
  - cbn [server.scanBills] in *.
    destruct (column_time (Db.mb_issued_date r2)); [|discriminate].
    destruct (server.scanPaidDate column_time (Db.mb_paid_date r2)); [|discriminate].
    destruct (column_time (Db.mb_issued_date r1)); [|discriminate].
    destruct (server.scanPaidDate column_time (Db.mb_paid_date r1)); [|discriminate].
    destruct (server.scanBills column_time rows) as [rest|]; [|discriminate].
    injection H as <-.
    eexists. split; [reflexivity|]. apply perm_swap.
  - destruct (IH12 bills H) as (bills2 & H2 & Hp2).
    destruct (IH23 bills2 H2) as (bills3 & H3 & Hp3).
    exists bills3. split; [exact H3|]. now transitivity bills2.
Qed.

Lemma scanBills_set_paid paid_date id t rows : forall bills,
  column_time paid_date = Some t ->
  server.scanBills column_time rows = Some bills ->
  server.scanBills column_time (map (Db.set_paid "paid" paid_date id) rows) =
    Some (map (pay_view id (time.Format_date 0 t)) bills).
Proof.
  intros bills Ht. revert bills.
  induction rows as [|r rows IH]; cbn [server.scanBills map]; intros bills H.
  - injection H as <-. reflexivity.
  - destruct (column_time (Db.mb_issued_date r)) as [issued|] eqn:Hi; [|discriminate].
    destruct (server.scanPaidDate column_time (Db.mb_paid_date r)) as [paid|] eqn:Hp;
      [|discriminate].
    destruct (server.scanBills column_time rows) as [rest|] eqn:Hr; [|discriminate].
    injection H as <-. rewrite (IH rest eq_refl).
    unfold Db.set_paid, pay_view. cbn [map server.bill_billId].
    destruct (String.eqb (Db.mb_id r) id);
      cbn [Db.mb_issued_date Db.mb_paid_date Db.mb_id Db.mb_amount Db.mb_status
           server.scanPaidDate server.bill_amount server.bill_issuedDate server.bill_billId];
      rewrite Hi, ?Ht, ?Hp; reflexivity.
Qed.

Lemma bills_of_set_paid status paid_date id userId rows :
  filter (fun r => String.eqb (Db.mb_user_id r) userId)
         (map (Db.set_paid status paid_date id) rows) =
  map (Db.set_paid status paid_date id)
      (filter (fun r => String.eqb (Db.mb_user_id r) userId) rows).
Proof.
  induction rows as [|r rows IH]; [reflexivity|].
  cbn [map filter].
  replace (Db.mb_user_id (Db.set_paid status paid_date id r)) with (Db.mb_user_id r)
    by (unfold Db.set_paid; now destruct (String.eqb (Db.mb_id r) id)).
  destruct (String.eqb (Db.mb_user_id r) userId); cbn [map]; now rewrite IH.
Qed.

Lemma delivered_map {A B} (f : A -> B) stop_after (rows : list A) :
  server.delivered stop_after (map f rows) = map f (server.delivered stop_after rows).
Proof. destruct stop_after; cbn; [apply firstn_map|reflexivity]. Qed.

Lemma delivered_In {A} stop_after (rows : list A) x :
  In x (server.delivered stop_after rows) -> In x rows.
Proof.
  destruct stop_after as [n|]; cbn [server.delivered]; [|trivial].
  intros H. rewrite <- (firstn_skipn n rows). apply in_or_app. now left.
Qed.

(** The order names rows by position: it commutes with any change made
    to each row in place, and it returns selected rows only. *)
Lemma arranged_map {A B} (f : A -> B) order (rows : list A) :
  server.arranged order (map f rows) = map f (server.arranged order rows).
Proof.
  unfold server.arranged.
  induction order as [|i order IH]; [reflexivity|].
  cbn [flat_map]. rewrite map_app, IH, nth_error_map.
  now destruct (nth_error rows i).
Qed.

Lemma arranged_In {A} order (rows : list A) x :
  In x (server.arranged order rows) -> In x rows.
Proof.
  unfold server.arranged. rewrite in_flat_map.
  intros (i & _ & Hx).
  destruct (nth_error rows i) as [r|] eqn:Hr; [|contradiction].
  destruct Hx as [<-|[]]. eapply nth_error_In, Hr.
Qed.

Lemma arranged_positions {A} (rows : list A) :
  server.arranged (seq 0 (length rows)) rows = rows.
Proof.
  unfold server.arranged.
  induction rows as [|r rows IH]; [reflexivity|].
  cbn [length seq flat_map nth_error app]. f_equal.
  rewrite <- seq_shift, flat_map_concat_map, map_map, <- flat_map_concat_map.
  exact IH.
Qed.

Lemma returns_all_perm order n :
  returns_all order n = true -> Permutation order (seq 0 n).
Proof.
  unfold returns_all. rewrite andb_true_iff, forallb_forall.
  intros [Hlen Hall]. apply Nat.eqb_eq in Hlen.
  symmetry. apply NoDup_Permutation_bis.
  - apply seq_NoDup.
  - rewrite length_seq, Hlen. apply le_n.
  - intros i Hi. specialize (Hall i Hi).
    apply existsb_exists in Hall. destruct Hall as (j & Hj & He).
    apply Nat.eqb_eq in He. now subst.
Qed.

Lemma arranged_perm {A} order (rows : list A) :
  returns_all order (length rows) = true -> Permutation (server.arranged order rows) rows.
Proof.
  intros H. apply returns_all_perm in H.
  rewrite <- (arranged_positions rows) at 2.
  unfold server.arranged. now apply Permutation_flat_map.
Qed.

Lemma delivered_of_user_bills order stop_after userId d :
  Forall (fun r => Db.mb_user_id r = userId /\ In r (Db.member_bills d))
         (server.delivered stop_after (server.arranged order (bills_of userId d))).
Proof.
  apply Forall_forall. intros r Hr.
  assert (In r (bills_of userId d)) as Hin
    by (eapply arranged_In, delivered_In, Hr).
  apply filter_In in Hin. destruct Hin as [Hin He].
  apply String.eqb_eq in He. now split.
Qed.

Lemma delivered_of_user_promises order stop_after userId d :
  Forall (fun r => Db.pp_user_id r = userId /\ In r (Db.payment_promises d))
         (server.delivered stop_after (server.arranged order (promises_of userId d))).
Proof.
  apply Forall_forall. intros r Hr.
  assert (In r (promises_of userId d)) as Hin
    by (eapply arranged_In, delivered_In, Hr).
  apply filter_In in Hin. destruct Hin as [Hin He].
  apply String.eqb_eq in He. now split.
Qed.

(** X21.  What a status page that is answered 200 holds.  It names the
    requested user, and each entry of its two lists comes from a row of
    that user and of nobody else, whatever order the database returned the
    rows in: each promise shows the order id, amount and payment mode of
    its row, each bill the id, amount and status of its row, and a bill's
    paid date is nil exactly when the column is NULL. *)
Theorem status_page_shows_own_rows promises_answer bills_answer d userId user promises bills :
  server.getUserStatus column_time created_at promises_answer bills_answer d userId
    = (200, Some (user, promises, bills)) ->
  user = userId /\
  (exists rows,
      Forall (fun r => Db.pp_user_id r = userId /\ In r (Db.payment_promises d)) rows /\
      Forall2 promise_shown rows promises) /\
  (exists rows,
      Forall (fun r => Db.mb_user_id r = userId /\ In r (Db.member_bills d)) rows /\
      Forall2 bill_shown rows bills).
Proof.
  unfold server.getUserStatus.
  destruct (server.getPaymentPromises column_time created_at promises_answer d userId)
    as [ps|] eqn:Hp; [|discriminate].
  destruct (server.getMemberBills column_time bills_answer d userId)
    as [bs|] eqn:Hb; [|discriminate].
  intros [= <- <- <-]. split; [reflexivity|].
  destruct promises_answer as [|order_p stop_p]; [discriminate|].
  destruct bills_answer as [|order_b stop_b]; [discriminate|].
  split.
  - exists (server.delivered stop_p (server.arranged order_p (promises_of userId d))).
    split; [apply delivered_of_user_promises|now apply scanPromises_shown].
  - exists (server.delivered stop_b (server.arranged order_b (bills_of userId d))).
    split; [apply delivered_of_user_bills|now apply scanBills_shown].
Qed.

(** X22.  Neither query function looks at [rows.Err()]: when a cursor
    breaks off after [n] rows, the function reports no error and returns
    the first [n] entries of what the complete cursor would have given, so
    the page is answered 200 with shortened lists. *)
Theorem broken_cursor_shortens_the_page promises_order bills_order d userId promises bills n k :
  server.getUserStatus column_time created_at
      (server.QueryRows promises_order None) (server.QueryRows bills_order None) d userId
    = (200, Some (userId, promises, bills)) ->
  server.getUserStatus column_time created_at
      (server.QueryRows promises_order (Some n)) (server.QueryRows bills_order (Some k))
      d userId
    = (200, Some (userId, firstn n promises, firstn k bills)).
Proof.
  unfold server.getUserStatus, server.getPaymentPromises, server.getMemberBills.
  cbn [server.delivered].
  destruct (server.scanPromises column_time created_at _) as [ps|] eqn:Hp; [|discriminate].
  destruct (server.scanBills column_time _) as [bs|] eqn:Hb; [|discriminate].
  intros [= <- <-].
  now rewrite (scanPromises_firstn n _ _ Hp), (scanBills_firstn k _ _ Hb).
Qed.

(** The bills of a user on the page after an update of one bill. *)
Lemma getMemberBills_set_paid answer d d' userId paid_date id t bills :
  Db.member_bills d' = map (Db.set_paid "paid" paid_date id) (Db.member_bills d) ->
  column_time paid_date = Some t ->
  server.getMemberBills column_time answer d userId = Some bills ->
  server.getMemberBills column_time answer d' userId =
    Some (map (pay_view id (time.Format_date 0 t)) bills).
Proof.
  intros Hd Ht. unfold server.getMemberBills.
  destruct answer as [|order stop_after]; [discriminate|].
  rewrite Hd, bills_of_set_paid, arranged_map, delivered_map.
  now apply scanBills_set_paid.
Qed.

(** X23.  From a payment record to the status page.  Once the consumer
    has processed a payment record and its update was accepted, the bills
    list of any user's page, read with the rows in the same order as
    before, is the list from before with every bill of the paid id now
    shown as paid, with the record's paid date as the driver reads it, and
    every other bill shown as before. *)
Theorem payment_shows_on_status_page env record w (paymentEvent : PaymentCompletedEvent.t)
        answer userId t bills :
  discriminator record = Some "PaymentCompletedEvent" ->
  Json.unmarshal record = Some paymentEvent ->
  exec_ok env (S (execs w)) = true ->
  column_time (PaymentCompletedEvent.PaidDate paymentEvent) = Some t ->
  server.getMemberBills column_time answer (db w) userId = Some bills ->
  server.getMemberBills column_time answer
      (db (world_of (consumer.processEvent env record w))) userId =
    Some (map (pay_view (PaymentCompletedEvent.BillID paymentEvent) (time.Format_date 0 t))
              bills).
Proof.
  intros Hd Hu Hok Ht Hb.
  destruct (payment_run env record w paymentEvent Hd Hu) as (w' & Hr & _ & Hm).
  rewrite Hr. cbn [world_of]. rewrite Hok in Hm.
  exact (getMemberBills_set_paid answer (db w) (db w') userId _ _ t bills Hm Ht Hb).
Qed.

(** The run of [processEvent] on a record that decodes as a bill. *)
Lemma bill_run env record w (billEvent : MemberBillCreatedEvent.t) :
  discriminator record = Some "MemberBillCreatedEvent" ->
  Json.unmarshal record = Some billEvent ->
  exists w',
    consumer.processEvent env record w = Done tt w' /\
    Db.member_bills (db w') =
      Db.member_bills (db w) ++
      (if exec_ok env (S (execs w)) then
         [ {| Db.mb_id := MemberBillCreatedEvent.BillID billEvent;
              Db.mb_promise_id := MemberBillCreatedEvent.PromiseID billEvent;
              Db.mb_user_id := MemberBillCreatedEvent.UserID billEvent;
              Db.mb_amount := MemberBillCreatedEvent.Amount billEvent;
              Db.mb_status := "unpaid";
              Db.mb_issued_date := MemberBillCreatedEvent.IssuedDate billEvent;
              Db.mb_paid_date := None |} ]
       else []).
Proof.
  intros Hd Hu.
  rewrite (processEvent_decoded env _ _ w Hd).
  cbn [String.eqb Ascii.eqb Bool.eqb].
  unfold consumer.onMemberBillCreated. rewrite Hu.
  go_run; (eexists; split; [reflexivity|]); go_simpl;
    cbn [Db.apply Db.member_bills]; rewrite ?app_nil_r; reflexivity.
Qed.

(** X24.  From a bill record to the status page.  Once the consumer has
    processed a bill record and its insert was accepted, the page of the
    bill's user, read with a complete cursor, shows the bills it showed
    before and the new one, unpaid and with a nil paid date, and no other;
    the page of every other user shows the bills it showed before.  The
    query has no [ORDER BY]: where the new bill stands among the others,
    and in what order the others come, is the database's choice, so the
    lists are the same up to order. *)
Theorem new_bill_shows_on_status_page env record w (billEvent : MemberBillCreatedEvent.t)
        userId t order_before order_after bills :
  discriminator record = Some "MemberBillCreatedEvent" ->
  Json.unmarshal record = Some billEvent ->
  exec_ok env (S (execs w)) = true ->
  column_time (MemberBillCreatedEvent.IssuedDate billEvent) = Some t ->
  returns_all order_before (length (bills_of userId (db w))) = true ->
  returns_all order_after
    (length (bills_of userId (db (world_of (consumer.processEvent env record w))))) = true ->
  server.getMemberBills column_time (server.QueryRows order_before None) (db w) userId
    = Some bills ->
  exists bills',
    server.getMemberBills column_time (server.QueryRows order_after None)
        (db (world_of (consumer.processEvent env record w))) userId = Some bills' /\
    Permutation bills'
      (if String.eqb (MemberBillCreatedEvent.UserID billEvent) userId
       then {| server.bill_billId := MemberBillCreatedEvent.BillID billEvent;
               server.bill_amount := MemberBillCreatedEvent.Amount billEvent;
               server.bill_status := "unpaid";
               server.bill_issuedDate := time.Format_date 0 t;
               server.bill_paidDate := None |} :: bills
       else bills).
Proof.
  intros Hd Hu Hok Ht.
  destruct (bill_run env record w billEvent Hd Hu) as (w' & Hr & Hm).
  rewrite Hr. cbn [world_of]. rewrite Hok in Hm.
  unfold server.getMemberBills. cbn [server.delivered].
  fold (bills_of userId (db w)). fold (bills_of userId (db w')).
  intros Hbefore Hafter Hb.
  destruct (scanBills_perm _ _ (arranged_perm _ _ Hbefore) bills Hb)
    as (plain & Hplain & Hperm).
  assert (exists plain',
             server.scanBills column_time (bills_of userId (db w')) = Some plain' /\
             Permutation plain'
               (if String.eqb (MemberBillCreatedEvent.UserID billEvent) userId
                then {| server.bill_billId := MemberBillCreatedEvent.BillID billEvent;
                        server.bill_amount := MemberBillCreatedEvent.Amount billEvent;
                        server.bill_status := "unpaid";
                        server.bill_issuedDate := time.Format_date 0 t;
                        server.bill_paidDate := None |} :: bills
                else bills)) as (plain' & Hplain' & Hperm').
  { unfold bills_of in *. rewrite Hm, filter_app. cbn [filter Db.mb_user_id].
    destruct (String.eqb (MemberBillCreatedEvent.UserID billEvent) userId).
    - eexists. split.
      + apply scanBills_app; [exact Hplain|].
        cbn [server.scanBills Db.mb_issued_date Db.mb_paid_date server.scanPaidDate
             Db.mb_id Db.mb_amount Db.mb_status].
        rewrite Ht. reflexivity.
      + rewrite <- Permutation_cons_append. constructor. now symmetry.
    - rewrite app_nil_r. exists plain. split; [exact Hplain|now symmetry]. }
  destruct (scanBills_perm _ _ (Permutation_sym (arranged_perm _ _ Hafter)) plain' Hplain')
    as (bills' & Hbills' & Hlast).
  exists bills'. split; [exact Hbills'|].
  transitivity plain'; [now symmetry|exact Hperm'].
Qed.

End StatusPage.

Lemma status_page_shows_own_rows_witness :
  exists rows,
    Forall (fun r => Db.mb_user_id r = "u2"%string /\ In r (Db.member_bills Scenario.two_users))
           rows /\
    Forall2 bill_shown rows
      [ {| server.bill_billId := "b2"; server.bill_amount := 1200;
           server.bill_status := "paid"; server.bill_issuedDate := "2024-01-15";
           server.bill_paidDate := Some "2024-01-15"%string |} ].
Proof.
  exact (proj2 (proj2 (status_page_shows_own_rows Scenario.column_time (fun _ => Some 0)
                         (server.QueryRows [] None) (server.QueryRows [0%nat] None)
                         Scenario.two_users "u2" "u2" [] _ eq_refl))).
Defined.

Lemma broken_cursor_shortens_the_page_witness :
  server.getUserStatus Scenario.column_time (fun _ => Some 0)
      (server.QueryRows [] (Some 0%nat)) (server.QueryRows [0%nat] (Some 0%nat))
      Scenario.two_users "u1"
    = (200, Some ("u1"%string, [], [])).
Proof.
  exact (broken_cursor_shortens_the_page Scenario.column_time (fun _ => Some 0)
           [] [0%nat] Scenario.two_users "u1" [] _ 0 0 eq_refl).
Defined.

Lemma payment_shows_on_status_page_witness :
  server.getMemberBills Scenario.column_time (server.QueryRows [0%nat] None)
      (db (world_of (consumer.processEvent Sample.env Sample.payment
                       (fresh_world Scenario.two_users)))) "u1" =
    Some [ {| server.bill_billId := "b1"; server.bill_amount := 3500;
              server.bill_status := "paid"; server.bill_issuedDate := "2024-01-15";
              server.bill_paidDate := Some "2024-01-15"%string |} ].
Proof.
  exact (payment_shows_on_status_page Scenario.column_time Sample.env Sample.payment
           (fresh_world Scenario.two_users) Sample.payment_event
           (server.QueryRows [0%nat] None) "u1" 1705276800 _
           eq_refl eq_refl eq_refl eq_refl eq_refl).
Defined.

(** User [u2] has the paid bill [b2]; the bill [b3] is added, and the
    database returns the new row first. *)
Lemma new_bill_shows_on_status_page_witness :
  exists bills',
    server.getMemberBills Scenario.column_time (server.QueryRows [1%nat; 0%nat] None)
        (db (world_of (consumer.processEvent Sample.env Scenario.second_bill
                         (fresh_world Scenario.two_users)))) "u2" = Some bills' /\
    Permutation bills'
      [ {| server.bill_billId := "b3"; server.bill_amount := 800;
           server.bill_status := "unpaid"; server.bill_issuedDate := "2024-01-15";
           server.bill_paidDate := None |};
        {| server.bill_billId := "b2"; server.bill_amount := 1200;
           server.bill_status := "paid"; server.bill_issuedDate := "2024-01-15";
           server.bill_paidDate := Some "2024-01-15"%string |} ].
Proof.
  exact (new_bill_shows_on_status_page Scenario.column_time Sample.env Scenario.second_bill
           (fresh_world Scenario.two_users) Scenario.second_bill_event "u2" 1705276800
           [0%nat] [1%nat; 0%nat] _
           eq_refl eq_refl eq_refl eq_refl eq_refl eq_refl eq_refl).
Defined.
